(* ===== verification/_CoqProject ===== *)
-Q . S2P
Prelude.v
Position.v
Config.v
Actions.v
Template.v
Backdrop.v
Lifecycle.v
Invariants.v
Fresh.v
WellFormed.v
Trace.v
Refinement.v
Quiescence.v
Behaviour.v
Layout.v
Renderer.v
Flows.v
