(* ===== verification/Prelude.v ===== *)
(** * A verification development of the mockup modal pattern

    The program is [src/js/patterns/modal.js], a jQuery "pattern" that
    turns a trigger element into a modal dialog.  Its parts: the options
    and their defaults; [init], which reads the trigger element, binds the
    trigger strings and chooses a content strategy ([initModal]); the four
    [create*Modal] functions that acquire the content (a background
    request for remote content); [render], which builds the dialog node,
    binds the actions and mounts it in the wrapper shared by all instances;
    [form], [handleFormAction] and [handleLinkAction], which answer a click
    on an action element with a background request whose completion
    redraws or destroys the dialog; [show], [_show], [hide] and [redraw],
    the lifecycle; and [findPosition], [positionModal] and
    [positionLoading], the geometry.  The instances share the wrapper, the
    loading indicator and the backdrop, whose ["hidden"] event calls the
    [hide] of every active instance.

    ** Files
    - [Prelude]: JavaScript helpers ([split], [indexOf], clamped
      [substring], truthiness, comparisons of rationals), the [modal] hint
      database, the tactics [qlra], [qcase] and [peel] (which proves that a
      composition of operations is monotone for a preorder, one call at a
      time), and lemmas on strings, lists and options.
    - [Position] (Module [Position]): [findPosition] (592-661) as CSS writes
      over rationals, [positionModal] (669-709) with the browser's
      measurements as input, [positionLoading] (580-591).
    - [Config] (Module [Config]): [defaults] (44-121), the action options
      of [form] (126-140), trigger strings (489-499), the trigger link's
      [href] (501-516), [initModal] (568-579).
    - [Actions] (Module [Actions]): the action handlers (144-295) as lists
      of effects in the order the code performs them; jQuery's selector
      engine is the class [HtmlQuery].
    - [Template] (Module [Template]): the template object [render] builds
      from the fragment (304-334: title, prepended region, content), the
      dialog's HTML ([_.template] of the default template, 77-90), and the
      DOM queries of [render] and [form] on it: the buttons (341), their
      relocation and the [.row] cleanup (341-356, 370), the close link
      (361), the elements [form] binds in the body (141).
    - [Backdrop]: the backdrop collaborator, not in this repository: the
      interface [BackdropOps], the laws [BackdropLaws] the lifecycle
      relies on, and [SimpleBackdrop], written from spec 6.
    - [Lifecycle] (Module [Lifecycle]): the world (every instance's fields,
      a store of DOM nodes that [self.$modal] refers into, the wrapper's
      mounted dialogs, the loading indicator, the backdrop, the outstanding
      requests, a log, and the page state [Page]: the window's size, the
      style [positionModal] last wrote on each node, the bound [resize]
      and image [load] handlers and the nodes passed to [registry.scan]),
      one definition per function of the source ([render], [_show],
      [positionModal] as [position_modal], [createAjaxModal], [hide],
      [redraw], ...), the effect interpreter [run_effects], the events
      [step] (including a window resize, an image load and the clicks on
      a dialog's button proxies, close link and body) and [reachable].  A
      dialog node ([Node], built by [new_node]) keeps its HTML, its bound
      actions, its button proxies with whether [form] bound the original,
      and whether it has a close link.  The layout engine is the parameter [measure] of
      [PageEnv].
    - [Invariants], [Fresh], [WellFormed]: preorders on worlds ([evolves],
      [shrinks], [fresher], [kept]), each proved of every operation by
      [peel] with its hint database, and the invariants of reachable pages.
    - [Refinement]: the lifecycle state machine of spec 4.4 and the
      simulation of the code by it.
    - [Quiescence]: answering the outstanding requests empties the queue.
    - [Trace]: the log of lifecycle events, callbacks and navigations
      only grows ([log_grows], proved of every operation with [log_db]),
      the events of a re-entrant [hide], and the order of the events of a
      [show].
    - [Behaviour], [Flows]: what the handlers and event sequences do.
    - [Layout]: the registry scans and the handlers that reposition the
      dialogs; the invariant [layout_inv] by the preorder [lay_ok], the
      placement after a resize, and repositioning as a sequence of
      last-writer-wins writes.
    - [Renderer]: the controls [render] wires into a dialog, on reachable
      pages: a button proxy does what its original's action does, the
      close link does what [hide()] does.

    ** Theorems
    - Completion of actions (C1, C2, C19-C22 in [Actions]; C33, C34 in
      [Flows]): error markers, exactly one of redraw and destroy, failures,
      the redirect that throws, the link action that skips the markers, a
      form action that leaves the loading indicator shown.
    - Lifecycle (C5-C8, C13-C18 in [Behaviour]): what [show] and [hide] do,
      when the shared wrapper is hidden, and the event sequences where the
      code departs from the spec.
    - Invariants of reachable pages: the strategy matches the configuration
      (C10), identifiers are fresh (C11), every reference into the node
      store resolves to a node of the right instance (C36).
    - Trace (C9, C28, C29 in [Trace]): every event only appends to the
      log; [hide] of the last dialog re-enters itself through the
      backdrop's ["hidden"] handlers, logging [hide] and [hidden] for
      every instance whose dialog keeps the class [active], itself and
      instances hidden before included; a [show] that renders at once
      emits [render], [before-render], [before-events-setup],
      [after-render], [rendered], [show], [shown] in this order.
    - Controls of the dialog (C32 in [Renderer]): a click on a button
      proxy is the original's action event when [form] bound it for
      [click], and nothing otherwise.
    - Refinement (C38, C39): under the spec's rule of one creation request
      per instance, every event moves every instance along the spec's
      machine; two remote [show]s break the rule and [hide] then leaves
      the instance acquiring.
    - Geometry (C4, C23, C24, C37), configuration and trigger strings
      (C30, C31, C35, a parse/print round trip).
    - Layout (C12, C25-C27 in [Layout]): every mounted dialog has been
      scanned; after a resize every dialog carries the placement
      [positionModal] computes in the new window; a redrawn dialog's
      images have no [load] handler; a second resize to the same size
      changes nothing.
    - Termination (C3): the re-entrant [hide]; liveness (C40): whatever
      the answers, the request queue drains, since no completion issues a
      request.

    ** Fuel and assumptions
    [hide] calls itself through the backdrop's ["hidden"] handlers; it is a
    [Fixpoint] on fuel, and the events use [hide_fuel = 2].  C3 proves that
    any fuel of at least two gives the same world: the first
    [backdrop.hide()] hides the backdrop, so the nested calls cannot fire
    it again.  [hide] counts the [.modal] elements of the wrapper; the
    model counts the mounted dialogs, which is the count when every
    instance keeps the default [className] ["modal"].  The theorems about
    the wrapper assume [BackdropLaws]; the others hold for any backdrop.

    ** Not modelled
    The DOM edits of [render] (relocating the buttons, removing the class
    [row]) are operations of [HtmlQuery], which the sample selector engine
    [literal_query] leaves as the identity; the node records what the
    handlers need (the proxies and the close link).  [$modal.data(...)]
    (399) is read by nothing in the source.  A button proxy triggers
    [click] on its original: the native default action of a submit button
    (submitting its form without the pattern) is the browser's.  A user-supplied
    [templateOptions.template] is the field [template] of the options, a
    function, since [_.template] is a library.  The measurements
    [positionModal] reads come from [PageEnv.measure] (a function of the
    window's size, the dialog's HTML and whether its images have loaded);
    the [resize.modal.patterns] handler [render] binds on the dialog node
    (393-397) is never triggered by the source and is left out.  What
    [registry.scan] does to the markup is the registry's; the model
    records which nodes were scanned.  The Router, the behaviour registry,
    [utils.parseBodyTag], jQuery and [jquery.form] are libraries the
    source calls: [parseBodyTag] and the selector engine are parameters
    ([PageEnv], [HtmlQuery]), and a request is an outstanding entry of the
    world answered by an event. *)

From stdpp Require Import base list sets strings.
From Stdlib Require Import QArith Lqa String Ascii ZArith.

Declare Scope modal_scope.
Delimit Scope modal_scope with modal.

Create HintDb modal.
Create Rewrite HintDb modal_rw.

(** ** JavaScript strings *)

(** [o === s] where [o] is a JavaScript value that is a string or
    [undefined] (an array index past the end, an absent option). *)
Definition js_str_eq (o : option string) (s : string) : bool :=
  match o with
  | Some t => String.eqb t s
  | None => false
  end.

Notation "o '===' s" := (js_str_eq o s) (at level 70, no associativity) : modal_scope.

(** Truthiness of a string-or-null value: [null], [undefined] and [""]
    are falsy, every other string is truthy. *)
Definition js_truthy (o : option string) : bool :=
  match o with
  | Some s => negb (String.eqb s "")
  | None => false
  end.

(** [s.split(sep)] for a one-character separator: every occurrence splits,
    so the result is never empty and may contain empty pieces. *)
Fixpoint js_split (sep : ascii) (s : string) : list string :=
  match s with
  | EmptyString => [""%string]
  | String c rest =>
      let parts := js_split sep rest in
      if Ascii.eqb c sep then ""%string :: parts
      else match parts with
           | p :: ps => String c p :: ps
           | [] => [String c ""]
           end
  end.

(** [parts.join(sep)], the inverse of [js_split]. *)
Fixpoint js_join (sep : ascii) (l : list string) : string :=
  match l with
  | [] => ""
  | [p] => p
  | p :: ps => (p ++ String sep (js_join sep ps))%string
  end.

(** [s.indexOf(c)] for a one-character needle: the index of the first
    occurrence, or [-1]. *)
Fixpoint js_indexOf (c : ascii) (s : string) : Z :=
  match s with
  | EmptyString => (-1)%Z
  | String d rest =>
      if Ascii.eqb d c then 0%Z
      else let i := js_indexOf c rest in
           if (i <? 0)%Z then (-1)%Z else (i + 1)%Z
  end.

(** [s.substring(a, b)]: both indices are clamped to [[0, length s]] and
    swapped when [a > b]. *)
Definition js_clamp (len : nat) (z : Z) : nat :=
  Z.to_nat (Z.max 0 (Z.min z (Z.of_nat len))).

Definition js_substring (s : string) (a b : Z) : string :=
  let x := js_clamp (String.length s) a in
  let y := js_clamp (String.length s) b in
  String.substring (Nat.min x y) (Nat.max x y - Nat.min x y) s.

(** The double-quote character, for string literals of the source that
    contain one. *)
Definition dquote : string := String "034"%char EmptyString.

(** [s.substr(0, 1)]: the first character, or [""]. *)
Definition js_first_char (s : string) : string := String.substring 0 1 s.

(** ** JavaScript numbers as rationals

    The geometry of the page is measured by jQuery in CSS pixels and
    combined with [/ 2] and [-]; rationals represent these values exactly.
    [a > b] of the source is [Qgtb a b]. *)
Definition Qgtb (a b : Q) : bool := negb (Qle_bool a b).

(** ** Generic lemmas *)

Lemma js_str_eq_true o s : js_str_eq o s = true <-> o = Some s.
Proof.
  destruct o as [t|]; simpl; [|split; congruence].
  rewrite String.eqb_eq. split; congruence.
Qed.

Lemma js_str_eq_None s : js_str_eq None s = false.
Proof. reflexivity. Qed.

Lemma js_str_eq_Some t s : js_str_eq (Some t) s = String.eqb t s.
Proof. reflexivity. Qed.

Lemma Qle_bool_spec (a b : Q) : reflect (a <= b)%Q (Qle_bool a b).
Proof.
  destruct (Qle_bool a b) eqn:E; constructor.
  - by apply Qle_bool_iff.
  - intros H. apply Qle_bool_iff in H. congruence.
Qed.

Lemma Qgtb_spec (a b : Q) : reflect (b < a)%Q (Qgtb a b).
Proof.
  unfold Qgtb. destruct (Qle_bool_spec a b); constructor; simpl.
  - intros H. apply Qlt_not_le in H. contradiction.
  - by apply Qnot_le_lt.
Qed.

Lemma Qgtb_false (a b : Q) : (a <= b)%Q -> Qgtb a b = false.
Proof. intros H. destruct (Qgtb_spec a b); [lra | reflexivity]. Qed.

Lemma Qgtb_true (a b : Q) : (b < a)%Q -> Qgtb a b = true.
Proof. intros H. destruct (Qgtb_spec a b); [reflexivity | lra]. Qed.

#[export] Hint Resolve Qgtb_false Qgtb_true : modal.
#[export] Hint Rewrite js_str_eq_None js_str_eq_Some : modal_rw.

Lemma js_split_nonempty sep s : js_split sep s <> [].
Proof.
  destruct s as [|c rest]; simpl; [discriminate|].
  destruct (Ascii.eqb c sep); [discriminate|].
  destruct (js_split sep rest); discriminate.
Qed.

(** Splitting and joining are inverse: no character is lost by [split]. *)
Lemma js_join_split sep s : js_join sep (js_split sep s) = s.
Proof.
  induction s as [|c rest IH]; [reflexivity|]. simpl.
  pose proof (js_split_nonempty sep rest) as Hne.
  destruct (Ascii.eqb c sep) eqn:E.
  - apply Ascii.eqb_eq in E as ->.
    destruct (js_split sep rest) as [|p ps] eqn:Hs; [congruence|].
    rewrite <- IH. destruct ps; reflexivity.
  - destruct (js_split sep rest) as [|p ps]; [congruence|].
    rewrite <- IH. destruct ps; reflexivity.
Qed.

(** No piece of a split contains the separator. *)
Lemma js_split_no_sep sep s p :
  p ∈ js_split sep s -> ~ In sep (list_ascii_of_string p).
Proof.
  revert p. induction s as [|c rest IH]; intros p Hp; simpl in Hp.
  - apply list_elem_of_singleton in Hp as ->. simpl. tauto.
  - destruct (Ascii.eqb c sep) eqn:E.
    + apply elem_of_cons in Hp as [->|Hp]; [simpl; tauto | by apply IH].
    + destruct (js_split sep rest) as [|q qs] eqn:Hs.
      { apply list_elem_of_singleton in Hp as ->. simpl.
        intros [->|[]]. by rewrite Ascii.eqb_refl in E. }
      apply elem_of_cons in Hp as [->|Hp].
      * simpl. intros [->|Hin]; [by rewrite Ascii.eqb_refl in E|].
        revert Hin. apply IH. by left.
      * apply IH. by right.
Qed.

Lemma js_split_no_sep_word sep s :
  ~ In sep (list_ascii_of_string s) -> js_split sep s = [s].
Proof.
  induction s as [|c rest IH]; simpl; [done|]. intros Hn.
  destruct (Ascii.eqb_spec c sep) as [->|Hne]; [tauto|].
  rewrite IH by tauto. done.
Qed.

Lemma js_split_app_sep sep s t :
  ~ In sep (list_ascii_of_string s) ->
  js_split sep (s ++ String sep t) = s :: js_split sep t.
Proof.
  induction s as [|c rest IH]; simpl; intros Hn.
  - by rewrite Ascii.eqb_refl.
  - destruct (Ascii.eqb_spec c sep) as [->|Hne]; [tauto|].
    rewrite IH by tauto. done.
Qed.

Lemma string_length_app (a b : string) :
  String.length (a ++ b) = (String.length a + String.length b)%nat.
Proof. induction a as [|c a IH]; simpl; [done|]. by rewrite IH. Qed.

Lemma substring_prefix (a b : string) : String.substring 0 (String.length a) (a ++ b) = a.
Proof. induction a as [|c a IH]; simpl; [by destruct b|]. by rewrite IH. Qed.

Lemma substring_whole (s : string) : String.substring 0 (String.length s) s = s.
Proof. induction s as [|c s IH]; simpl; [done|]. by rewrite IH. Qed.

Lemma substring_suffix (a b : string) :
  String.substring (String.length a) (String.length b) (a ++ b) = b.
Proof. induction a as [|c a IH]; simpl; [apply substring_whole | exact IH]. Qed.

(** A string is its prefix of length [k] followed by the rest. *)
Lemma substring_split (s : string) (k : nat) :
  (k <= String.length s)%nat ->
  (String.substring 0 k s ++ String.substring k (String.length s - k) s)%string = s.
Proof.
  revert k. induction s as [|c s IH]; intros [|k] Hk; simpl in *; try lia; try done.
  - by rewrite substring_whole.
  - exact (f_equal (String c) (IH k ltac:(lia))).
Qed.

Lemma js_indexOf_absent c s : ~ In c (list_ascii_of_string s) -> js_indexOf c s = (-1)%Z.
Proof.
  induction s as [|d s IH]; simpl; [done|]. intros Hn.
  destruct (Ascii.eqb_spec d c) as [->|]; [tauto|]. rewrite IH by tauto. done.
Qed.

Lemma js_indexOf_first c a b :
  ~ In c (list_ascii_of_string a) -> js_indexOf c (a ++ String c b) = Z.of_nat (String.length a).
Proof.
  induction a as [|d a IH]; simpl; intros Hn; [by rewrite Ascii.eqb_refl|].
  destruct (Ascii.eqb_spec d c) as [->|]; [tauto|]. rewrite IH by tauto.
  destruct (Z.ltb_spec (Z.of_nat (String.length a)) 0); lia.
Qed.

Lemma js_clamp_nonpos len z : (z <= 0)%Z -> js_clamp len z = 0%nat.
Proof. intros Hz. unfold js_clamp. rewrite Z.max_l; [done|]. lia. Qed.

Lemma js_clamp_nat len (n : nat) : (n <= len)%nat -> js_clamp len (Z.of_nat n) = n.
Proof. intros Hn. unfold js_clamp. rewrite Z.min_l, Z.max_r by lia. apply Nat2Z.id. Qed.

Lemma js_clamp_le len z : (js_clamp len z <= len)%nat.
Proof. unfold js_clamp. lia. Qed.

(** [s.substring(0, i) + s.substring(i, s.length)] is [s] for every [i]:
    the clamping of [substring] makes the split total. *)
Lemma js_substring_split (s : string) (i : Z) :
  (js_substring s 0 i ++ js_substring s i (Z.of_nat (String.length s)))%string = s.
Proof.
  unfold js_substring. rewrite (js_clamp_nonpos _ 0), js_clamp_nat by lia.
  pose proof (js_clamp_le (String.length s) i) as Hk.
  rewrite !Nat.min_l, !Nat.max_r, Nat.sub_0_r by lia.
  by apply substring_split.
Qed.

Lemma js_substring_nat (s : string) (a b : nat) :
  (a <= b)%nat -> (b <= String.length s)%nat ->
  js_substring s (Z.of_nat a) (Z.of_nat b) = String.substring a (b - a) s.
Proof.
  intros Hab Hb. unfold js_substring, js_clamp.
  rewrite !Z.min_l, !Z.max_r by lia. rewrite !Nat2Z.id.
  by rewrite Nat.min_l, Nat.max_r by lia.
Qed.

(** [lra] treats [/ 2] as an unknown; [qlra] first turns it into a
    multiplication by the constant [1#2]. *)
Lemma Qdiv2_mul (a : Q) : (a / 2 == a * (1 # 2))%Q.
Proof. reflexivity. Qed.

Ltac qlra := rewrite ?Qdiv2_mul in *; lra.

(** A reflection tactic for the rational comparisons of the code:
    every [Qle_bool]/[Qgtb] test in the goal is split into its two cases,
    each with the corresponding order fact in the context. *)
Ltac qcase :=
  repeat match goal with
  | |- context [Qgtb ?a ?b] => destruct (Qgtb_spec a b)
  | |- context [Qle_bool ?a ?b] => destruct (Qle_bool_spec a b)
  end.

(** Prove [R w (op_n (... (op_1 w)))] for a preorder [R] by peeling the
    composition one call at a time: the outermost call is discharged by
    [tac], the rest recursively, and [match] and [if] are split.  Each
    invariant of the lifecycle instantiates [tac] with its hint database. *)
Ltac peel tac :=
  repeat match goal with
  | |- ?R ?w ?t => is_var t; reflexivity
  | |- ?R ?t ?t => reflexivity
  | |- ?R _ (match _ with _ => _ end) => case_match
  | |- ?R _ (if _ then _ else _) => case_match
  | |- ?R ?w (?g ?t) => transitivity t; [|solve [tac]]
  end.

(** A fold of steps, each related to its start by a preorder, is related
    to its start: the handlers an event runs in turn. *)
Lemma fold_left_rel {A W} (R : relation W) `{!PreOrder R} (g : W -> A -> W) (l : list A) (w w1 : W) :
  R w w1 -> (forall w a, R w (g w a)) -> R w (fold_left g l w1).
Proof.
  intros H1 Hg. revert w1 H1. induction l as [|a l IH]; intros w1 H1; simpl; [done|].
  apply IH. etransitivity; [exact H1|apply Hg].
Qed.

(** A register written by a sequence of writes: [upd a] is what [a]
    writes, if anything; the last write wins. *)
Definition reg_step {A V} (upd : A -> option V) (acc : option V) (a : A) : option V :=
  match upd a with Some v => Some v | None => acc end.

(** Once the sequence writes the register, its first value is lost. *)
Lemma fold_reg_indep {A V} (upd : A -> option V) (ws : list A) (v1 v2 : option V) :
  (exists a, a ∈ ws /\ is_Some (upd a)) ->
  fold_left (reg_step upd) ws v1 = fold_left (reg_step upd) ws v2.
Proof.
  revert v1 v2. induction ws as [|a ws IH]; intros v1 v2 (b & Hb & Hs); [by apply elem_of_nil in Hb|].
  simpl. unfold reg_step at 2 4. destruct (upd a) eqn:Ha; [done|].
  apply IH. apply elem_of_cons in Hb as [->|Hb]; [|eauto]. rewrite Ha in Hs. by destruct Hs.
Qed.

(** A filter that keeps every element is the identity. *)
Lemma filter_Forall_id {A} (P : A -> Prop) `{forall x, Decision (P x)} (l : list A) :
  Forall P l -> filter P l = l.
Proof. induction 1; [done|]. rewrite filter_cons_True by done. by f_equal. Qed.

(** An element of a list updated at one index was there before or is the
    update of an element that was. *)
Lemma list_elem_of_alter {A} (f : A -> A) (i : nat) (l : list A) (y : A) :
  y ∈ alter f i l -> y ∈ l \/ exists z, z ∈ l /\ y = f z.
Proof.
  intros (j & Hj)%list_elem_of_lookup. destruct (decide (i = j)) as [->|Hne].
  - rewrite list_lookup_alter_eq in Hj. apply fmap_Some in Hj as (z & Hz & ->).
    right. exists z. split; [by eapply list_elem_of_lookup_2|done].
  - rewrite list_lookup_alter_ne in Hj by done. left. by eapply list_elem_of_lookup_2.
Qed.

(** Collecting over a list without duplicates what only the element [i]
    contributes gives what [i] contributes. *)
Lemma flat_map_only {A} (f : nat -> list A) (i : nat) (l : list nat) :
  NoDup l -> i ∈ l -> flat_map (fun j => if bool_decide (j = i) then f j else []) l = f i.
Proof.
  induction 1 as [|a l Ha _ IH]; intros Hi; [set_solver|]. simpl.
  case_bool_decide as Hai.
  - subst a. rewrite <- (app_nil_r (f i)) at 2. f_equal. clear IH Hi.
    induction l as [|b l IHl]; [done|]. simpl.
    rewrite bool_decide_false by set_solver. apply IHl. set_solver.
  - apply IH. set_solver.
Qed.
