(* ===== verification/Position.v ===== *)
(** * PositionEngine: [findPosition] and [positionModal]

    [findPosition] (modal.js 592-661) is pure geometry: from the two anchor
    words of [options.position], the margin and the measured sizes of the
    dialog and of the inner wrapper it computes the CSS offsets.
    [positionModal] (669-709) resets the dialog's style, writes the box
    properties, measures, and writes the offsets.  The measurements
    ([outerWidth(true)], [$wrapperInner.width()], ...) are done by the
    browser's layout engine: they are the inputs of [Geometry]. *)

From stdpp Require Import base list sets strings.
From Stdlib Require Import QArith Lqa String Ascii ZArith Morphisms.
From S2P Require Import Prelude.

Local Open Scope modal_scope.
Local Set Warnings "-clear-no-such-hyp".

Module Position.

(** A CSS value written by the code: [n + 'px'], ['auto'], or a raw
    string such as [options.width] or ['absolute']. *)
Inductive CssVal :=
| Px (q : Q)
| Auto
| Raw (s : string).

(** [options.margin]: "can be int or function that returns an int". *)
Inductive Margin :=
| MarginNum (q : Q)
| MarginFn (f : unit -> Q).

(** [typeof self.options.margin === 'function' ? self.options.margin() : self.options.margin] *)
Definition resolve_margin (m : Margin) : Q :=
  match m with
  | MarginNum q => q
  | MarginFn f => f tt
  end.

(** The style writes of a [returnpos] object or of a sequence of
    [.css(...)] calls, in the order they happen. *)
Definition Styles := list (string * CssVal).

(** The value a sequence of writes leaves for property [k]: the last write. *)
Fixpoint css_get (k : string) (l : Styles) : option CssVal :=
  match l with
  | [] => None
  | (k', v) :: l' =>
      match css_get k l' with
      | Some w => Some w
      | None => if String.eqb k k' then Some v else None
      end
  end.

(** -- HORIZONTAL POSITION -- of [findPosition] (598-627). *)
Definition horizontalPosition (horpos : option string) (margin modalWidth wrapperInnerWidth : Q) : Styles :=
  if horpos === "left" then
    let absLeft := Px margin in
    let absLeft := if Qgtb modalWidth wrapperInnerWidth then Px 0 else absLeft in
    [("left", absLeft)]
  else if horpos === "right" then
    let absRight := Px margin in
    let absRight := if Qgtb modalWidth wrapperInnerWidth then Px 0 else absRight in
    [("right", absRight); ("left", Auto)]
  else
    let absLeft := Px (wrapperInnerWidth / 2 - modalWidth / 2 - margin) in
    let absLeft := if Qgtb modalWidth wrapperInnerWidth then Px 0 else absLeft in
    [("left", absLeft)].

(** -- VERTICAL POSITION -- of [findPosition] (629-658). *)
Definition verticalPosition (vertpos : option string) (margin modalHeight wrapperInnerHeight : Q) : Styles :=
  if vertpos === "top" then
    let absTop := Px margin in
    let absTop := if Qgtb modalHeight wrapperInnerHeight then Px 0 else absTop in
    [("top", absTop)]
  else if vertpos === "bottom" then
    let absBottom := Px margin in
    let absBottom := if Qgtb modalHeight wrapperInnerHeight then Px 0 else absBottom in
    [("bottom", absBottom); ("top", Auto)]
  else
    let absTop := Px (wrapperInnerHeight / 2 - modalHeight / 2 - margin) in
    let absTop := if Qgtb modalHeight wrapperInnerHeight then Px 0 else absTop in
    [("top", absTop)].

(** [findPosition(horpos, vertpos, margin, modalWidth, modalHeight,
    wrapperInnerWidth, wrapperInnerHeight)]: the keys of [returnpos] in
    insertion order, horizontal first. *)
Definition findPosition (horpos vertpos : option string)
    (margin modalWidth modalHeight wrapperInnerWidth wrapperInnerHeight : Q) : Styles :=
  horizontalPosition horpos margin modalWidth wrapperInnerWidth ++
  verticalPosition vertpos margin modalHeight wrapperInnerHeight.

(** [var posopt = self.options.position.split(' '), horpos = posopt[0],
    vertpos = posopt[1]]. *)
Definition position_anchors (position : string) : option string * option string :=
  let posopt := js_split " " position in
  (posopt !! 0%nat, posopt !! 1%nat).

(** The options [positionModal] reads. *)
Record PosOptions := {
  po_margin : Margin;
  po_width : string;
  po_height : string;
  po_position : string
}.

(** What the layout engine reports when [positionModal] measures. *)
Record Geometry := {
  modalOuterWidth : Q;        (** [self.$modal.outerWidth(true)] *)
  modalOuterHeight : Q;       (** [self.$modal.outerHeight(true)] *)
  wrapperInnerWidth : Q;      (** [self.$wrapperInner.width()] *)
  wrapperInnerHeight : Q;     (** [self.$wrapperInner.height()] *)
  wrapperParentIsBody : bool; (** [self.$wrapper.parent().is('body')] *)
  windowHeight : Q            (** [$(window.parent).height()] *)
}.

(** The effect of one [positionModal] call: the dialog's whole [style]
    attribute (it starts with [removeAttr('style')]) and the height given
    to the wrapper, if any. *)
Record Placement := {
  modal_style : Styles;
  wrapper_height : option Q
}.

(** [positionModal] (669-709); [has_modal] is
    [!(self.$modal === null || self.$modal === undefined)]. *)
Definition positionModal (has_modal : bool) (o : PosOptions) (g : Geometry) : option Placement :=
  if negb has_modal then None else
  let wrapper_h := if wrapperParentIsBody g then Some (windowHeight g) else None in
  let margin := resolve_margin (po_margin o) in
  let box : Styles :=
    [("padding", Raw "0"); ("margin", Px margin); ("width", Raw (po_width o));
     ("height", Raw (po_height o)); ("position", Raw "absolute")] in
  let '(horpos, vertpos) := position_anchors (po_position o) in
  let pos := findPosition horpos vertpos margin (modalOuterWidth g) (modalOuterHeight g)
               (wrapperInnerWidth g) (wrapperInnerHeight g) in
  Some {| modal_style := box ++ pos; wrapper_height := wrapper_h |}.

(** With a dialog, [positionModal] always places it. *)
Lemma positionModal_true_Some o g : is_Some (positionModal true o g).
Proof. unfold positionModal. simpl. destruct (position_anchors (po_position o)). by eexists. Qed.

(** The defaults of [margin], [width], [height] and [position] (45-48). *)
Definition default_pos_options : PosOptions := {|
  po_margin := MarginFn (fun _ => 20%Q);
  po_width := "";
  po_height := "";
  po_position := "center middle"
|}.

(** [positionLoading] (580-591): the loading indicator is placed by its
    margins, half the wrapper's size minus half its own, measured by
    [$wrapper.width()] and [$loading.width()] (and heights).  jQuery
    writes the numbers as pixels. *)
Definition positionLoading (wrapperWidth loadingWidth wrapperHeight loadingHeight : Q) : Styles :=
  [("margin-left", Px (wrapperWidth / 2 - loadingWidth / 2));
   ("margin-top", Px (wrapperHeight / 2 - loadingHeight / 2));
   ("position", Raw "absolute");
   ("bottom", Raw "0"); ("left", Raw "0"); ("right", Raw "0"); ("top", Raw "0")].

(** ** Equivalence of CSS values up to the value of the rational *)

Definition css_equiv (a b : CssVal) : Prop :=
  match a, b with
  | Px p, Px q => (p == q)%Q
  | Auto, Auto => True
  | Raw s, Raw t => s = t
  | _, _ => False
  end.

Definition styles_equiv : relation Styles :=
  Forall2 (fun a b => a.1 = b.1 /\ css_equiv a.2 b.2).

#[export] Instance css_equiv_equiv : Equivalence css_equiv.
Proof.
  split.
  - intros []; simpl; done.
  - intros [] []; simpl; done.
  - intros [] [] []; simpl; try done; intros; [by transitivity q0 | congruence].
Qed.

Definition geom_equiv (g g' : Geometry) : Prop :=
  (modalOuterWidth g == modalOuterWidth g')%Q /\ (modalOuterHeight g == modalOuterHeight g')%Q /\
  (wrapperInnerWidth g == wrapperInnerWidth g')%Q /\ (wrapperInnerHeight g == wrapperInnerHeight g')%Q /\
  wrapperParentIsBody g = wrapperParentIsBody g' /\ (windowHeight g == windowHeight g')%Q.

Definition placement_equiv (p p' : Placement) : Prop :=
  styles_equiv (modal_style p) (modal_style p') /\
  option_Forall2 Qeq (wrapper_height p) (wrapper_height p').

(** [options.position] with its anchor words replaced. *)
Definition with_position (o : PosOptions) (p : string) : PosOptions :=
  {| po_margin := po_margin o; po_width := po_width o; po_height := po_height o; po_position := p |}.

(** ** Lemmas on style writes *)

Lemma css_get_app k l1 l2 :
  css_get k (l1 ++ l2) = match css_get k l2 with Some v => Some v | None => css_get k l1 end.
Proof.
  induction l1 as [|[k' v] l1 IH]; simpl.
  - by destruct (css_get k l2).
  - rewrite IH. by destruct (css_get k l2).
Qed.

Lemma css_get_None k (l : Styles) : k ∉ l.*1 -> css_get k l = None.
Proof.
  induction l as [|[k' v] l IH]; simpl; [done|].
  rewrite not_elem_of_cons. intros [Hne Hl]. rewrite IH by done.
  by rewrite (proj2 (String.eqb_neq _ _) Hne).
Qed.

Lemma verticalPosition_keys v m mh wh :
  (verticalPosition v m mh wh).*1 ⊆ ["top"; "bottom"]%string.
Proof. unfold verticalPosition. repeat case_match; simpl; set_solver. Qed.

Lemma horizontalPosition_keys h m mw W :
  (horizontalPosition h m mw W).*1 ⊆ ["left"; "right"]%string.
Proof. unfold horizontalPosition. repeat case_match; simpl; set_solver. Qed.

Lemma css_get_findPosition_h k h v m mw mh W wh :
  k = "left"%string \/ k = "right"%string ->
  css_get k (findPosition h v m mw mh W wh) = css_get k (horizontalPosition h m mw W).
Proof.
  intros Hk. unfold findPosition. rewrite css_get_app, css_get_None; [done|].
  pose proof (verticalPosition_keys v m mh wh). destruct Hk as [->| ->]; set_solver.
Qed.

Lemma css_get_findPosition_v k h v m mw mh W wh :
  k = "top"%string \/ k = "bottom"%string ->
  css_get k (findPosition h v m mw mh W wh) = css_get k (verticalPosition v m mh wh).
Proof.
  intros Hk. unfold findPosition. rewrite css_get_app.
  rewrite (css_get_None k (horizontalPosition h m mw W)); [by case_match|].
  pose proof (horizontalPosition_keys h m mw W). destruct Hk as [->| ->]; set_solver.
Qed.

#[export] Instance Px_proper : Proper (Qeq ==> css_equiv) Px.
Proof. intros a b H. exact H. Qed.

Lemma Qgtb_proper a a' b b' : (a == a')%Q -> (b == b')%Q -> Qgtb a b = Qgtb a' b'.
Proof. intros Ha Hb. unfold Qgtb. by rewrite Ha, Hb. Qed.

(** [findPosition] depends only on the values of its numeric inputs, not
    on their representation as fractions. *)
#[export] Instance findPosition_proper :
  Proper (eq ==> eq ==> Qeq ==> Qeq ==> Qeq ==> Qeq ==> Qeq ==> styles_equiv) findPosition.
Proof.
  intros h ? <- v ? <- m m' Hm mw mw' Hmw mh mh' Hmh W W' HW wh wh' Hwh.
  unfold findPosition, horizontalPosition, verticalPosition.
  rewrite (Qgtb_proper mw mw' W W'), (Qgtb_proper mh mh' wh wh') by done.
  apply Forall2_app; repeat case_match; repeat constructor; simpl; try done;
    rewrite ?Hm, ?HW, ?Hmw, ?Hwh, ?Hmh; reflexivity.
Qed.

(** ** Theorems *)

(** Anchored edges.  When the dialog is anchored to an edge
    ([left]/[right] horizontally, [top]/[bottom] vertically) the offset
    written for that edge is the margin when the dialog fits in the inner
    wrapper on that axis, and [0px] when it is larger. *)
Theorem findPosition_edge_anchor (h v : string) m mw mh W wh :
  (h = "left" \/ h = "right")%string -> (v = "top" \/ v = "bottom")%string ->
  css_get h (findPosition (Some h) (Some v) m mw mh W wh) = Some (if Qle_bool mw W then Px m else Px 0) /\
  css_get v (findPosition (Some h) (Some v) m mw mh W wh) = Some (if Qle_bool mh wh then Px m else Px 0).
Proof.
  intros Hh Hv. rewrite css_get_findPosition_h, css_get_findPosition_v by tauto.
  unfold horizontalPosition, verticalPosition, Qgtb.
  destruct Hh as [->| ->], Hv as [->| ->]; simpl; by repeat case_match.
Qed.

Lemma findPosition_edge_anchor_witness :
  css_get "right" (findPosition (Some "right") (Some "top") 20 500 300 400 800) = Some (Px 0) /\
  css_get "top" (findPosition (Some "right") (Some "top") 20 500 300 400 800) = Some (Px 20).
Proof.
  destruct (findPosition_edge_anchor "right" "top" 20 500 300 400 800) as [H1 H2];
    [by right | by left |].
  rewrite H1, H2. split; reflexivity.
Defined.

(** C4. Centring.  For any horizontal anchor other than [left]/[right]
    (an unrecognised word or none at all) the dialog is centred: [left] is
    [wrapperInnerWidth/2 - modalWidth/2 - margin], or [0px] when the
    dialog is wider than the wrapper; symmetrically for [top]. *)
Theorem findPosition_center h v m mw mh W wh :
  h <> Some "left"%string -> h <> Some "right"%string ->
  v <> Some "top"%string -> v <> Some "bottom"%string ->
  css_get "left" (findPosition h v m mw mh W wh) =
    Some (if Qle_bool mw W then Px (W / 2 - mw / 2 - m) else Px 0) /\
  css_get "top" (findPosition h v m mw mh W wh) =
    Some (if Qle_bool mh wh then Px (wh / 2 - mh / 2 - m) else Px 0).
Proof.
  intros Hl Hr Ht Hb. rewrite css_get_findPosition_h, css_get_findPosition_v by tauto.
  unfold horizontalPosition, verticalPosition, Qgtb.
  destruct (h === "left") eqn:E1; [by apply js_str_eq_true in E1|].
  destruct (h === "right") eqn:E2; [by apply js_str_eq_true in E2|].
  destruct (v === "top") eqn:E3; [by apply js_str_eq_true in E3|].
  destruct (v === "bottom") eqn:E4; [by apply js_str_eq_true in E4|].
  simpl. by repeat case_match.
Qed.

Lemma findPosition_center_witness :
  css_get "left" (findPosition None None 20 300 100 1000 600) = Some (Px (1000 / 2 - 300 / 2 - 20)) /\
  css_get "top" (findPosition None None 20 300 100 1000 600) = Some (Px (600 / 2 - 100 / 2 - 20)).
Proof.
  destruct (findPosition_center None None 20 300 100 1000 600) as [H1 H2]; try discriminate.
  rewrite H1, H2. split; reflexivity.
Defined.

(** C23. The centred offset is negative exactly when the two margins do not
    fit beside the dialog: a dialog narrower than the wrapper is placed
    partly outside it when [wrapperInnerWidth - modalWidth < 2 * margin].
    The code clamps to [0px] only when the dialog itself is wider than the
    wrapper. *)
Theorem findPosition_center_negative h v m mw mh W wh x :
  h <> Some "left"%string -> h <> Some "right"%string -> (mw <= W)%Q ->
  css_get "left" (findPosition h v m mw mh W wh) = Some (Px x) ->
  ((x < 0)%Q <-> (W - mw < 2 * m)%Q).
Proof.
  intros Hl Hr Hfit. rewrite css_get_findPosition_h by tauto.
  unfold horizontalPosition.
  destruct (h === "left") eqn:E1; [by apply js_str_eq_true in E1|].
  destruct (h === "right") eqn:E2; [by apply js_str_eq_true in E2|].
  rewrite Qgtb_false by done. simpl. intros [= <-]. split; intros; qlra.
Qed.

Lemma findPosition_center_negative_witness :
  ((400 / 2 - 360 / 2 - 30 < 0)%Q <-> (400 - 360 < 2 * 30)%Q).
Proof.
  apply (findPosition_center_negative None None 30 360 100 400 600).
  - discriminate.
  - discriminate.
  - vm_compute. intros; discriminate.
  - reflexivity.
Defined.
Lemma css_get_box_app k m w h (pos : Styles) v :
  css_get k pos = Some v ->
  css_get k ([("padding", Raw "0"); ("margin", Px m); ("width", Raw w);
              ("height", Raw h); ("position", Raw "absolute")] ++ pos) = Some v.
Proof. intros Hk. by rewrite css_get_app, Hk. Qed.


(** The default configuration ([center middle], a margin function
    returning 20) places a dialog that fits in the inner wrapper at
    [left = W/2 - w/2 - 20], [top = H/2 - h/2 - 20], with a CSS margin of
    [20px]. *)
Theorem positionModal_default g :
  (modalOuterWidth g <= wrapperInnerWidth g)%Q -> (modalOuterHeight g <= wrapperInnerHeight g)%Q ->
  exists p, positionModal true default_pos_options g = Some p /\
    css_get "left" (modal_style p) =
      Some (Px (wrapperInnerWidth g / 2 - modalOuterWidth g / 2 - 20)) /\
    css_get "top" (modal_style p) =
      Some (Px (wrapperInnerHeight g / 2 - modalOuterHeight g / 2 - 20)) /\
    css_get "margin" (modal_style p) = Some (Px 20).
Proof.
  intros Hw Hh.
  assert (Ha : position_anchors (po_position default_pos_options) =
    (Some "center"%string, Some "middle"%string)) by reflexivity.
  unfold positionModal. rewrite Ha. eexists. split; [reflexivity|].
  cbn [modal_style resolve_margin po_margin default_pos_options].
  destruct (findPosition_center (Some "center") (Some "middle") 20 (modalOuterWidth g)
    (modalOuterHeight g) (wrapperInnerWidth g) (wrapperInnerHeight g)) as [Hl Ht]; try done.
  destruct (Qle_bool_spec (modalOuterWidth g) (wrapperInnerWidth g)); [|done].
  destruct (Qle_bool_spec (modalOuterHeight g) (wrapperInnerHeight g)); [|done].
  split_and!; [by apply css_get_box_app..|].
  rewrite css_get_app, css_get_None; [done|].
  pose proof (horizontalPosition_keys (Some "center") 20 (modalOuterWidth g) (wrapperInnerWidth g)).
  pose proof (verticalPosition_keys (Some "middle") 20 (modalOuterHeight g) (wrapperInnerHeight g)).
  unfold findPosition. rewrite fmap_app. set_solver.
Qed.

Lemma positionModal_default_witness :
  exists p, positionModal true default_pos_options
    {| modalOuterWidth := 600; modalOuterHeight := 400; wrapperInnerWidth := 1024;
       wrapperInnerHeight := 768; wrapperParentIsBody := true; windowHeight := 768 |} = Some p /\
    css_get "left" (modal_style p) = Some (Px (1024 / 2 - 600 / 2 - 20)) /\
    css_get "top" (modal_style p) = Some (Px (768 / 2 - 400 / 2 - 20)) /\
    css_get "margin" (modal_style p) = Some (Px 20).
Proof.
  apply positionModal_default; simpl; vm_compute; intros; discriminate.
Defined.

(** A one-word [position] (no space) leaves the vertical anchor
    [undefined], which [findPosition] treats as [middle]: the placement is
    the one of ["<word> middle"]. *)
Theorem positionModal_single_anchor b o g (h : string) :
  ~ In " "%char (list_ascii_of_string h) ->
  positionModal b (with_position o h) g = positionModal b (with_position o (h ++ " middle")) g.
Proof.
  intros Hn. unfold positionModal, position_anchors; cbn [with_position po_position].
  change (h ++ " middle")%string with (h ++ String " " "middle")%string.
  rewrite js_split_app_sep, (js_split_no_sep_word _ h) by done.
  rewrite (js_split_no_sep_word _ "middle"); [done|].
  simpl. intros H. repeat (destruct H as [H|H]; [discriminate H|]). exact H.
Qed.

Definition sample_geometry : Geometry := {|
  modalOuterWidth := 600; modalOuterHeight := 400; wrapperInnerWidth := 1024;
  wrapperInnerHeight := 768; wrapperParentIsBody := true; windowHeight := 768 |}.

Lemma positionModal_single_anchor_witness :
  positionModal true (with_position default_pos_options "right") sample_geometry =
  positionModal true (with_position default_pos_options "right middle") sample_geometry.
Proof.
  apply (positionModal_single_anchor true default_pos_options sample_geometry "right").
  simpl. intros H. repeat (destruct H as [H|H]; [discriminate H|]). exact H.
Defined.
(** C37. The loading indicator is centred in the wrapper: its horizontal
    margin puts its middle at the wrapper's middle, and, when it is not
    wider than the wrapper, it lies inside it ([0 <= margin-left] and
    [margin-left + width <= wrapper width]); the same vertically.  There
    is no clamp: a larger indicator overflows both sides equally. *)
Theorem positionLoading_centred ww lw wh lh :
  (lw <= ww)%Q -> (lh <= wh)%Q ->
  exists ml mt,
    css_get "margin-left" (positionLoading ww lw wh lh) = Some (Px ml) /\
    css_get "margin-top" (positionLoading ww lw wh lh) = Some (Px mt) /\
    (0 <= ml /\ ml + lw / 2 == ww / 2 /\ ml + lw <= ww)%Q /\
    (0 <= mt /\ mt + lh / 2 == wh / 2 /\ mt + lh <= wh)%Q.
Proof.
  intros Hw Hh. eexists _, _. split_and!; [reflexivity|reflexivity|qlra..].
Qed.

Lemma positionLoading_centred_witness :
  exists ml mt,
    css_get "margin-left" (positionLoading 800 64 600 64) = Some (Px ml) /\
    css_get "margin-top" (positionLoading 800 64 600 64) = Some (Px mt) /\
    (0 <= ml /\ ml + 64 / 2 == 800 / 2 /\ ml + 64 <= 800)%Q /\
    (0 <= mt /\ mt + 64 / 2 == 600 / 2 /\ mt + 64 <= 600)%Q.
Proof. apply positionLoading_centred; vm_compute; discriminate. Defined.

End Position.
