(* ===== verification/Config.v ===== *)
(** * Configuration: options, triggers, content strategy, action options

    The pattern's [defaults] (modal.js 44-121) merged with per-instance
    options, the parts of [init] that read or rewrite them (the trigger
    strings, 489-499, and the trigger link's [href], 501-516), the choice
    of the content strategy [initModal] (568-579), and the per-action option
    resolution of [form] (126-140).  The trigger element and the elements
    of the dialog are records of the attributes the code reads. *)

From stdpp Require Import base list sets strings.
From Stdlib Require Import QArith String Ascii ZArith.
From S2P Require Import Prelude Position.

Local Open Scope modal_scope.
Local Open Scope string_scope.

Module Config.

(** ** Elements *)

(** A [<form>] ancestor of an element: its [action] attribute and whether
    it has the class [disableAutoSubmit]. *)
Record FormEl := {
  form_action : option string;
  form_disableAutoSubmit : bool
}.

(** An element as the code inspects it: its node name ([$.nodeName]), the
    attributes it reads with [.attr(...)], and its [<form>] ancestors,
    nearest first ([$action.parents('form')]). *)
Record Elem := {
  tag : string;
  attr_name : option string;
  attr_value : option string;
  attr_href : option string;
  attr_action : option string;
  form_parents : list FormEl
}.

#[export] Instance FormEl_eq_dec : EqDecision FormEl.
Proof. solve_decision. Defined.

#[export] Instance Elem_eq_dec : EqDecision Elem.
Proof. solve_decision. Defined.

Definition is_tag (e : Elem) (t : string) : bool := String.eqb (tag e) t.

(** ** Action options *)

(** [ajaxUrl]: "string, or function($el, options) that returns a string".
    The function is modelled as a function of the element. *)
Inductive UrlSpec :=
| UrlStr (s : string)
| UrlFn (f : Elem -> string).

(** [redirectToUrl]: a URL, or a function of the response; the function may
    throw ([None]), as the default one does on a response without [<base>]. *)
Inductive RedirectSpec :=
| RedirStr (s : string)
| RedirFn (f : string -> option string).

(** The resolved options of one action, [actionOptions] (93-117) overridden
    by the action's own entries.  A callback field says whether that
    callback is configured (non-null). *)
Record ActionOpts := {
  eventType : string;
  ajaxUrl : option UrlSpec;
  modalFunction : option string;
  isForm : bool;
  timeout : Z;
  displayInModal : bool;
  reloadWindowOnClose : bool;
  error : string;
  formFieldError : string;
  onSuccess : bool;
  onError : bool;
  onFormError : bool;
  onTimeout : bool;
  redirectOnResponse : bool;
  redirectToUrl : RedirectSpec
}.

(** One entry of [options.actions] as the user wrote it: every key may be
    absent ([None], i.e. [undefined]).  [ua_ajaxUrl] distinguishes an
    absent key from an explicit [null] ([Some None]), because the code
    tests the raw entry with [options.ajaxUrl !== null]. *)
Record ActionUserOpts := {
  ua_eventType : option string;
  ua_ajaxUrl : option (option UrlSpec);
  ua_modalFunction : option (option string);
  ua_isForm : option bool;
  ua_timeout : option Z;
  ua_displayInModal : option bool;
  ua_reloadWindowOnClose : option bool;
  ua_error : option string;
  ua_formFieldError : option string;
  ua_onSuccess : option bool;
  ua_onError : option bool;
  ua_onFormError : option bool;
  ua_onTimeout : option bool;
  ua_redirectOnResponse : option bool;
  ua_redirectToUrl : option RedirectSpec
}.

(** The object literal [{}]. *)
Definition empty_user_opts : ActionUserOpts :=
  Build_ActionUserOpts None None None None None None None None None None None None None None None.

(** [$.extend(true, {}, self.options.actionOptions, _.pick(options, actionKeys))]
    (135-136): a key the entry sets wins, an absent key keeps the default. *)
Definition merge_action_opts (d : ActionOpts) (u : ActionUserOpts) : ActionOpts := {|
  eventType := default (eventType d) (ua_eventType u);
  ajaxUrl := default (ajaxUrl d) (ua_ajaxUrl u);
  modalFunction := default (modalFunction d) (ua_modalFunction u);
  isForm := default (isForm d) (ua_isForm u);
  timeout := default (timeout d) (ua_timeout u);
  displayInModal := default (displayInModal d) (ua_displayInModal u);
  reloadWindowOnClose := default (reloadWindowOnClose d) (ua_reloadWindowOnClose u);
  error := default (error d) (ua_error u);
  formFieldError := default (formFieldError d) (ua_formFieldError u);
  onSuccess := default (onSuccess d) (ua_onSuccess u);
  onError := default (onError d) (ua_onError u);
  onFormError := default (onFormError d) (ua_onFormError u);
  onTimeout := default (onTimeout d) (ua_onTimeout u);
  redirectOnResponse := default (redirectOnResponse d) (ua_redirectOnResponse u);
  redirectToUrl := default (redirectToUrl d) (ua_redirectToUrl u)
|}.

(** ** The template of the dialog *)

(** [templateOptions] (66-91): the class names the template writes. *)
Record TemplateOptions := {
  className : string;
  classHeaderName : string;
  classBodyName : string;
  classFooterName : string;
  classPrependName : string;
  classContentName : string
}.

(** The object [render] passes to the template (306-312): [title] and
    [content] may be [undefined] ([$title.html()] of no match). *)
Record TplObject := {
  tpl_title : option string;
  tpl_prepend : string;
  tpl_content : option string;
  tpl_buttons : string;
  tpl_options : TemplateOptions
}.

Definition class_attr (c : string) : string := "class=" ++ dquote ++ c ++ dquote.

(** [_.template] of the default [templateOptions.template] (77-90):
    [<%= x %>] prints nothing for [undefined], [<% if (title) %>] tests
    truthiness. *)
Definition default_template (t : TplObject) : string :=
  let o := tpl_options t in
  "<div " ++ class_attr (className o) ++ ">" ++
  "  <div " ++ class_attr (classHeaderName o) ++ ">" ++
  "    <a " ++ class_attr "close" ++ ">&times;</a>" ++
  "    " ++ (if js_truthy (tpl_title t) then "<h3>" ++ default "" (tpl_title t) ++ "</h3>" else "") ++
  "  </div>" ++
  "  <div " ++ class_attr (classBodyName o) ++ ">" ++
  "    <div " ++ class_attr (classPrependName o) ++ ">" ++ tpl_prepend t ++ "</div> " ++
  "    <div " ++ class_attr (classContentName o) ++ ">" ++ default "" (tpl_content t) ++ "</div>" ++
  "  </div>" ++
  "  <div " ++ class_attr (classFooterName o) ++ "> " ++
  "    " ++ tpl_buttons t ++ " " ++
  "  </div>" ++
  "</div>".

Definition default_templateOptions : TemplateOptions := {|
  className := "modal"; classHeaderName := "modal-header"; classBodyName := "modal-body";
  classFooterName := "modal-footer"; classPrependName := ""; classContentName := ""
|}.

(** ** Instance options *)

Record Options := {
  posOptions : Position.PosOptions;
  triggers : list string;
  closeOnEsc : bool;
  closeOnClick : bool;
  titleSelector : string;
  buttons : string;
  content : option string;
  automaticallyAddButtonActions : bool;
  loadLinksWithinModal : bool;
  actions : list (string * ActionUserOpts);
  actionOptions : ActionOpts;
  routerId : option string;
  opt_ajaxUrl : option string;
  target : option string;
  html : option string;
  title : option string;             (** [null] is [None] *)
  prependContent : option string;
  templateOptions : TemplateOptions;
  template : TplObject -> string     (** [_.template(templateOptions.template, .)] *)
}.

Definition set_actions (o : Options) (a : list (string * ActionUserOpts)) : Options :=
  {| posOptions := posOptions o; triggers := triggers o; closeOnEsc := closeOnEsc o;
     closeOnClick := closeOnClick o; titleSelector := titleSelector o; buttons := buttons o;
     content := content o; automaticallyAddButtonActions := automaticallyAddButtonActions o;
     loadLinksWithinModal := loadLinksWithinModal o; actions := a;
     actionOptions := actionOptions o; routerId := routerId o; opt_ajaxUrl := opt_ajaxUrl o;
     target := target o; html := html o; title := title o; prependContent := prependContent o;
     templateOptions := templateOptions o; template := template o |}.

Definition set_sources (o : Options) (u t : option string) (c : option string) : Options :=
  {| posOptions := posOptions o; triggers := triggers o; closeOnEsc := closeOnEsc o;
     closeOnClick := closeOnClick o; titleSelector := titleSelector o; buttons := buttons o;
     content := c; automaticallyAddButtonActions := automaticallyAddButtonActions o;
     loadLinksWithinModal := loadLinksWithinModal o; actions := actions o;
     actionOptions := actionOptions o; routerId := routerId o; opt_ajaxUrl := u;
     target := t; html := html o; title := title o; prependContent := prependContent o;
     templateOptions := templateOptions o; template := template o |}.

(** [actionOptions] of [defaults] (93-117); [redirectToUrl] is the given
    function (the default one is a regular expression over the response). *)
Definition default_actionOptions (redirect : string -> option string) : ActionOpts := {|
  eventType := "click"; ajaxUrl := None; modalFunction := None; isForm := false;
  timeout := 5000%Z; displayInModal := true; reloadWindowOnClose := true;
  error := ".portalMessage.error"; formFieldError := ".field.error";
  onSuccess := false; onError := false; onFormError := false; onTimeout := false;
  redirectOnResponse := false; redirectToUrl := RedirFn redirect
|}.

(** [defaults] (44-121), with no per-instance options. *)
Definition default_options (redirect : string -> option string) : Options := {|
  posOptions := Position.default_pos_options; triggers := []; closeOnEsc := true;
  closeOnClick := true; titleSelector := "h1:first";
  buttons := ".formControls > input[type=" ++ dquote ++ "submit" ++ dquote ++ "]";
  content := Some "#content";
  automaticallyAddButtonActions := true; loadLinksWithinModal := true; actions := [];
  actionOptions := default_actionOptions redirect; routerId := None;
  opt_ajaxUrl := None; target := None; html := None; title := None;
  prependContent := Some ".portalMessage"; templateOptions := default_templateOptions;
  template := default_template
|}.

(** ** Writing a key of a JavaScript object

    [obj[k] = v] on an object kept as its list of entries in insertion
    order: an existing key keeps its place, a new key goes last. *)
Fixpoint js_obj_set {A} (k : string) (v : A) (l : list (string * A)) : list (string * A) :=
  match l with
  | [] => [(k, v)]
  | (k', v') :: l' => if String.eqb k k' then (k, v) :: l' else (k', v') :: js_obj_set k v l'
  end.

(** The first half of [form] (126-132): it writes into [options.actions],
    the very object stored in [self.options], so the change persists across
    renders. *)
Definition form_actions (o : Options) : list (string * ActionUserOpts) :=
  let a := actions o in
  let a := if automaticallyAddButtonActions o then js_obj_set (buttons o) empty_user_opts a else a in
  if loadLinksWithinModal o then js_obj_set "a" empty_user_opts a else a.

(** ** Triggers *)

(** [var e = item.substring(0, item.indexOf(' '));
    var selector = item.substring(item.indexOf(' '), item.length);] (491-492) *)
Definition parse_trigger (item : string) : string * string :=
  let i := js_indexOf " " item in
  (js_substring item 0 i, js_substring item i (Z.of_nat (String.length item))).

(** ** The trigger link and the content strategy *)

(** The trigger element [self.$el], as [init] inspects it. *)
Record ElInfo := {
  el_is_a : bool;
  el_href : option string
}.

(** [if (self.$el.is('a')) { if (self.$el.attr('href')) { ... } }] (501-510):
    an in-page [href] becomes the [target] (and [content] is cleared),
    any other [href] becomes the [ajaxUrl]; options already set win. *)
Definition init_link_options (el : ElInfo) (o : Options) : Options :=
  if el_is_a el && js_truthy (el_href el) then
    let href := default "" (el_href el) in
    let o := if negb (js_truthy (target o)) && String.eqb (js_first_char href) "#"
             then set_sources o (opt_ajaxUrl o) (Some href) (Some "") else o in
    if negb (js_truthy (opt_ajaxUrl o)) && negb (String.eqb (js_first_char href) "#")
    then set_sources o (Some href) (target o) (content o) else o
  else o.

(** The four ways [createModal] may acquire the content. *)
Inductive Strategy :=
| CreateAjax
| CreateTarget
| CreateHtml
| CreateBasic.

#[export] Instance Strategy_eq_dec : EqDecision Strategy.
Proof. solve_decision. Defined.

(** [initModal] (568-579). *)
Definition initModal (o : Options) : Strategy :=
  if js_truthy (opt_ajaxUrl o) then CreateAjax
  else if js_truthy (target o) then CreateTarget
  else if js_truthy (html o) then CreateHtml
  else CreateBasic.

(** ** Lemmas *)

(** [obj[k]]: the value of the first entry with key [k]. *)
Fixpoint js_obj_get {A} (k : string) (l : list (string * A)) : option A :=
  match l with
  | [] => None
  | (k', v) :: l' => if String.eqb k k' then Some v else js_obj_get k l'
  end.

Lemma js_obj_get_set_eq {A} k (v : A) l : js_obj_get k (js_obj_set k v l) = Some v.
Proof.
  induction l as [|[k' v'] l IH]; simpl; [by rewrite String.eqb_refl|].
  destruct (String.eqb_spec k k') as [<-|Hne]; simpl; [by rewrite String.eqb_refl|].
  by rewrite (proj2 (String.eqb_neq _ _) Hne).
Qed.

Lemma js_obj_get_set_ne {A} k j (v : A) l :
  j <> k -> js_obj_get j (js_obj_set k v l) = js_obj_get j l.
Proof.
  intros Hjk. induction l as [|[k' v'] l IH]; simpl.
  - by rewrite (proj2 (String.eqb_neq _ _) Hjk).
  - destruct (String.eqb_spec k k') as [<-|Hne]; simpl.
    + by rewrite (proj2 (String.eqb_neq _ _) Hjk).
    + destruct (String.eqb j k'); [done|]. exact IH.
Qed.

(** Writing the value a key already has changes nothing. *)
Lemma js_obj_set_id {A} k (v : A) l : js_obj_get k l = Some v -> js_obj_set k v l = l.
Proof.
  induction l as [|[k' v'] l IH]; simpl; [discriminate|].
  destruct (String.eqb_spec k k') as [<-|Hne]; [by intros [= ->]|].
  intros H. by rewrite IH.
Qed.

Lemma js_obj_set_keys {A} k (v : A) l :
  (js_obj_set k v l).*1 = if bool_decide (k ∈ l.*1) then l.*1 else (l.*1 ++ [k])%list.
Proof.
  induction l as [|[k' v'] l IH]; cbn [js_obj_set].
  - rewrite bool_decide_false; [reflexivity | apply not_elem_of_nil].
  - rewrite !fmap_cons. cbn [fst].
    destruct (String.eqb_spec k k') as [<-|Hne].
    + rewrite bool_decide_true; [reflexivity|]. apply elem_of_cons. by left.
    + rewrite fmap_cons, IH. cbn [fst].
      case_bool_decide as H1; case_bool_decide as H2; try reflexivity;
        rewrite elem_of_cons in H2; naive_solver.
Qed.

(** Writing a key never duplicates it. *)
Lemma js_obj_set_NoDup {A} k (v : A) l : NoDup l.*1 -> NoDup (js_obj_set k v l).*1.
Proof.
  intros Hnd. rewrite js_obj_set_keys. case_bool_decide; [done|].
  apply NoDup_app. split_and!; [done| |by apply NoDup_singleton].
  intros x Hx ->%list_elem_of_singleton. contradiction.
Qed.

#[export] Hint Resolve js_obj_get_set_eq js_obj_set_NoDup : modal.

Lemma truthy_hash_href (h : string) :
  String.eqb (js_first_char h) "#" = true -> js_truthy (Some h) = true.
Proof. destruct h; [discriminate|]. reflexivity. Qed.

(** ** Theorems *)

(** A trigger string ["<event> <selector>"] whose event word has no
    space binds event [<event>] on the selector [" <selector>"]: the
    selector keeps the separating space, which jQuery's selector engine
    ignores. *)
Theorem parse_trigger_split (e rest : string) :
  ~ In " "%char (list_ascii_of_string e) ->
  parse_trigger (e ++ String " " rest) = (e, String " " rest).
Proof.
  intros Hn. unfold parse_trigger. rewrite js_indexOf_first by done.
  pose proof (string_length_app e (String " " rest)) as Hl.
  change 0%Z with (Z.of_nat 0).
  rewrite !js_substring_nat by (simpl in *; lia).
  rewrite Nat.sub_0_r, substring_prefix.
  replace (String.length (e ++ String " " rest) - String.length e)%nat
    with (String.length (String " " rest)) by (rewrite Hl; lia).
  by rewrite substring_suffix.
Qed.

Lemma parse_trigger_split_witness :
  parse_trigger "click .open-modal" = ("click", " .open-modal").
Proof.
  apply (parse_trigger_split "click" ".open-modal").
  simpl. intros H. repeat (destruct H as [H|H]; [discriminate H|]). exact H.
Defined.

(** A trigger string without a space (an event name alone, as in
    ["click"]) yields the empty event name and the whole string as the
    selector: the binding never fires, and the fallback [selector || self.$el]
    is not taken, since the selector is not empty. *)
Theorem parse_trigger_no_space (item : string) :
  ~ In " "%char (list_ascii_of_string item) ->
  parse_trigger item = (""%string, item).
Proof.
  intros Hn. unfold parse_trigger. rewrite js_indexOf_absent by done.
  unfold js_substring. rewrite (js_clamp_nonpos _ 0), (js_clamp_nonpos _ (-1)), js_clamp_nat by lia.
  simpl. rewrite Nat.sub_0_r, substring_whole. by destruct item.
Qed.

Lemma parse_trigger_no_space_witness : parse_trigger "click" = (""%string, "click").
Proof.
  apply parse_trigger_no_space.
  simpl. intros H. repeat (destruct H as [H|H]; [discriminate H|]). exact H.
Defined.


(** A trigger link with an in-page [href] ("#...") and no configured
    [target] or [ajaxUrl] gets that fragment as its [target], its [content]
    selector is cleared, and [initModal] chooses the DOM-target strategy. *)
Theorem init_link_hash_target o (h : string) :
  js_first_char h = "#" -> js_truthy (target o) = false -> js_truthy (opt_ajaxUrl o) = false ->
  let o' := init_link_options {| el_is_a := true; el_href := Some h |} o in
  initModal o' = CreateTarget /\ target o' = Some h /\ content o' = Some "".
Proof.
  intros Hh Ht Ha. cbn zeta.
  assert (Hb : String.eqb (js_first_char h) "#" = true) by (rewrite Hh; reflexivity).
  unfold init_link_options. cbn [el_is_a el_href andb default from_option id].
  rewrite (truthy_hash_href h Hb), Hb, Ht. cbn [negb andb].
  unfold initModal, set_sources. cbn [opt_ajaxUrl target content html]. rewrite Ha.
  cbn [negb andb opt_ajaxUrl target content html]. rewrite Ha.
  by rewrite (truthy_hash_href h Hb).
Qed.

Lemma init_link_hash_target_witness :
  let o' := init_link_options {| el_is_a := true; el_href := Some "#login-form" |}
              (default_options (fun _ => None)) in
  initModal o' = CreateTarget /\ target o' = Some "#login-form" /\ content o' = Some "".
Proof. apply init_link_hash_target; reflexivity. Defined.

(** C30. A trigger link whose [href] is not an in-page fragment turns into
    the [ajaxUrl] when none is configured, and the remote strategy then wins
    over an explicitly configured [target]: the configured DOM target is
    never used. *)
Theorem init_link_overrides_target o (h t : string) :
  js_truthy (Some h) = true -> js_first_char h <> "#" ->
  js_truthy (Some t) = true -> target o = Some t -> js_truthy (opt_ajaxUrl o) = false ->
  initModal (init_link_options {| el_is_a := true; el_href := Some h |} o) = CreateAjax /\
  opt_ajaxUrl (init_link_options {| el_is_a := true; el_href := Some h |} o) = Some h.
Proof.
  intros Hh Hne Ht Hto Ha. unfold init_link_options; cbn [el_is_a el_href default from_option id].
  rewrite Hh, Hto, Ht. cbn [negb andb].
  rewrite Ha, (proj2 (String.eqb_neq _ _) Hne). cbn [negb andb].
  unfold initModal, set_sources. cbn [opt_ajaxUrl]. by rewrite Hh.
Qed.

Lemma init_link_overrides_target_witness :
  let o := set_sources (default_options (fun _ => None)) None (Some "#inline") (Some "#content") in
  initModal (init_link_options {| el_is_a := true; el_href := Some "/login" |} o) = CreateAjax /\
  opt_ajaxUrl (init_link_options {| el_is_a := true; el_href := Some "/login" |} o) = Some "/login".
Proof.
  apply (init_link_overrides_target _ "/login" "#inline"); try reflexivity. discriminate.
Defined.

(** C31. Before binding, [form] writes [{}] under the key ["a"] (when
    [loadLinksWithinModal]) and under the [buttons] selector (when
    [automaticallyAddButtonActions]) of [options.actions]: any options the
    user gave for these selectors are discarded, all other entries are kept. *)
Theorem form_actions_overrides o :
  (loadLinksWithinModal o = true -> js_obj_get "a" (form_actions o) = Some empty_user_opts) /\
  (automaticallyAddButtonActions o = true ->
     js_obj_get (buttons o) (form_actions o) = Some empty_user_opts) /\
  (forall k, k <> "a" -> k <> buttons o -> js_obj_get k (form_actions o) = js_obj_get k (actions o)).
Proof.
  unfold form_actions. split_and!.
  - intros ->. apply js_obj_get_set_eq.
  - intros ->. destruct (loadLinksWithinModal o); [|apply js_obj_get_set_eq].
    destruct (String.eq_dec (buttons o) "a") as [->|Hne]; [apply js_obj_get_set_eq|].
    rewrite js_obj_get_set_ne by done. apply js_obj_get_set_eq.
  - intros k Ha Hb. destruct (loadLinksWithinModal o); rewrite ?js_obj_get_set_ne by done;
      destruct (automaticallyAddButtonActions o); rewrite ?js_obj_get_set_ne by done; done.
Qed.

(** The writes of [form] go to the [actions] object shared by every
    render: rendering again (a redraw) after the first render changes the
    object no further, so every render binds the same actions. *)
Theorem form_actions_idempotent o :
  form_actions (set_actions o (form_actions o)) = form_actions o.
Proof.
  destruct (form_actions_overrides o) as (Ha & Hb & _).
  unfold form_actions at 1. unfold set_actions.
  cbn [actions automaticallyAddButtonActions loadLinksWithinModal buttons].
  destruct (automaticallyAddButtonActions o) eqn:E1, (loadLinksWithinModal o) eqn:E2; cbn zeta.
  - rewrite (js_obj_set_id (buttons o) _ (form_actions o)) by auto. by apply js_obj_set_id, Ha.
  - by apply js_obj_set_id, Hb.
  - by apply js_obj_set_id, Ha.
  - reflexivity.
Qed.

End Config.
