(* ===== verification/Actions.v ===== *)
(** * ActionDispatcher: [form], [handleFormAction], [handleLinkAction]

    [form] (122-164) binds a handler on every element of the dialog body
    matching an action selector; the handler (144-160) classifies the
    element and calls [handleFormAction] (165-248) or [handleLinkAction]
    (249-295).  Each handler is modelled as the list of its observable
    effects in the order the code performs them: the request it issues,
    and for the completion callbacks of that request the user callbacks,
    redirects, redraws, destroys, reloads and events.  The lifecycle
    ([Lifecycle]) interprets these effects on the dialog's state.

    The selector engine of jQuery ([$(selector, response).size()], and the
    [.html()], [.clone()], [.remove()], [.each()] and [.removeClass()] the
    renderer uses) is an external
    library: it is the class [HtmlQuery], and every theorem here holds for
    any instance of it. *)

From stdpp Require Import base list sets strings.
From Stdlib Require Import QArith String Ascii ZArith.
From S2P Require Import Prelude Position Config.

Local Open Scope modal_scope.
Local Open Scope string_scope.
Local Open Scope list_scope.

(** What the code asks of jQuery's selector engine on an HTML fragment. *)
Class HtmlQuery := {
  (** [$(selector, html).size()] *)
  query_size : string -> string -> nat;
  (** [$(selector, html).html()]: the inner HTML of the first match,
      [undefined] when nothing matches *)
  query_html : string -> string -> option string;
  (** [$('<div />').append($(selector, html).clone()).html()]: the outer
      HTML of the matches *)
  query_clone_html : string -> string -> string;
  (** the fragment after [$(selector, html).remove()] *)
  query_remove : string -> string -> string;
  (** the elements [$(selector, html)] finds, in document order *)
  query_elems : string -> string -> list Config.Elem;
  (** the fragment after [$(selector, html).each(...)] of [render]
      (340-356): each match is cloned into the first element of [target],
      and hidden *)
  query_relocate : string -> string -> string -> string;
  (** the fragment after [$(selector, html).removeClass(cls)] *)
  query_remove_class : string -> string -> string -> string
}.

Module Actions.
Import Config.

(** The user callbacks an action may invoke. *)
Inductive Callback :=
| CbSuccess
| CbError
| CbFormError
| CbTimeout.

#[export] Instance Callback_eq_dec : EqDecision Callback.
Proof. solve_decision. Defined.

Inductive ReqKind :=
| FormReq
| LinkReq.

(** A background request as the code issues it: [$form.ajaxSubmit({...})]
    or [$.ajax({url: url, ...})]. *)
Record Request := {
  req_kind : ReqKind;
  req_url : option string;
  req_data : list (string * option string);
  req_timeout : option Z
}.

(** The observable effects of an action handler. *)
Inductive Effect :=
| EPreventDefault                  (** [e.stopPropagation(); e.preventDefault()] *)
| EShowLoading (closable : bool)   (** [self.showLoading(closable)] *)
| ECallModalFunction (name : string) (** [self[actionOptions.modalFunction]()] *)
| EFormSubmitEvent                 (** [$form.trigger('submit')] *)
| ERequest (r : Request)           (** a background request is sent *)
| ENavigate (url : option string)  (** [window.parent.location.href = url] *)
| ECallback (c : Callback)         (** a configured user callback runs *)
| ELog                             (** [console.log('error happened do something')] *)
| ERedraw (response : string)      (** [self.redraw(response, patternOptions)] *)
| EDestroy                         (** [$action.trigger('destroy.modal.patterns')] *)
| EReload                          (** [self.reloadWindow()] *)
| EHideLoading                     (** [self.$loading.hide()] *)
| ETrigger (event : string)        (** [self.trigger(event, ...)] *)
| EThrow.                          (** an exception ends the callback *)

(** How a request ends: jQuery's [error(xhr, textStatus, ...)] with its
    [textStatus] ("timeout", "error", "abort", "parsererror"), or
    [success(response, ...)]. *)
Inductive Outcome :=
| Failure (textStatus : string)
| Success (response : string).

(** The branch the action handler takes (151-159). *)
Inductive Handler :=
| HModalFunction (name : string)
| HForm
| HLink
| HNone.

Section Dispatch.
Context {hq : HtmlQuery}.

(** The tests of the handler (151-159).  [u] is the action's entry as the
    user wrote it ([options] in the code), [ao] the merged options
    ([actionOptions]). *)
Definition classify (ao : ActionOpts) (u : ActionUserOpts) (el : Elem) : Handler :=
  match modalFunction ao with
  | Some f => HModalFunction f
  | None =>
      if is_tag el "input" || is_tag el "button" || bool_decide (ua_isForm u = Some true) then HForm
      else if match ua_ajaxUrl u with Some None => false | _ => true end || is_tag el "a"
      then HLink
      else HNone
  end.

(** The request URL of [handleFormAction] (179-188). *)
Definition form_url (ao : ActionOpts) (el : Elem) : option string :=
  match ajaxUrl ao with
  | Some (UrlFn f) => Some (f el)
  | Some (UrlStr s) => Some s
  | None => head (form_parents el) ≫= form_action
  end.

(** [$form] (171-177): the element itself when it is a form, else its
    form ancestors without the class [disableAutoSubmit]. *)
Definition submit_forms (el : Elem) : list FormEl :=
  if is_tag el "form"
  then [{| form_action := attr_action el; form_disableAutoSubmit := false |}]
  else filter (fun f => form_disableAutoSubmit f = false) (form_parents el).

(** [handleFormAction] up to the request (165-199).  [extraData] names the
    clicked control; jquery.form's [ajaxSubmit] sends nothing when [$form]
    is empty. *)
Definition handleFormAction (ao : ActionOpts) (el : Elem) : list Effect :=
  let extraData := [(default "undefined" (attr_name el), attr_value el)] in
  match submit_forms el with
  | [] => []
  | _ => [EFormSubmitEvent;
          ERequest {| req_kind := FormReq; req_url := form_url ao el;
                      req_data := extraData; req_timeout := Some (timeout ao) |}]
  end.

(** The response carries the portal error or a field error (214-215). *)
Definition has_error_marker (ao : ActionOpts) (response : string) : bool :=
  bool_decide (query_size (error ao) response <> 0%nat) ||
  bool_decide (query_size (formFieldError ao) response <> 0%nat).

(** The [error] callback of both requests: the user callback it chooses. *)
Definition error_callbacks (ao : ActionOpts) (textStatus : string) : list Effect :=
  if String.eqb textStatus "timeout" && onTimeout ao then [ECallback CbTimeout]
  else if onError ao then [ECallback CbError]
  else [ELog].

(** The redirect of a successful form response (224-230); [None] when
    [redirectToUrl] throws. *)
Definition form_redirect (ao : ActionOpts) (response : string) : option (list Effect) :=
  if redirectOnResponse ao then
    match redirectToUrl ao with
    | RedirFn f => (fun u => [ENavigate (Some u)]) <$> f response
    | RedirStr s => Some [ENavigate (Some s)]
    end
  else Some [].

(** The completion callbacks of [ajaxSubmit] (200-246). *)
Definition form_complete (ao : ActionOpts) (o : Outcome) : list Effect :=
  match o with
  | Failure textStatus => error_callbacks ao textStatus ++ [ETrigger "formActionError"]
  | Success response =>
      if has_error_marker ao response then
        if onFormError ao then [ECallback CbFormError] else [ERedraw response]
      else
        match form_redirect ao response with
        | None => [EThrow]
        | Some redirect =>
            redirect ++
            (if onSuccess ao then [ECallback CbSuccess] else []) ++
            (if displayInModal ao then [ERedraw response]
             else EDestroy :: (if reloadWindowOnClose ao then [EReload] else [])) ++
            [ETrigger "formActionSuccess"]
        end
  end.

(** The URL of [handleLinkAction] (253-262): [if (options.ajaxUrl)] is a
    truthiness test, so an empty literal falls back to the [href]. *)
Definition link_url (ao : ActionOpts) (el : Elem) : option string :=
  match ajaxUrl ao with
  | Some (UrlFn f) => Some (f el)
  | Some (UrlStr s) => if String.eqb s "" then attr_href el else Some s
  | None => attr_href el
  end.

(** [handleLinkAction] up to the request (249-271). *)
Definition handleLinkAction (ao : ActionOpts) (el : Elem) : list Effect :=
  let url := link_url ao el in
  if negb (displayInModal ao) then [ENavigate url]
  else [ERequest {| req_kind := LinkReq; req_url := url; req_data := []; req_timeout := None |}].

(** The completion callbacks of the link's [$.ajax] (273-293). *)
Definition link_complete (ao : ActionOpts) (o : Outcome) : list Effect :=
  match o with
  | Failure textStatus =>
      error_callbacks ao textStatus ++ [EHideLoading; ETrigger "linkActionError"]
  | Success response =>
      [ERedraw response] ++ (if onSuccess ao then [ECallback CbSuccess] else []) ++
      [EHideLoading; ETrigger "linkActionSuccess"]
  end.

(** The handler bound by [form] on one action element (144-160). *)
Definition action_handler (ao : ActionOpts) (u : ActionUserOpts) (el : Elem) : list Effect :=
  [EPreventDefault; EShowLoading false] ++
  match classify ao u el with
  | HModalFunction f => [ECallModalFunction f]
  | HForm => handleFormAction ao el
  | HLink => handleLinkAction ao el
  | HNone => []
  end.

(** The completion of a request the handler issued, by its kind. *)
Definition complete (ao : ActionOpts) (k : ReqKind) (o : Outcome) : list Effect :=
  match k with
  | FormReq => form_complete ao o
  | LinkReq => link_complete ao o
  end.

End Dispatch.

(** A stand-in for jQuery's selector engine, used to evaluate the theorems
    on examples: a selector "matches" when it occurs verbatim in the HTML. *)
Definition literal_query : HtmlQuery :=
  {| query_size := fun sel html =>
       match String.index 0 sel html with Some _ => 1%nat | None => 0%nat end;
     query_html := fun sel html =>
       match String.index 0 sel html with Some _ => Some html | None => None end;
     query_clone_html := fun sel html =>
       match String.index 0 sel html with Some _ => sel | None => "" end;
     query_remove := fun _ html => html;
     query_elems := fun sel html =>
       match String.index 0 sel html with
       | Some _ => [{| tag := "input"; attr_name := Some sel; attr_value := None; attr_href := None;
                       attr_action := None; form_parents := [] |}]
       | None => []
       end;
     query_relocate := fun _ _ html => html;
     query_remove_class := fun _ _ html => html |}.

(** The effects that end the dialog's current content: a redraw or a
    destroy. *)
Definition is_terminal (e : Effect) : bool :=
  match e with
  | ERedraw _ | EDestroy => true
  | _ => false
  end.

Section Properties.
Context {hq : HtmlQuery}.

Lemma form_redirect_shape ao resp r :
  form_redirect ao resp = Some r -> r = [] \/ exists u, r = [ENavigate u].
Proof.
  unfold form_redirect. destruct (redirectOnResponse ao); [|intros [= <-]; by left].
  destruct (redirectToUrl ao) as [s|f]; [intros [= <-]; right; eauto|].
  destruct (f resp); simpl; intros [= <-]; right; eauto.
Qed.

Lemma error_callbacks_shape ao st :
  exists c, error_callbacks ao st = [c] /\ (c = ELog \/ c = ECallback CbTimeout \/ c = ECallback CbError).
Proof. unfold error_callbacks. repeat case_match; eauto 10. Qed.

(** C1. A successful form response that carries an error marker (the
    portal error or a field error) never runs the success callback or a
    redirect: it re-renders the dialog with the response, or hands it to
    [onFormError] when one is configured. *)
Theorem form_complete_error_marker ao resp :
  has_error_marker ao resp = true ->
  form_complete ao (Success resp) = if onFormError ao then [ECallback CbFormError] else [ERedraw resp].
Proof. intros Hm. simpl. by rewrite Hm. Qed.


(** C20. When [redirectOnResponse] is set and the [redirectToUrl] function
    throws (the default one does on a response without a [<base>] tag), the
    success callback of the form request stops there: no success callback,
    no redraw, no destroy; the loading indicator shown by the action stays. *)
Theorem form_complete_redirect_throws ao resp f :
  has_error_marker ao resp = false -> redirectOnResponse ao = true ->
  redirectToUrl ao = RedirFn f -> f resp = None ->
  form_complete ao (Success resp) = [EThrow].
Proof. intros Hm Hr Hf Hn. simpl. rewrite Hm. unfold form_redirect. by rewrite Hr, Hf, Hn. Qed.

(** C19. A failed request (network error, timeout, abort, parse error) of
    either kind never redraws, destroys or runs the success callback: the
    dialog keeps its content, exactly one of the timeout callback, the error
    callback or the log runs, and the action-error event is emitted last. *)
Theorem failure_keeps_dialog ao k st :
  exists c, complete ao k (Failure st) =
    c :: (if k is LinkReq then [EHideLoading; ETrigger "linkActionError"]
          else [ETrigger "formActionError"]) /\
    (c = ECallback CbTimeout <-> String.eqb st "timeout" && onTimeout ao = true) /\
    is_terminal c = false /\ c <> ECallback CbSuccess.
Proof.
  destruct (error_callbacks_shape ao st) as (c & Hc & Hcs).
  exists c. destruct k; simpl; rewrite Hc; split_and!; try done;
    unfold error_callbacks in Hc; repeat case_match; simplify_eq; naive_solver.
Qed.

(** C21. A successful link response is never checked for error markers:
    even a response carrying the portal error replaces the dialog's content
    and runs the success callback. *)
Theorem link_complete_ignores_markers ao resp :
  has_error_marker ao resp = true -> onSuccess ao = true ->
  link_complete ao (Success resp) =
    [ERedraw resp; ECallback CbSuccess; EHideLoading; ETrigger "linkActionSuccess"].
Proof. intros _ Hs. simpl. by rewrite Hs. Qed.

(** C22. An action entry without an [ajaxUrl] key on an element that is
    neither an input, a button nor a link is still handled as a link: the
    raw test [options.ajaxUrl !== null] holds for an absent key, so the
    handler fetches the element's [href] (undefined for most elements). *)
Theorem classify_plain_element_is_link ao u el :
  modalFunction ao = None -> ajaxUrl ao = None -> displayInModal ao = true ->
  is_tag el "input" = false -> is_tag el "button" = false -> is_tag el "a" = false ->
  ua_isForm u <> Some true -> ua_ajaxUrl u = None ->
  action_handler ao u el =
    [EPreventDefault; EShowLoading false;
     ERequest {| req_kind := LinkReq; req_url := attr_href el; req_data := []; req_timeout := None |}].
Proof.
  intros Hf Ha Hd Hi Hb Hl Hu Hau. unfold action_handler, classify.
  rewrite Hf, Hi, Hb, Hau, bool_decide_false by done. simpl.
  unfold handleLinkAction, link_url. by rewrite Ha, Hd.
Qed.

End Properties.

Lemma form_complete_error_marker_witness :
  form_complete (hq := literal_query)
    (default_actionOptions (fun _ => None)) (Success "<dl class=.field.error>...") =
  [ERedraw "<dl class=.field.error>..."].
Proof. apply (form_complete_error_marker (hq := literal_query)). vm_compute. reflexivity. Defined.


Definition redirecting_options : ActionOpts := {|
  eventType := "click"; ajaxUrl := None; modalFunction := None; isForm := false;
  timeout := 5000%Z; displayInModal := true; reloadWindowOnClose := true;
  error := ".portalMessage.error"; formFieldError := ".field.error";
  onSuccess := true; onError := false; onFormError := false; onTimeout := false;
  redirectOnResponse := true; redirectToUrl := RedirFn (fun _ => None)
|}.

Lemma form_complete_redirect_throws_witness :
  form_complete (hq := literal_query) redirecting_options (Success "<p>saved</p>") = [EThrow].
Proof. apply (form_complete_redirect_throws (hq := literal_query) _ _ (fun _ => None)); reflexivity. Defined.

Lemma link_complete_ignores_markers_witness :
  link_complete redirecting_options (Success "<div class=.portalMessage.error>") =
    [ERedraw "<div class=.portalMessage.error>"; ECallback CbSuccess; EHideLoading;
     ETrigger "linkActionSuccess"].
Proof.
  apply (link_complete_ignores_markers (hq := literal_query)); [vm_compute|]; reflexivity.
Defined.

Definition div_element : Elem := {|
  tag := "div"; attr_name := None; attr_value := None; attr_href := None;
  attr_action := None; form_parents := [] |}.

Lemma classify_plain_element_is_link_witness :
  action_handler (default_actionOptions (fun _ => None)) empty_user_opts div_element =
    [EPreventDefault; EShowLoading false;
     ERequest {| req_kind := LinkReq; req_url := None; req_data := []; req_timeout := None |}].
Proof.
  apply classify_plain_element_is_link; try reflexivity. discriminate.
Defined.
End Actions.
