(* ===== verification/Template.v ===== *)
(** * Renderer: the template object of [render]

    The default [render] (modal.js 296-403) clones [self.$raw] and builds
    the object the template receives (304-334): the title (the literal
    [options.title], or the first match of [titleSelector], then removed
    from the fragment), the prepended region (the matches of
    [prependContent], then removed), and the content (the inner HTML of
    the [content] selector's first match, or the whole remaining
    fragment).  [_.template] turns the object into the dialog's HTML
    (337); [dialog_html] is that HTML.  [render] then relocates the
    buttons into the footer behind click proxies and removes the class
    [row] ([cleaned_html], [dialog_buttons]), and [form] binds the
    actions found in the body ([body_elems]).  The fragment operations are
    jQuery's, the class [HtmlQuery]. *)

From stdpp Require Import base list strings.
From Stdlib Require Import String.
From S2P Require Import Prelude Config Actions.

Local Open Scope string_scope.

Module Template.
Import Config.

Section Template.
Context {hq : HtmlQuery}.

(** [buttons: '<div class="pat-modal-buttons"></div>'] (311). *)
Definition buttons_placeholder : string := "<div " ++ class_attr "pat-modal-buttons" ++ "></div>".

Definition template_object (o : Options) (raw : string) : TplObject :=
  let '(t, raw) :=
    match title o with
    | None => (query_html (titleSelector o) raw, query_remove (titleSelector o) raw)
    | Some t => (Some t, raw)
    end in
  let '(prepend, raw) :=
    if js_truthy (prependContent o)
    then let sel := default "" (prependContent o) in (query_clone_html sel raw, query_remove sel raw)
    else ("<div />", raw) in
  let c := if js_truthy (content o) then query_html (default "" (content o)) raw else Some raw in
  {| tpl_title := t; tpl_prepend := prepend; tpl_content := c;
     tpl_buttons := buttons_placeholder; tpl_options := templateOptions o |}.

(** [self.$modal = $(_.template(self.options.templateOptions.template, tpl_object))] *)
Definition dialog_html (o : Options) (raw : string) : string := template o (template_object o raw).

(** [$(options.buttons, self.$modal)] (341): the buttons of the
    rendered dialog, before they are relocated. *)
Definition dialog_buttons (o : Options) (html : string) : list Elem := query_elems (buttons o) html.

(** The DOM edits of [render] before [form]: every button is cloned into
    [.pat-modal-buttons] and hidden (340-356), then the class [row] is
    removed (367). *)
Definition cleaned_html (o : Options) (html : string) : string :=
  query_remove_class ".row" "row" (query_relocate (buttons o) ".pat-modal-buttons" html).

(** [$(action, $('.' + classBodyName, $modal))] (141): the elements of an
    action that [form] binds, those in the dialog's body. *)
Definition body_elems (o : Options) (key html : string) : list Elem :=
  query_elems key (default "" (query_html ("." ++ classBodyName (templateOptions o)) html)).

(** [$('.modal-header > a.close', self.$modal)] (361) finds a close link. *)
Definition close_link (html : string) : bool :=
  bool_decide (0 < query_size ".modal-header > a.close" html)%nat.

End Template.

End Template.
