(* ===== verification/Backdrop.v ===== *)
(** * The Backdrop collaborator, as the modal pattern uses it

    The backdrop ([mockup-patterns-backdrop]) is not part of this
    repository: the modal pattern calls its [show()], [hide()], [init()],
    sets its [closeOnClick]/[closeOnEsc] flags, and listens to the
    ["hidden"] event it fires.  The class [BackdropOps] is that interface
    and [BackdropLaws] what the lifecycle's theorems assume of it: [hide]
    fires ["hidden"] exactly when the backdrop was visible, and leaves it
    hidden.  [SimpleBackdrop] is an implementation written from the spec's
    description of the collaborator (section 6), used to run examples. *)

From stdpp Require Import base.

Class BackdropOps (B : Type) := {
  bd_visible : B -> bool;
  bd_closeOnEsc : B -> bool;
  bd_closeOnClick : B -> bool;
  (** [backdrop.show()] *)
  bd_show : B -> B;
  (** [backdrop.hide()]: the new state and whether ["hidden"] fired *)
  bd_hide : B -> B * bool;
  (** [backdrop.closeOnClick = c; backdrop.closeOnEsc = c; backdrop.init()] *)
  bd_set_closable : bool -> B -> B
}.

Class BackdropLaws (B : Type) `{BackdropOps B} := {
  bd_show_visible b : bd_visible (bd_show b) = true;
  bd_show_esc b : bd_closeOnEsc (bd_show b) = bd_closeOnEsc b;
  bd_hide_invisible b : bd_visible (bd_hide b).1 = false;
  bd_hide_fires b : (bd_hide b).2 = bd_visible b;
  bd_hide_esc b : bd_closeOnEsc (bd_hide b).1 = bd_closeOnEsc b;
  bd_set_closable_visible c b : bd_visible (bd_set_closable c b) = bd_visible b;
  bd_set_closable_esc c b : bd_closeOnEsc (bd_set_closable c b) = c
}.

(** A backdrop that keeps its visibility and its two flags. *)
Record SimpleBackdrop := {
  sb_visible : bool;
  sb_closeOnEsc : bool;
  sb_closeOnClick : bool
}.

#[export] Instance SimpleBackdrop_ops : BackdropOps SimpleBackdrop := {|
  bd_visible := sb_visible;
  bd_closeOnEsc := sb_closeOnEsc;
  bd_closeOnClick := sb_closeOnClick;
  bd_show b := {| sb_visible := true; sb_closeOnEsc := sb_closeOnEsc b; sb_closeOnClick := sb_closeOnClick b |};
  bd_hide b := ({| sb_visible := false; sb_closeOnEsc := sb_closeOnEsc b; sb_closeOnClick := sb_closeOnClick b |},
                sb_visible b);
  bd_set_closable c b := {| sb_visible := sb_visible b; sb_closeOnEsc := c; sb_closeOnClick := c |}
|}.

#[export] Instance SimpleBackdrop_laws : BackdropLaws SimpleBackdrop.
Proof. split; intros []; reflexivity. Qed.
