(* ===== verification/Lifecycle.v ===== *)
(** * ModalLifecycle: [init], [show], [_show], [hide], [redraw] and the events

    The state of every modal instance ([self.options], [self.createModal],
    [self.$raw], [self.$modal], [self.ajaxXHR], the [active] class of
    [self.$el]) together with what the instances share: the DOM nodes the
    renders create (a store indexed by node id, so that an instance's
    [self.$modal] is a reference into it), the wrapper and its mounted
    dialogs (the [.modal] children counted by [hide]), the loading
    indicator, the backdrop, the outstanding background requests, the
    trace of events, callbacks and navigations, and the page state that
    [positionModal], [registry.scan] and the [resize] and [load] handlers
    leave.  Every handler of the source is a transformer of this world,
    the click handlers [render] binds on a dialog's button proxies, close
    link and body included; [step] dispatches the events a page delivers,
    and [reachable] is the closure of [step]. *)

From stdpp Require Import base list sets gmap strings.
From Stdlib Require Import QArith String ZArith.
From S2P Require Import Prelude Position Config Actions Template Backdrop.

Local Open Scope modal_scope.
Local Open Scope string_scope.
Local Open Scope list_scope.
Local Set Warnings "-clear-no-such-hyp".

Module Lifecycle.
Import Config Actions.

(** A dialog node created by [render]: the instance whose [render] built
    it, its HTML (the rendered template after [render]'s DOM edits), the
    actions [form] bound in it, its original buttons (each hidden behind a
    proxy in the footer, and whether [form] bound its action, which it
    does in the body only), whether it has a close link, and whether it
    carries the class [active]. *)
Record Node := {
  node_owner : nat;
  node_raw : string;
  node_actions : list (string * ActionUserOpts);
  node_buttons : list (Elem * bool);
  node_close : bool;
  node_active : bool
}.

(** What an outstanding request will do when it completes: the creation
    request of [createAjaxModal], or an action's request. *)
Inductive PendingKind :=
| PCreate
| PAction (ao : ActionOpts) (k : ReqKind).

Record Pending := {
  p_id : nat;
  p_inst : nat;
  p_kind : PendingKind
}.

(** The fields of one modal instance. *)
Record Inst := {
  options : Options;
  el_outer_html : string;       (** [self.$el.clone()] *)
  el_active : bool;             (** [self.$el] has the class [active] *)
  createModal : Strategy;       (** [self.createModal] *)
  raw : option string;          (** [self.$raw] *)
  modal : option nat;           (** [self.$modal], a reference to a node *)
  ajaxXHR : option nat          (** [self.ajaxXHR] *)
}.

(** What the page records: events triggered by instance [i], user
    callbacks, [console.log], navigations and reloads of [window.parent]. *)
Inductive LogEntry :=
| LEvent (i : nat) (name : string)
| LCallback (i : nat) (c : Callback)
| LConsole
| LNavigate (url : option string)
| LReload
| LDom (n : nat) (name : string).

(** What the page keeps for the PositionEngine, the window and the
    behaviour registry: the style [positionModal] last wrote on each
    dialog node, the height it gave the wrapper, the instances whose
    handler is bound to [resize.modal.patterns] on [window.parent], the
    image [load] handlers ([_show] binds them on the images of a node, for
    an instance), the nodes passed to [registry.scan], and the nodes whose
    images have finished loading; [viewport] is the size of
    [window.parent]. *)
Record Viewport := {
  vp_width : Q;
  vp_height : Q
}.

Record Page := {
  viewport : Viewport;
  placements : gmap nat Position.Placement;
  page_wrapper_height : option Q;
  resize_bound : list nat;
  img_bound : list (nat * nat);
  scanned : list nat;
  loaded : list nat
}.

Definition empty_page (vp : Viewport) : Page := Build_Page vp ∅ None [] [] [] [].

(** [positionModal] wrote [pl] on node [n]; the wrapper's height only when
    it computed one. *)
Definition page_place (n : nat) (pl : Position.Placement) (p : Page) : Page :=
  Build_Page (viewport p) (<[n := pl]> (placements p))
    (match Position.wrapper_height pl with Some h => Some h | None => page_wrapper_height p end)
    (resize_bound p) (img_bound p) (scanned p) (loaded p).

(** [$(window.parent).on('resize.modal.patterns', ...)] *)
Definition page_bind_resize (i : nat) (p : Page) : Page :=
  Build_Page (viewport p) (placements p) (page_wrapper_height p) (resize_bound p ++ [i]) (img_bound p) (scanned p) (loaded p).

(** [$(window.parent).off('resize.modal.patterns')]: every handler of the
    namespace, whichever instance bound it. *)
Definition page_unbind_resize (p : Page) : Page :=
  Build_Page (viewport p) (placements p) (page_wrapper_height p) [] (img_bound p) (scanned p) (loaded p).

(** [$('img', self.$modal).load(...)] *)
Definition page_bind_img (i n : nat) (p : Page) : Page :=
  Build_Page (viewport p) (placements p) (page_wrapper_height p) (resize_bound p) (img_bound p ++ [(i, n)]) (scanned p) (loaded p).

(** [registry.scan(self.$modal)] *)
Definition page_scan (n : nat) (p : Page) : Page :=
  Build_Page (viewport p) (placements p) (page_wrapper_height p) (resize_bound p) (img_bound p) (scanned p ++ [n]) (loaded p).

(** The window was resized to [vp]. *)
Definition page_resize (vp : Viewport) (p : Page) : Page :=
  Build_Page vp (placements p) (page_wrapper_height p) (resize_bound p) (img_bound p) (scanned p) (loaded p).

(** The images of node [n] have loaded. *)
Definition page_load (n : nat) (p : Page) : Page :=
  Build_Page (viewport p) (placements p) (page_wrapper_height p) (resize_bound p) (img_bound p) (scanned p) (loaded p ++ [n]).

Section World.
Context {B : Type} `{BackdropOps B}.

Record World := {
  insts : list Inst;
  nodes : gmap nat Node;
  mounted : list nat;            (** the dialogs inside [$wrapperInner], in order *)
  wrapper_shown : bool;
  loading_shown : bool;
  overflow_hidden : bool;        (** [$wrapper.parent().css('overflow')] *)
  backdrop : B;
  pending : list Pending;
  next_id : nat;
  log : list LogEntry;
  page : Page
}.

(** ** Field updates *)

Definition set_insts l w := Build_World l (nodes w) (mounted w) (wrapper_shown w) (loading_shown w)
  (overflow_hidden w) (backdrop w) (pending w) (next_id w) (log w) (page w).
Definition set_nodes n w := Build_World (insts w) n (mounted w) (wrapper_shown w) (loading_shown w)
  (overflow_hidden w) (backdrop w) (pending w) (next_id w) (log w) (page w).
Definition set_mounted m w := Build_World (insts w) (nodes w) m (wrapper_shown w) (loading_shown w)
  (overflow_hidden w) (backdrop w) (pending w) (next_id w) (log w) (page w).
Definition set_wrapper b w := Build_World (insts w) (nodes w) (mounted w) b (loading_shown w)
  (overflow_hidden w) (backdrop w) (pending w) (next_id w) (log w) (page w).
Definition set_loading b w := Build_World (insts w) (nodes w) (mounted w) (wrapper_shown w) b
  (overflow_hidden w) (backdrop w) (pending w) (next_id w) (log w) (page w).
Definition set_overflow b w := Build_World (insts w) (nodes w) (mounted w) (wrapper_shown w)
  (loading_shown w) b (backdrop w) (pending w) (next_id w) (log w) (page w).
Definition set_backdrop b w := Build_World (insts w) (nodes w) (mounted w) (wrapper_shown w)
  (loading_shown w) (overflow_hidden w) b (pending w) (next_id w) (log w) (page w).
Definition set_pending p w := Build_World (insts w) (nodes w) (mounted w) (wrapper_shown w)
  (loading_shown w) (overflow_hidden w) (backdrop w) p (next_id w) (log w) (page w).
Definition set_next n w := Build_World (insts w) (nodes w) (mounted w) (wrapper_shown w)
  (loading_shown w) (overflow_hidden w) (backdrop w) (pending w) n (log w) (page w).
Definition push_log e w := Build_World (insts w) (nodes w) (mounted w) (wrapper_shown w)
  (loading_shown w) (overflow_hidden w) (backdrop w) (pending w) (next_id w) (log w ++ [e]) (page w).

Definition upd_page (f : Page -> Page) w := Build_World (insts w) (nodes w) (mounted w) (wrapper_shown w)
  (loading_shown w) (overflow_hidden w) (backdrop w) (pending w) (next_id w) (log w) (f (page w)).

Definition upd_inst (i : nat) (f : Inst -> Inst) (w : World) : World :=
  set_insts (alter f i (insts w)) w.

Definition with_options (o : Options) (x : Inst) : Inst :=
  Build_Inst o (el_outer_html x) (el_active x) (createModal x) (raw x) (modal x) (ajaxXHR x).
Definition with_el_active (b : bool) (x : Inst) : Inst :=
  Build_Inst (options x) (el_outer_html x) b (createModal x) (raw x) (modal x) (ajaxXHR x).
Definition with_create (s : Strategy) (x : Inst) : Inst :=
  Build_Inst (options x) (el_outer_html x) (el_active x) s (raw x) (modal x) (ajaxXHR x).
Definition with_raw (r : option string) (x : Inst) : Inst :=
  Build_Inst (options x) (el_outer_html x) (el_active x) (createModal x) r (modal x) (ajaxXHR x).
Definition with_modal (m : option nat) (x : Inst) : Inst :=
  Build_Inst (options x) (el_outer_html x) (el_active x) (createModal x) (raw x) m (ajaxXHR x).
Definition with_xhr (r : option nat) (x : Inst) : Inst :=
  Build_Inst (options x) (el_outer_html x) (el_active x) (createModal x) (raw x) (modal x) r.

Definition inst_at (w : World) (i : nat) : option Inst := insts w !! i.

(** [self.trigger(name)]. *)
Definition trigger (i : nat) (name : string) (w : World) : World := push_log (LEvent i name) w.

(** ** Primitive operations on the shared DOM *)

(** [$node.remove()]: the node leaves the wrapper; it stays in the store,
    and [self.$modal] still refers to it. *)
Definition unmount (n : nat) (w : World) : World :=
  set_mounted (filter (fun m => m <> n) (mounted w)) w.

(** [$node.addClass('active')]. *)
Definition activate (n : nat) (w : World) : World :=
  set_nodes (alter (fun x => Build_Node (node_owner x) (node_raw x) (node_actions x) (node_buttons x)
                                 (node_close x) true) n (nodes w)) w.

(** The instance's [self.$modal] refers to a node with the class [active]
    (the test of the backdrop's ["hidden"] handler, 448-452). *)
Definition modal_active (w : World) (j : nat) : bool :=
  match inst_at w j ≫= modal with
  | Some n => match nodes w !! n with Some x => node_active x | None => false end
  | None => false
  end.

(** [showLoading(closable)] (520-536). *)
Definition showLoading (closable : bool) (w : World) : World :=
  let w := set_backdrop (bd_set_closable closable (backdrop w)) w in
  let w := set_overflow true w in
  let w := set_wrapper true w in
  let w := set_backdrop (bd_show (backdrop w)) w in
  set_loading true w.

(** [if (self.ajaxXHR) { self.ajaxXHR.abort(); }] (743-745): the request
    is cancelled; [createAjaxModal] registered no [fail] callback, so
    nothing else runs, and [self.ajaxXHR] keeps its value. *)
Definition abort_xhr (i : nat) (w : World) : World :=
  match inst_at w i ≫= ajaxXHR with
  | Some r => set_pending (filter (fun p => p_id p <> r) (pending w)) w
  | None => w
  end.

(** Issue a request for instance [i]: it gets the next id. *)
Definition issue (i : nat) (k : PendingKind) (w : World) : World :=
  let r := next_id w in
  set_next (S r) (set_pending (pending w ++ [Build_Pending r i k]) w).

(** [upd_inst] changes the instance it names and no other. *)
Lemma inst_at_upd_eq i f (w : World) : inst_at (upd_inst i f w) i = f <$> inst_at w i.
Proof. apply list_lookup_alter_eq. Qed.

Lemma inst_at_upd_ne i j f (w : World) : i <> j -> inst_at (upd_inst i f w) j = inst_at w j.
Proof. apply list_lookup_alter_ne. Qed.

End World.

Arguments World B : clear implicits.

(** The page around the pattern: [utils.parseBodyTag], the HTML of the
    element a [target] selector finds ([$(self.options.target).clone()]),
    the size of the window when the page loads, and the layout engine:
    [measure vp html loaded] is what [positionModal] reads
    ([outerWidth], [width], [parent().is('body')], [height]) for a dialog
    rendered as [html], in a window of size [vp], once its images have
    loaded or not. *)
Class PageEnv := {
  parseBodyTag : string -> string;
  page_html : string -> string;
  viewport0 : Viewport;
  measure : Viewport -> string -> bool -> Position.Geometry
}.

Section Operations.
Context {B : Type} `{BackdropOps B} {hq : HtmlQuery} {env : PageEnv}.

(** The node [render] builds for instance [i] from the fragment [r]
    (304-367): the template's HTML with the buttons relocated and [.row]
    cleaned, the original buttons, and the close link. *)
Definition new_node (i : nat) (o : Options) (r : string) (acts : list (string * ActionUserOpts)) : Node :=
  let html0 := Template.dialog_html o r in
  let html := Template.cleaned_html o html0 in
  Build_Node i html acts
    ((fun el => (el, bool_decide (el ∈ Template.body_elems o (buttons o) html))) <$>
       Template.dialog_buttons o html0)
    (Template.close_link html) false.

(** [options.render], the default of [defaults] (296-403): a new node
    ([new_node]), built from [self.$raw], becomes [self.$modal]; [form]
    writes [options.actions] (the shared object) and binds its actions in
    the node; the node is appended to [$wrapperInner].  Without
    [self.$raw] it returns early (300-302). *)
Definition default_render (i : nat) (w : World B) : World B :=
  let w := trigger i "before-render" w in
  match inst_at w i with
  | None => w
  | Some x =>
      match raw x with
      | None => w
      | Some r =>
          let n := next_id w in
          let acts := form_actions (options x) in
          let w := set_next (S n) (set_nodes (<[n := new_node i (options x) r acts]> (nodes w)) w) in
          let w := upd_inst i (with_modal (Some n)) w in
          let w := trigger i "before-events-setup" w in
          let w := upd_inst i (fun x => with_options (set_actions (options x) acts) x) w in
          let w := set_mounted (mounted w ++ [n]) w in
          trigger i "after-render" w
      end
  end.

(** [render] (710-715): the events ["render"] and ["rendered"] around
    [options.render]. *)
Definition render (i : nat) (w : World B) : World B :=
  let w := trigger i "render" w in
  let w := default_render i w in
  trigger i "rendered" w.

(** [positionModal] (669-709) of instance [i], on its [self.$modal] as
    [measure] lays it out now; the style and the wrapper's height go to
    the page.  It returns first when [self.$modal] is unset. *)
Definition position_modal (i : nat) (w : World B) : World B :=
  match inst_at w i with
  | None => w
  | Some x =>
      match modal x with
      | None => w
      | Some n =>
          match nodes w !! n with
          | None => w
          | Some nd =>
              let g := measure (viewport (page w)) (node_raw nd) (bool_decide (n ∈ loaded (page w))) in
              match Position.positionModal true (posOptions (options x)) g with
              | Some pl => upd_page (page_place n pl) w
              | None => w
              end
          end
      end
  end.

(** [_show] (720-740).  When [self.$modal] is undefined,
    [self.$modal.addClass(...)] throws and the rest does not run. *)
Definition _show (i : nat) (w : World B) : World B :=
  let w := render i w in
  let w := trigger i "show" w in
  let w := set_backdrop (bd_show (backdrop w)) w in
  let w := set_wrapper true w in
  let w := set_loading false w in
  let w := set_overflow true w in
  let w := upd_inst i (with_el_active true) w in
  match inst_at w i ≫= modal with
  | None => w
  | Some n =>
      let w := activate n w in
      let w := upd_page (page_scan n) w in
      let w := position_modal i w in
      let w := upd_page (page_bind_img i n) w in
      let w := upd_page (page_bind_resize i) w in
      trigger i "shown" w
  end.

(** [createAjaxModal] (537-551): the request is issued; [self.ajaxXHR]
    is overwritten with it. *)
Definition createAjaxModal (i : nat) (w : World B) : World B :=
  let w := trigger i "before-ajax" w in
  let w := showLoading true w in
  let r := next_id w in
  let w := issue i PCreate w in
  upd_inst i (with_xhr (Some r)) w.

(** The [done] callback of the creation request (544-550). *)
Definition ajax_done (i : nat) (response : string) (w : World B) : World B :=
  let w := upd_inst i (with_xhr None) w in
  let w := set_loading false w in
  let w := upd_inst i (with_raw (Some (parseBodyTag response))) w in
  let w := trigger i "after-ajax" w in
  _show i w.

(** [createTargetModal], [createHtmlModal], [createBasicModal] (552-567). *)
Definition createTargetModal (i : nat) (w : World B) : World B :=
  match inst_at w i with
  | Some x => _show i (upd_inst i (with_raw (Some (page_html (default "" (target (options x)))))) w)
  | None => w
  end.

Definition createHtmlModal (i : nat) (w : World B) : World B :=
  match inst_at w i with
  | Some x => _show i (upd_inst i (with_raw (Some (default "" (html (options x))))) w)
  | None => w
  end.

Definition createBasicModal (i : nat) (w : World B) : World B :=
  match inst_at w i with
  | Some x => _show i (upd_inst i (with_raw (Some (el_outer_html x))) w)
  | None => w
  end.

(** [show] (716-719): [self.createModal()]. *)
Definition show (i : nat) (w : World B) : World B :=
  match inst_at w i with
  | None => w
  | Some x =>
      match createModal x with
      | CreateAjax => createAjaxModal i w
      | CreateTarget => createTargetModal i w
      | CreateHtml => createHtmlModal i w
      | CreateBasic => createBasicModal i w
      end
  end.

(** The backdrop's ["hidden"] handlers of all instances, in the order they
    were registered (448-452): an instance whose [self.$modal] is [active]
    hides itself. *)
Definition hidden_handlers (h : nat -> World B -> World B) (w : World B) : World B :=
  fold_left (fun w j => if modal_active w j then h j w else w) (seq 0 (List.length (insts w))) w.

(** [self.backdrop.hide()], and the handlers when it fires ["hidden"]. *)
Definition backdrop_hide (h : nat -> World B -> World B) (w : World B) : World B :=
  let '(b, fired) := bd_hide (backdrop w) in
  let w := set_backdrop b w in
  if fired then hidden_handlers h w else w.

(** [hide] (741-760), with [h] the [hide] the backdrop's ["hidden"]
    handlers call. *)
Definition hide_body (h : nat -> World B -> World B) (i : nat) (w : World B) : World B :=
  let w := abort_xhr i w in
  let w := trigger i "hide" w in
  let w := if bool_decide (List.length (mounted w) < 2)%nat
           then set_overflow false (set_wrapper false (backdrop_hide h w))
           else w in
  let w := set_loading false w in
  let w := upd_inst i (with_el_active false) w in
  let w := match inst_at w i ≫= modal with
           | Some n => upd_inst i (fun x => with_create (initModal (options x)) x) (unmount n w)
           | None => w
           end in
  let w := upd_page page_unbind_resize w in
  trigger i "hidden" w.

(** [backdrop.hide()] fires ["hidden"], whose handlers call [hide] again:
    [fuel] bounds that nesting (two levels are reached, see
    [hide_fuel_enough]). *)
Fixpoint hide (fuel : nat) (i : nat) (w : World B) : World B :=
  match fuel with
  | O => w
  | S f => hide_body (hide f) i w
  end.

(** [redraw] (761-770).  When [self.$modal] is undefined,
    [self.$modal.remove()] throws. *)
Definition redraw (i : nat) (response : string) (w : World B) : World B :=
  let w := trigger i "beforeDraw" w in
  match inst_at w i ≫= modal with
  | None => w
  | Some n =>
      let w := unmount n w in
      let w := upd_inst i (with_raw (Some (parseBodyTag response))) w in
      let w := render i w in
      let w := position_modal i w in
      let w := match inst_at w i ≫= modal with
               | Some m => upd_page (page_scan m) w
               | None => w
               end in
      trigger i "afterDraw" w
  end.

(** The nesting bound used by the events. *)
Definition hide_fuel : nat := 2.

(** One effect of an action handler, performed by instance [i]. *)
Definition run_effect (i : nat) (ao : ActionOpts) (e : Effect) (w : World B) : World B :=
  match e with
  | EPreventDefault | EFormSubmitEvent | EThrow => w
  | EShowLoading c => showLoading c w
  | ECallModalFunction f =>
      if String.eqb f "hide" then hide hide_fuel i w
      else if String.eqb f "show" then show i w else w
  | ERequest r => issue i (PAction ao (req_kind r)) w
  | ENavigate u => push_log (LNavigate u) w
  | ECallback c => push_log (LCallback i c) w
  | ELog => push_log LConsole w
  | ERedraw resp => redraw i resp w
  | EDestroy => hide hide_fuel i w
  | EReload => push_log LReload w
  | EHideLoading => set_loading false w
  | ETrigger ev => trigger i ev w
  end.

(** The effects in order; an exception ends the callback. *)
Fixpoint run_effects (i : nat) (ao : ActionOpts) (es : list Effect) (w : World B) : World B :=
  match es with
  | [] => w
  | EThrow :: _ => w
  | e :: es => run_effects i ao es (run_effect i ao e w)
  end.

(** [positionModal] writes one placement or does nothing. *)
Lemma position_modal_cases i (w : World B) :
  position_modal i w = w \/
  exists x n pl, inst_at w i = Some x /\ modal x = Some n /\ position_modal i w = upd_page (page_place n pl) w.
Proof. unfold position_modal. repeat case_match; try (left; reflexivity). right. by eexists _, _, _. Qed.

(** It changes the page and nothing else. *)
Lemma position_modal_upd i (w : World B) : exists f, position_modal i w = upd_page f w.
Proof.
  destruct (position_modal_cases i w) as [->|(x & n & pl & _ & _ & ->)]; [exists id; by destruct w|by eexists].
Qed.

(** So a reflexive relation that every placement satisfies holds of it. *)
Lemma position_modal_preserved (R : World B -> World B -> Prop) `{!Reflexive R} i (w : World B) :
  (forall n pl, R w (upd_page (page_place n pl) w)) -> R w (position_modal i w).
Proof. intros HR. destruct (position_modal_cases i w) as [->|(x & n & pl & _ & _ & ->)]; [reflexivity|apply HR]. Qed.

End Operations.

(** [positionModal] is evaluated by [measure]; [simpl] leaves it folded,
    and [elim_position_modal] replaces it by the page update it is. *)
Arguments position_modal : simpl never.

Ltac elim_position_modal :=
  repeat match goal with
  | |- context [position_modal ?i ?w] =>
      let f := fresh "f" in destruct (position_modal_upd i w) as [f ->]
  end.

(** The events a page delivers to the pattern. *)
Inductive Event :=
| EvShow (i : nat)                           (** a trigger, the router, or [show()] *)
| EvHide (i : nat)                           (** [hide()], or [destroy.modal.patterns] on a dialog *)
| EvEscape                                   (** [keydown] with [keyCode] 27 *)
| EvWrapperClick                             (** a click on the wrapper around the dialogs *)
| EvAction (i : nat) (key : string) (el : Elem) (** an action element of [i]'s dialog fires *)
| EvRespond (r : nat) (o : Outcome)          (** the outstanding request [r] completes *)
| EvResize (vp : Viewport)                   (** [window.parent] is resized *)
| EvImageLoad (n : nat)                      (** the images of node [n] finish loading *)
| EvProxyClick (n k : nat)                   (** a click on the [k]-th button proxy of dialog [n] *)
| EvCloseClick (n : nat)                     (** a click on the close link of dialog [n] *)
| EvDialogClick (n : nat).                   (** any other click inside dialog [n] *)

Section Step.
Context {B : Type} `{BackdropOps B} {hq : HtmlQuery} {env : PageEnv}.

(** The keydown handlers: the backdrop's own, then each instance's (454-462). *)
Definition on_escape (w : World B) : World B :=
  let w := if bd_closeOnEsc (backdrop w) then backdrop_hide (hide hide_fuel) w else w in
  fold_left (fun w j =>
      match inst_at w j with
      | Some x => if closeOnEsc (options x) && el_active x then hide hide_fuel j w else w
      | None => w
      end) (seq 0 (List.length (insts w))) w.

(** The click handler of the wrapper (432-438), installed by the instance
    that created the wrapper, the first one. *)
Definition on_wrapper_click (w : World B) : World B :=
  match insts w with
  | x :: _ => if closeOnClick (options x) then backdrop_hide (hide hide_fuel) w else w
  | [] => w
  end.

(** An action handler bound by [form] in the node of instance [i]. *)
Definition on_action (i : nat) (key : string) (el : Elem) (w : World B) : World B :=
  match inst_at w i with
  | Some x =>
      match modal x with
      | Some n =>
          if bool_decide (n ∈ mounted w) then
            match nodes w !! n ≫= (fun nd => js_obj_get key (node_actions nd)) with
            | Some u =>
                let ao := merge_action_opts (actionOptions (options x)) u in
                run_effects i ao (action_handler ao u el) w
            | None => w
            end
          else w
      | None => w
      end
  | None => w
  end.

(** The completion of the outstanding request [r]. *)
Definition on_response (r : nat) (o : Outcome) (w : World B) : World B :=
  match list_find (fun p => p_id p = r) (pending w) with
  | Some (_, p) =>
      let w := set_pending (filter (fun q => p_id q <> r) (pending w)) w in
      match p_kind p with
      | PCreate => match o with Success resp => ajax_done (p_inst p) resp w | Failure _ => w end
      | PAction ao k => run_effects (p_inst p) ao (complete ao k o) w
      end
  | None => w
  end.

(** The [resize] handlers of [window.parent], in the order they were
    bound: every instance's from [init] (485-487), never removed, then the
    ones [_show] bound in [resize.modal.patterns] (736-738). *)
Definition on_resize (vp : Viewport) (w : World B) : World B :=
  let w := upd_page (page_resize vp) w in
  let w := fold_left (fun w j => position_modal j w) (seq 0 (List.length (insts w))) w in
  fold_left (fun w j => position_modal j w) (resize_bound (page w)) w.

(** The [load] handlers [_show] bound on the images of node [n]
    (733-735): each repositions the instance that bound it. *)
Definition on_image_load (n : nat) (w : World B) : World B :=
  let w := upd_page (page_load n) w in
  fold_left (fun w '(j, m) => if decide (m = n) then position_modal j w else w) (img_bound (page w)) w.

(** Whether [form] bound a [click] handler under [options.buttons] in
    node [nd]: the action's [eventType] (143) after merging. *)
Definition proxy_forwards (x : Inst) (nd : Node) : bool :=
  match js_obj_get (buttons (options x)) (node_actions nd) with
  | Some u => String.eqb (eventType (merge_action_opts (actionOptions (options x)) u)) "click"
  | None => false
  end.

(** The proxy of a relocated button (349-353) triggers [click] on the
    original, whose handlers run in the order they were bound: [render]'s
    own (345-348, which only stops the event) and, when [form] bound one
    for [click], the action handler of [options.buttons] (143-160), run
    by the dialog's instance. *)
Definition on_proxy_click (n k : nat) (w : World B) : World B :=
  match nodes w !! n with
  | Some nd =>
      if bool_decide (n ∈ mounted w) then
        match node_buttons nd !! k, inst_at w (node_owner nd) with
        | Some (el, true), Some x =>
            if proxy_forwards x nd then on_action (node_owner nd) (buttons (options x)) el w else w
        | _, _ => w
        end
      else w
  | None => w
  end.

(** The close link's handler (361-367) triggers [destroy.modal.patterns],
    which bubbles to the dialog, whose handler (386-389) calls [hide] of
    the instance that rendered it. *)
Definition on_close_click (n : nat) (w : World B) : World B :=
  match nodes w !! n with
  | Some nd => if bool_decide (n ∈ mounted w) && node_close nd then hide hide_fuel (node_owner nd) w else w
  | None => w
  end.

(** The dialog's own [click] handler (375-385) triggers [modal-click] on
    it. *)
Definition on_dialog_click (n : nat) (w : World B) : World B :=
  if bool_decide (n ∈ mounted w) then push_log (LDom n "modal-click") w else w.

Definition step (e : Event) (w : World B) : World B :=
  match e with
  | EvShow i => show i w
  | EvHide i => hide hide_fuel i w
  | EvEscape => on_escape w
  | EvWrapperClick => on_wrapper_click w
  | EvAction i key el => on_action i key el w
  | EvRespond r o => on_response r o w
  | EvResize vp => on_resize vp w
  | EvImageLoad n => on_image_load n w
  | EvProxyClick n k => on_proxy_click n k w
  | EvCloseClick n => on_close_click n w
  | EvDialogClick n => on_dialog_click n w
  end.

(** What [init] (407-519) starts from: the instance's options and its
    trigger element. *)
Record InstConfig := {
  ic_options : Options;
  ic_el : ElInfo;
  ic_el_html : string
}.

Definition init_inst (c : InstConfig) : Inst :=
  let o := init_link_options (ic_el c) (ic_options c) in
  Build_Inst o (ic_el_html c) false (initModal o) None None None.

(** The page after every instance ran [init]: the wrapper and the loading
    indicator exist and are hidden, nothing is pending. *)
Definition init_world (cs : list InstConfig) (b0 : B) : World B :=
  Build_World (map init_inst cs) ∅ [] false false false b0 [] 0 [] (empty_page viewport0).

Inductive reachable (cs : list InstConfig) (b0 : B) : World B -> Prop :=
| reachable_init : reachable cs b0 (init_world cs b0)
| reachable_step w e : reachable cs b0 w -> reachable cs b0 (step e w).

End Step.

(** ** Termination of the nested [hide] calls *)

Section Fuel.
Context {B : Type} `{BackdropLaws B} {hq : HtmlQuery} {env : PageEnv}.

Lemma abort_xhr_backdrop i (w : World B) : backdrop (abort_xhr i w) = backdrop w.
Proof. unfold abort_xhr. by case_match. Qed.

Lemma upd_inst_backdrop i f (w : World B) : backdrop (upd_inst i f w) = backdrop w.
Proof. reflexivity. Qed.

(** On a hidden backdrop, [backdrop.hide()] fires nothing. *)
Lemma backdrop_hide_quiet h (w : World B) :
  bd_visible (backdrop w) = false -> backdrop_hide h w = set_backdrop (bd_hide (backdrop w)).1 w.
Proof.
  intros Hv. unfold backdrop_hide. pose proof (bd_hide_fires (backdrop w)) as Hf.
  destruct (bd_hide (backdrop w)) as [b fired]. simpl in *. by rewrite Hf, Hv.
Qed.

Lemma hidden_handlers_fold (h1 h2 : nat -> World B -> World B) (l : list nat) (w : World B) :
  (forall j w, bd_visible (backdrop w) = false -> h1 j w = h2 j w /\ bd_visible (backdrop (h1 j w)) = false) ->
  bd_visible (backdrop w) = false ->
  fold_left (fun w j => if modal_active w j then h1 j w else w) l w =
  fold_left (fun w j => if modal_active w j then h2 j w else w) l w /\
  bd_visible (backdrop (fold_left (fun w j => if modal_active w j then h1 j w else w) l w)) = false.
Proof.
  intros Hh. revert w. induction l as [|j l IH]; intros w Hv; simpl; [done|].
  destruct (modal_active w j); [|by apply IH].
  destruct (Hh j w Hv) as [Heq Hv']. rewrite <- Heq. by apply IH.
Qed.

(** One level of [hide] depends on the nested [hide] only through the
    backdrop's ["hidden"] handlers. *)
Lemma hide_body_ext h1 h2 i (w : World B) :
  backdrop_hide h1 (trigger i "hide" (abort_xhr i w)) = backdrop_hide h2 (trigger i "hide" (abort_xhr i w)) ->
  hide_body h1 i w = hide_body h2 i w.
Proof. intros Heq. unfold hide_body. by rewrite Heq. Qed.

(** [hide] leaves a hidden backdrop hidden, and then does not depend on
    its fuel beyond the first level. *)
Lemma hide_quiet f g i (w : World B) :
  bd_visible (backdrop w) = false ->
  hide (S f) i w = hide (S g) i w /\ bd_visible (backdrop (hide (S f) i w)) = false.
Proof.
  intros Hv. cbn [hide].
  assert (Hv1 : bd_visible (backdrop (trigger i "hide" (abort_xhr i w))) = false)
    by (simpl; by rewrite abort_xhr_backdrop).
  split; [apply hide_body_ext; by rewrite !backdrop_hide_quiet|].
  unfold hide_body. rewrite backdrop_hide_quiet by done.
  case_bool_decide; simpl; [|case_match; simpl; done].
  case_match; simpl; by rewrite ?bd_hide_invisible.
Qed.

(** C3. The nested calls to [hide] through the backdrop's ["hidden"]
    event stop at the second level: with any fuel of at least two, [hide]
    computes the same world as with two.  The first [backdrop.hide()]
    hides the backdrop, so the [hide] calls it triggers cannot fire it
    again. *)
Theorem hide_fuel_enough n i (w : World B) : (2 <= n)%nat -> hide n i w = hide hide_fuel i w.
Proof.
  intros Hn. destruct n as [|[|m]]; [lia|lia|]. unfold hide_fuel.
  change (hide_body (hide (S m)) i w = hide_body (hide 1) i w).
  apply hide_body_ext. unfold backdrop_hide.
  pose proof (bd_hide_invisible (backdrop (trigger i "hide" (abort_xhr i w)))) as Hi.
  destruct (bd_hide _) as [b fired]. simpl in Hi.
  destruct fired; [|done]. unfold hidden_handlers.
  apply hidden_handlers_fold; [|done]. intros j w' Hv'. by apply hide_quiet.
Qed.

End Fuel.

(** ** Sample page, used to run the theorems on examples *)

(** A dialog as wide as its text and half as tall; a loaded image adds
    200 to its height. *)
Definition sample_measure (vp : Viewport) (html : string) (img : bool) : Position.Geometry := {|
  Position.modalOuterWidth := inject_Z (Z.of_nat (String.length html));
  Position.modalOuterHeight := inject_Z (Z.of_nat (String.length html)) / 2 + (if img then 200 else 0);
  Position.wrapperInnerWidth := vp_width vp; Position.wrapperInnerHeight := vp_height vp;
  Position.wrapperParentIsBody := true; Position.windowHeight := vp_height vp |}%Q.

Definition sample_env : PageEnv :=
  {| parseBodyTag := fun s => s; page_html := fun sel => "<div>" ++ sel ++ "</div>";
     viewport0 := {| vp_width := 1024; vp_height := 768 |};
     measure := sample_measure |}%string.

Definition sample_backdrop : SimpleBackdrop :=
  {| sb_visible := false; sb_closeOnEsc := true; sb_closeOnClick := true |}.

(** An instance whose trigger is a link to a remote page, and one whose
    trigger is a link to an in-page fragment. *)
Definition remote_link : InstConfig := {|
  ic_options := default_options (fun _ => None);
  ic_el := {| el_is_a := true; el_href := Some "/login" |};
  ic_el_html := "<a href=/login>" |}.

Definition inline_link : InstConfig := {|
  ic_options := default_options (fun _ => None);
  ic_el := {| el_is_a := true; el_href := Some "#details" |};
  ic_el_html := "<a href=#details>" |}.

Definition sample_world : World SimpleBackdrop := init_world (env := sample_env) [remote_link; inline_link] sample_backdrop.

Lemma hide_fuel_enough_witness :
  hide 5 1 (step (hq := literal_query) (env := sample_env) (EvShow 1) sample_world) =
  hide hide_fuel 1 (step (hq := literal_query) (env := sample_env) (EvShow 1) sample_world).
Proof. apply hide_fuel_enough. lia. Defined.

(** The events in order, on the sample page. *)
Definition run (es : list Event) (w : World SimpleBackdrop) : World SimpleBackdrop :=
  fold_left (fun w e => step (hq := literal_query) (env := sample_env) e w) es w.

End Lifecycle.
