(* ===== verification/Invariants.v ===== *)
(** * Invariants of the lifecycle

    Two preorders on worlds carry the invariants of [Lifecycle]:
    - [evolves]: every instance keeps the content sources of its options
      ([ajaxUrl], [target], [html]) and its [createModal] is either kept or
      re-chosen by [initModal] ([hide] does that);
    - [shrinks] (the frame of [hide]): outstanding requests and mounted
      dialogs are only removed, nodes and instance references untouched.
    Every operation of [Lifecycle] is proved monotone for them by peeling
    the operation's composition one call at a time ([evolve]), with the
    lemmas of the hint database [evolve_db]. *)

From stdpp Require Import base list sets gmap strings.
From Stdlib Require Import QArith String ZArith.
From S2P Require Import Prelude Position Config Actions Backdrop Lifecycle.

Local Open Scope list_scope.
Local Set Warnings "-clear-no-such-hyp".

Create HintDb evolve_db.

Module Invariants.
Import Config Actions Lifecycle.

Definition same_sources (o o' : Options) : Prop :=
  opt_ajaxUrl o' = opt_ajaxUrl o /\ target o' = target o /\ html o' = html o.

Definition inst_evolves (x y : Inst) : Prop :=
  same_sources (options x) (options y) /\
  (createModal y = createModal x \/ createModal y = initModal (options y)).

Lemma initModal_same_sources o o' : same_sources o o' -> initModal o' = initModal o.
Proof. intros (Ha & Ht & Hh). unfold initModal. by rewrite Ha, Ht, Hh. Qed.

#[export] Instance inst_evolves_preorder : PreOrder inst_evolves.
Proof.
  split.
  - intros x. split; [done|by left].
  - intros x y z [(Ha & Ht & Hh) Hxy] [(Ha' & Ht' & Hh') Hyz]. split; [split_and!; congruence|].
    destruct Hyz as [->|Hz]; [|by right].
    destruct Hxy as [->|Hy]; [by left|]. right. rewrite Hy.
    apply initModal_same_sources. split_and!; congruence.
Qed.

Section Evolves.
Context {B : Type} `{BackdropOps B} {hq : HtmlQuery} {env : PageEnv}.

Definition evolves (w w' : World B) : Prop := Forall2 inst_evolves (insts w) (insts w').

#[export] Instance evolves_preorder : PreOrder evolves.
Proof.
  split.
  - intros w. unfold evolves. reflexivity.
  - intros w1 w2 w3. unfold evolves. apply transitivity.
Qed.

Lemma evolves_same_insts (w : World B) (g : World B -> World B) :
  insts (g w) = insts w -> evolves w (g w).
Proof. intros Heq. unfold evolves. rewrite Heq. reflexivity. Qed.

Lemma evolves_upd_inst i f (w : World B) :
  (forall x, inst_evolves x (f x)) -> evolves w (upd_inst i f w).
Proof.
  intros Hf. unfold evolves, upd_inst; simpl.
  apply Forall2_same_length_lookup. split; [by rewrite length_alter|].
  intros j x y Hx. destruct (decide (i = j)) as [->|Hne].
  - rewrite list_lookup_alter_eq, Hx. intros [= <-]. apply Hf.
  - rewrite list_lookup_alter_ne by done. rewrite Hx. intros [= <-]. reflexivity.
Qed.

Lemma set_actions_sources o a : same_sources o (set_actions o a).
Proof. done. Qed.

Lemma inst_evolves_with_options_actions a x :
  inst_evolves x (with_options (set_actions (options x) a) x).
Proof. split; [done|by left]. Qed.

Lemma inst_evolves_keep_options (x y : Inst) :
  options y = options x -> createModal y = createModal x -> inst_evolves x y.
Proof. intros Ho Hc. split; [by rewrite Ho|by left]. Qed.

Lemma inst_evolves_with_create x : inst_evolves x (with_create (initModal (options x)) x).
Proof. split; [done|by right]. Qed.

End Evolves.

#[export] Hint Resolve evolves_upd_inst inst_evolves_with_options_actions
  inst_evolves_with_create : evolve_db.
#[export] Hint Extern 1 (inst_evolves ?x (with_el_active _ ?x)) =>
  apply inst_evolves_keep_options; reflexivity : evolve_db.
#[export] Hint Extern 1 (inst_evolves ?x (with_raw _ ?x)) =>
  apply inst_evolves_keep_options; reflexivity : evolve_db.
#[export] Hint Extern 1 (inst_evolves ?x (with_modal _ ?x)) =>
  apply inst_evolves_keep_options; reflexivity : evolve_db.
#[export] Hint Extern 1 (inst_evolves ?x (with_xhr _ ?x)) =>
  apply inst_evolves_keep_options; reflexivity : evolve_db.
#[export] Hint Extern 1 (forall _, inst_evolves _ _) => intros : evolve_db.

(** The operations that leave every instance as it is.  Each is stated
    on a variable world, so that using it on a large term is a matter of
    unification, not of conversion. *)
Section SameInsts.
Context {B : Type} `{BackdropOps B}.
Lemma insts_set_nodes n (w : World B) : insts (set_nodes n w) = insts w.
Proof. reflexivity. Qed.
Lemma insts_set_mounted m (w : World B) : insts (set_mounted m w) = insts w.
Proof. reflexivity. Qed.
Lemma insts_set_wrapper b (w : World B) : insts (set_wrapper b w) = insts w.
Proof. reflexivity. Qed.
Lemma insts_set_loading b (w : World B) : insts (set_loading b w) = insts w.
Proof. reflexivity. Qed.
Lemma insts_set_overflow b (w : World B) : insts (set_overflow b w) = insts w.
Proof. reflexivity. Qed.
Lemma insts_set_backdrop b (w : World B) : insts (set_backdrop b w) = insts w.
Proof. reflexivity. Qed.
Lemma insts_set_pending p (w : World B) : insts (set_pending p w) = insts w.
Proof. reflexivity. Qed.
Lemma insts_set_next n (w : World B) : insts (set_next n w) = insts w.
Proof. reflexivity. Qed.
Lemma insts_push_log e (w : World B) : insts (push_log e w) = insts w.
Proof. reflexivity. Qed.
Lemma insts_trigger i e (w : World B) : insts (trigger i e w) = insts w.
Proof. reflexivity. Qed.
Lemma insts_unmount n (w : World B) : insts (unmount n w) = insts w.
Proof. reflexivity. Qed.
Lemma insts_activate n (w : World B) : insts (activate n w) = insts w.
Proof. reflexivity. Qed.
Lemma insts_issue i k (w : World B) : insts (issue i k w) = insts w.
Proof. reflexivity. Qed.
Lemma insts_showLoading c (w : World B) : insts (showLoading c w) = insts w.
Proof. reflexivity. Qed.
Lemma insts_abort_xhr i (w : World B) : insts (abort_xhr i w) = insts w.
Proof. unfold abort_xhr. by case_match. Qed.
Lemma insts_upd_page f (w : World B) : insts (upd_page f w) = insts w.
Proof. reflexivity. Qed.
Lemma insts_position_modal `{PageEnv} i (w : World B) : insts (position_modal i w) = insts w.
Proof. by destruct (position_modal_upd i w) as [f ->]. Qed.
End SameInsts.

Ltac insts_head :=
  match goal with
  | |- insts (set_nodes _ _) = _ => apply insts_set_nodes
  | |- insts (set_mounted _ _) = _ => apply insts_set_mounted
  | |- insts (set_wrapper _ _) = _ => apply insts_set_wrapper
  | |- insts (set_loading _ _) = _ => apply insts_set_loading
  | |- insts (set_overflow _ _) = _ => apply insts_set_overflow
  | |- insts (set_backdrop _ _) = _ => apply insts_set_backdrop
  | |- insts (set_pending _ _) = _ => apply insts_set_pending
  | |- insts (set_next _ _) = _ => apply insts_set_next
  | |- insts (push_log _ _) = _ => apply insts_push_log
  | |- insts (trigger _ _ _) = _ => apply insts_trigger
  | |- insts (unmount _ _) = _ => apply insts_unmount
  | |- insts (activate _ _) = _ => apply insts_activate
  | |- insts (issue _ _ _) = _ => apply insts_issue
  | |- insts (showLoading _ _) = _ => apply insts_showLoading
  | |- insts (abort_xhr _ _) = _ => apply insts_abort_xhr
  | |- insts (upd_page _ _) = _ => apply insts_upd_page
  | |- insts (position_modal _ _) = _ => apply insts_position_modal
  end.

#[export] Hint Extern 1 (evolves ?w (_ ?w)) => apply evolves_same_insts; insts_head : evolve_db.

(** Peel an operation: the outermost call is discharged by a lemma of
    [evolve_db], the rest recursively; [match] and [if] are split. *)
Ltac evolve := peel ltac:(eauto 4 with evolve_db).

Section Ops.
Context {B : Type} `{BackdropOps B} {hq : HtmlQuery} {env : PageEnv}.

Lemma fold_evolves {A} (g : World B -> A -> World B) (l : list A) (w : World B) :
  (forall w a, evolves w (g w a)) -> evolves w (fold_left g l w).
Proof.
  intros Hg. revert w. induction l as [|a l IH]; intros w; simpl; [reflexivity|].
  etransitivity; [apply Hg|apply IH].
Qed.

Lemma render_evolves i (w : World B) : evolves w (render i w).
Proof. unfold render, default_render. cbv zeta. evolve. Qed.
#[local] Hint Resolve render_evolves : evolve_db.

Lemma _show_evolves i (w : World B) : evolves w (_show i w).
Proof. unfold _show. cbv zeta. evolve. Qed.
#[local] Hint Resolve _show_evolves : evolve_db.

Lemma show_evolves i (w : World B) : evolves w (show i w).
Proof.
  unfold show, createAjaxModal, createTargetModal, createHtmlModal, createBasicModal.
  cbv zeta. evolve.
Qed.
#[local] Hint Resolve show_evolves : evolve_db.

Lemma ajax_done_evolves i r (w : World B) : evolves w (ajax_done i r w).
Proof. unfold ajax_done. cbv zeta. evolve. Qed.
#[local] Hint Resolve ajax_done_evolves : evolve_db.

Lemma hidden_handlers_evolves (h : nat -> World B -> World B) (w : World B) :
  (forall j w, evolves w (h j w)) -> evolves w (hidden_handlers h w).
Proof. intros Hh. apply fold_evolves. intros w' j. case_match; [apply Hh|reflexivity]. Qed.
#[local] Hint Resolve hidden_handlers_evolves : evolve_db.

Lemma backdrop_hide_evolves (h : nat -> World B -> World B) (w : World B) :
  (forall j w, evolves w (h j w)) -> evolves w (backdrop_hide h w).
Proof. intros Hh. unfold backdrop_hide. evolve. Qed.
#[local] Hint Resolve backdrop_hide_evolves : evolve_db.

Lemma hide_evolves f i (w : World B) : evolves w (hide f i w).
Proof.
  revert i w. induction f as [|f IH]; intros i w; [reflexivity|].
  cbn [hide]. unfold hide_body. cbv zeta. evolve.
Qed.
#[local] Hint Resolve hide_evolves : evolve_db.

Lemma redraw_evolves i r (w : World B) : evolves w (redraw i r w).
Proof. unfold redraw. cbv zeta. evolve. Qed.
#[local] Hint Resolve redraw_evolves : evolve_db.

Lemma run_effects_evolves i ao es (w : World B) : evolves w (run_effects i ao es w).
Proof.
  revert w. induction es as [|e es IH]; intros w; simpl; [reflexivity|].
  destruct e; try (etransitivity; [|apply IH]); unfold run_effect; try reflexivity; evolve.
Qed.
#[local] Hint Resolve run_effects_evolves : evolve_db.

Lemma fold_evolves_after {A} (g : World B -> A -> World B) (l : list A) (w w1 : World B) :
  evolves w w1 -> (forall w a, evolves w (g w a)) -> evolves w (fold_left g l w1).
Proof. intros H1 Hg. etransitivity; [exact H1|by apply fold_evolves]. Qed.

Lemma step_evolves e (w : World B) : evolves w (step e w).
Proof.
  destruct e; unfold step.
  - apply show_evolves.
  - apply hide_evolves.
  - unfold on_escape. cbv zeta. apply fold_evolves_after; [evolve|]. intros w' j. evolve.
  - unfold on_wrapper_click. evolve.
  - unfold on_action. evolve.
  - unfold on_response. cbv zeta. evolve.
  - unfold on_resize. cbv zeta. apply fold_evolves_after; [apply fold_evolves_after; [evolve|]|];
      intros; evolve.
  - unfold on_image_load. cbv zeta. apply fold_evolves_after; [evolve|]. intros w' [j m]. evolve.
  - unfold on_proxy_click, on_action. evolve.
  - unfold on_close_click. evolve.
  - unfold on_dialog_click. evolve.
Qed.

End Ops.

(** ** The frame of [hide] *)

Create HintDb shrink_db.

Definition inst_frame (x y : Inst) : Prop :=
  modal y = modal x /\ ajaxXHR y = ajaxXHR x /\ raw y = raw x /\ options y = options x.

#[export] Instance inst_frame_preorder : PreOrder inst_frame.
Proof.
  split; [intros x; by split_and!|].
  intros x y z (?&?&?&?) (?&?&?&?). split_and!; congruence.
Qed.

Section Shrinks.
Context {B : Type} `{BackdropOps B}.

Definition shrinks (w w' : World B) : Prop :=
  mounted w' ⊆ mounted w /\ pending w' ⊆ pending w /\ nodes w' = nodes w /\
  next_id w' = next_id w /\ Forall2 inst_frame (insts w) (insts w').

#[export] Instance shrinks_preorder : PreOrder shrinks.
Proof.
  split.
  - intros w. split_and!; try done; reflexivity.
  - intros w1 w2 w3 (?&?&?&?&?) (?&?&?&?&?). split_and!; try (etransitivity; eauto); congruence.
Qed.

Lemma filter_subseteq {A} (P : A -> Prop) `{forall x, Decision (P x)} (l : list A) : filter P l ⊆ l.
Proof. intros x. rewrite list_elem_of_filter. naive_solver. Qed.

Lemma shrinks_same (w : World B) (g : World B -> World B) :
  mounted (g w) = mounted w -> pending (g w) = pending w -> nodes (g w) = nodes w ->
  next_id (g w) = next_id w -> insts (g w) = insts w -> shrinks w (g w).
Proof.
  intros H1 H2 H3 H4 H5. unfold shrinks. rewrite H1, H2, H3, H4, H5.
  split_and!; try done; reflexivity.
Qed.

Lemma shrinks_unmount n (w : World B) : shrinks w (unmount n w).
Proof. split_and!; try done. apply filter_subseteq. Qed.

Lemma shrinks_abort_xhr i (w : World B) : shrinks w (abort_xhr i w).
Proof. unfold abort_xhr. case_match; [|reflexivity]. split_and!; try done. apply filter_subseteq. Qed.

Lemma shrinks_upd_inst i f (w : World B) :
  (forall x, inst_frame x (f x)) -> shrinks w (upd_inst i f w).
Proof.
  intros Hf. split_and!; try done. unfold upd_inst; simpl.
  apply Forall2_same_length_lookup. split; [by rewrite length_alter|].
  intros j x y Hx. destruct (decide (i = j)) as [->|Hne].
  - rewrite list_lookup_alter_eq, Hx. intros [= <-]. apply Hf.
  - rewrite list_lookup_alter_ne by done. rewrite Hx. intros [= <-]. reflexivity.
Qed.

Lemma inst_frame_el_active b x : inst_frame x (with_el_active b x).
Proof. by split_and!. Qed.

Lemma inst_frame_create s x : inst_frame x (with_create s x).
Proof. by split_and!. Qed.

Lemma fold_shrinks {A} (g : World B -> A -> World B) (l : list A) (w : World B) :
  (forall w a, shrinks w (g w a)) -> shrinks w (fold_left g l w).
Proof.
  intros Hg. revert w. induction l as [|a l IH]; intros w; simpl; [reflexivity|].
  etransitivity; [apply Hg|apply IH].
Qed.

Lemma shrinks_hidden_handlers (h : nat -> World B -> World B) (w : World B) :
  (forall j w, shrinks w (h j w)) -> shrinks w (hidden_handlers h w).
Proof. intros Hh. apply fold_shrinks. intros w' j. case_match; [apply Hh|reflexivity]. Qed.

End Shrinks.

#[export] Hint Resolve shrinks_unmount shrinks_abort_xhr shrinks_upd_inst inst_frame_el_active
  inst_frame_create shrinks_hidden_handlers : shrink_db.
#[export] Hint Extern 1 (forall _, inst_frame _ _) => intros : shrink_db.
#[export] Hint Extern 2 (shrinks ?w (_ ?w)) =>
  match goal with
  | |- shrinks _ (trigger _ _ _) => apply shrinks_same; reflexivity
  | |- shrinks _ (set_wrapper _ _) => apply shrinks_same; reflexivity
  | |- shrinks _ (set_overflow _ _) => apply shrinks_same; reflexivity
  | |- shrinks _ (set_loading _ _) => apply shrinks_same; reflexivity
  | |- shrinks _ (set_backdrop _ _) => apply shrinks_same; reflexivity
  | |- shrinks _ (upd_page _ _) => apply shrinks_same; reflexivity
  end : shrink_db.

Ltac shrink := peel ltac:(eauto 4 with shrink_db).

Section HideFrame.
Context {B : Type} `{BackdropOps B}.

Lemma shrinks_backdrop_hide (h : nat -> World B -> World B) (w : World B) :
  (forall j w, shrinks w (h j w)) -> shrinks w (backdrop_hide h w).
Proof. intros Hh. unfold backdrop_hide. shrink. Qed.
#[local] Hint Resolve shrinks_backdrop_hide : shrink_db.

(** [hide], with all the [hide]s it triggers, only removes outstanding
    requests and mounted dialogs; it creates no node and changes no
    instance's [$modal], [ajaxXHR], [$raw] or options. *)
Lemma hide_shrinks f i (w : World B) : shrinks w (hide f i w).
Proof.
  revert i w. induction f as [|f IH]; intros i w; [reflexivity|].
  cbn [hide]. unfold hide_body. cbv zeta. shrink.
Qed.

End HideFrame.

Section Strategy.
Context {B : Type} `{BackdropOps B} {hq : HtmlQuery} {env : PageEnv}.

(** The configured options after [init] rewrote them from the trigger link. *)
Definition configured (c : InstConfig) : Options := init_link_options (ic_el c) (ic_options c).

Definition strategy_ok (c : InstConfig) (x : Inst) : Prop :=
  same_sources (configured c) (options x) /\ createModal x = initModal (options x).

Lemma strategy_ok_evolves c x y : strategy_ok c x -> inst_evolves x y -> strategy_ok c y.
Proof.
  intros [(Ha & Ht & Hh) Hc] [(Ha' & Ht' & Hh') [Hy|Hy]]; split; try (split_and!; congruence).
  - rewrite Hy, Hc. symmetry. apply initModal_same_sources. split_and!; congruence.
  - exact Hy.
Qed.

(** C10. In every reachable world the content strategy of each instance is
    the one [initModal] chooses by priority from its configuration (after
    [init] rewrote it from the trigger link): [hide] re-runs [initModal],
    and nothing changes the [ajaxUrl], [target] or [html] options, so a
    [show] after a [hide] acquires the content the same way. *)
Theorem strategy_matches_configuration cs b0 (w : World B) :
  reachable cs b0 w ->
  Forall2 (fun c x => createModal x = initModal (configured c)) cs (insts w).
Proof.
  intros Hr. cut (Forall2 strategy_ok cs (insts w)).
  { intros Hok. eapply Forall2_impl; [exact Hok|]. intros c x [Hs Hc].
    rewrite Hc. by apply initModal_same_sources. }
  induction Hr as [|w e Hr IH].
  - simpl. apply Forall2_fmap_r, Forall_Forall2_diag, Forall_forall. intros c _. done.
  - eapply Forall2_trans; [|exact IH|apply step_evolves]. apply strategy_ok_evolves.
Qed.

End Strategy.

Lemma strategy_matches_configuration_witness :
  Forall2 (fun c x => createModal x = initModal (configured c)) [remote_link; inline_link]
    (insts (step (hq := literal_query) (env := sample_env) (EvShow 0) sample_world)).
Proof.
  apply (strategy_matches_configuration (hq := literal_query) (env := sample_env) _ sample_backdrop).
  apply reachable_step, reachable_init.
Defined.

End Invariants.
