(* ===== verification/Fresh.v ===== *)
(** * Freshness of request and node identifiers

    [Lifecycle] gives every request ([issue]) and every dialog node
    ([render]) the next value of one counter [next_id].  The invariant
    [ids_fresh] says that every outstanding request, every mounted dialog
    and every node of the store has an identifier below the counter; it is
    what makes [on_response] find the request just issued and not an older
    one.  [fresher] is the preorder "the counter only grows, and the
    invariant is kept"; every operation is monotone for it, proved by
    peeling its composition with the lemmas of [fresh_db]. *)

From stdpp Require Import base list sets gmap strings.
From Stdlib Require Import String.
From S2P Require Import Prelude Config Actions Backdrop Lifecycle Invariants.

Local Open Scope list_scope.
Local Set Warnings "-clear-no-such-hyp".

Create HintDb fresh_db.

Module Fresh.
Import Config Actions Lifecycle Invariants.

Section Fresh.
Context {B : Type} `{BackdropOps B}.

(** [self.$modal] of an instance refers to a node below [n]. *)
Definition modal_below (n : nat) (x : Inst) : Prop :=
  match modal x with Some m => m < n | None => True end.

Definition ids_fresh (w : World B) : Prop :=
  Forall (fun p => p_id p < next_id w) (pending w) /\
  Forall (fun n => n < next_id w) (mounted w) /\
  map_Forall (fun n _ => n < next_id w) (nodes w) /\
  Forall (modal_below (next_id w)) (insts w).

Definition fresher (w w' : World B) : Prop :=
  next_id w <= next_id w' /\ (ids_fresh w -> ids_fresh w').

#[export] Instance fresher_preorder : PreOrder fresher.
Proof. split; [intros w; split; auto|intros w1 w2 w3 [? H12] [? H23]; split; [lia|auto]]. Qed.

(** Everything new in [w'] is below its counter. *)
Lemma fresher_intro (w w' : World B) :
  next_id w <= next_id w' ->
  (forall p, p ∈ pending w' -> p ∈ pending w \/ p_id p < next_id w') ->
  (forall n, n ∈ mounted w' -> n ∈ mounted w \/ n < next_id w') ->
  (forall n x, nodes w' !! n = Some x -> (exists y, nodes w !! n = Some y) \/ n < next_id w') ->
  (forall y, y ∈ insts w' -> (exists z, z ∈ insts w /\ modal z = modal y) \/ modal_below (next_id w') y) ->
  fresher w w'.
Proof.
  intros Hn Hp Hm Hd Hi. split; [done|]. intros (Fp & Fm & Fd & Fi). split_and!.
  - apply Forall_forall. intros p [Hin|]%Hp; [|done].
    eapply Forall_forall in Fp; [|done]. lia.
  - apply Forall_forall. intros m [Hin|]%Hm; [|done].
    eapply Forall_forall in Fm; [|done]. lia.
  - intros m x [(y & Hy)|]%Hd; [|done]. specialize (Fd m y Hy). simpl in Fd. lia.
  - apply Forall_forall. intros y [(z & Hz & Hzy)|]%Hi; [|done].
    eapply Forall_forall in Fi; [|exact Hz]. unfold modal_below in *. rewrite <- Hzy.
    case_match; [lia|done].
Qed.

Lemma fresher_same (w : World B) (g : World B -> World B) :
  mounted (g w) = mounted w -> pending (g w) = pending w -> nodes (g w) = nodes w ->
  next_id (g w) = next_id w -> insts (g w) = insts w -> fresher w (g w).
Proof.
  intros H1 H2 H3 H4 H5. apply fresher_intro; rewrite ?H1, ?H2, ?H3, ?H4, ?H5; [lia|auto|auto| |eauto].
  intros n x Hx. left. by exists x.
Qed.

Lemma shrinks_fresher (w w' : World B) : shrinks w w' -> fresher w w'.
Proof.
  intros (Hm & Hp & Hd & Hn & Hf). apply fresher_intro; rewrite ?Hd, ?Hn; [lia|set_solver|set_solver| |].
  - intros n x Hx. left. by exists x.
  - intros y (j & Hj)%list_elem_of_lookup. left.
    destruct (Forall2_lookup_r _ _ _ _ _ Hf Hj) as (z & Hz & Hzy & _).
    exists z. split; [by eapply list_elem_of_lookup_2|done].
Qed.

Lemma fresher_issue i k (w : World B) : fresher w (issue i k w).
Proof.
  apply fresher_intro; simpl; [lia| |auto|eauto|eauto].
  intros p [Hp|Hp%list_elem_of_singleton]%elem_of_app; [by left|]. right. subst p. simpl. lia.
Qed.

Lemma fresher_activate n (w : World B) : fresher w (activate n w).
Proof.
  apply fresher_intro; simpl; [lia|auto|auto| |eauto]. intros m x Hx. left.
  rewrite lookup_alter_Some in Hx. naive_solver.
Qed.

Lemma fresher_filter_pending (P : Pending -> Prop) `{forall p, Decision (P p)} (w : World B) :
  fresher w (set_pending (filter P (pending w)) w).
Proof. apply shrinks_fresher. split_and!; try done. apply filter_subseteq. Qed.

(** An update of an instance that keeps its [$modal]. *)
Lemma fresher_upd_inst i f (w : World B) : (forall x, modal (f x) = modal x) -> fresher w (upd_inst i f w).
Proof.
  intros Hf. apply fresher_intro; simpl; [lia|auto|auto|eauto|].
  intros y [Hy|(z & Hz & ->)]%list_elem_of_alter; left; eauto.
Qed.

(** The operations that touch none of the five fields, each stated on a
    variable world so that using it on a large term is unification only. *)
Lemma fresher_trigger i s (w : World B) : fresher w (trigger i s w).
Proof. by apply fresher_same. Qed.
Lemma fresher_push_log e (w : World B) : fresher w (push_log e w).
Proof. by apply fresher_same. Qed.
Lemma fresher_set_wrapper b (w : World B) : fresher w (set_wrapper b w).
Proof. by apply fresher_same. Qed.
Lemma fresher_set_overflow b (w : World B) : fresher w (set_overflow b w).
Proof. by apply fresher_same. Qed.
Lemma fresher_set_loading b (w : World B) : fresher w (set_loading b w).
Proof. by apply fresher_same. Qed.
Lemma fresher_set_backdrop b (w : World B) : fresher w (set_backdrop b w).
Proof. by apply fresher_same. Qed.
Lemma fresher_showLoading c (w : World B) : fresher w (showLoading c w).
Proof. by apply fresher_same. Qed.
Lemma fresher_upd_page f (w : World B) : fresher w (upd_page f w).
Proof. by apply fresher_same. Qed.
Lemma fresher_position_modal `{PageEnv} i (w : World B) : fresher w (position_modal i w).
Proof. apply (position_modal_preserved fresher). intros n pl. apply fresher_upd_page. Qed.

(** Inside a page whose identifiers are fresh, the [$modal] of an
    instance is below the counter. *)
Lemma ids_fresh_modal (w : World B) j y m :
  ids_fresh w -> inst_at w j = Some y -> modal y = Some m -> m < next_id w.
Proof.
  intros (_ & _ & _ & Fi) Hy Hm. eapply Forall_forall in Fi; [|by eapply list_elem_of_lookup_2].
  unfold modal_below in Fi. by rewrite Hm in Fi.
Qed.

End Fresh.

#[export] Hint Extern 1 (fresher ?w (issue _ _ ?w)) => apply fresher_issue : fresh_db.
#[export] Hint Extern 1 (fresher ?w (activate _ ?w)) => apply fresher_activate : fresh_db.
#[export] Hint Extern 1 (fresher ?w (set_pending (filter _ (pending ?w)) ?w)) => apply fresher_filter_pending : fresh_db.
#[export] Hint Extern 1 (fresher ?w (upd_inst _ _ ?w)) => apply fresher_upd_inst; intros; reflexivity : fresh_db.
#[export] Hint Extern 1 (fresher ?w (unmount _ ?w)) => apply shrinks_fresher, shrinks_unmount : fresh_db.
#[export] Hint Extern 1 (fresher ?w (abort_xhr _ ?w)) => apply shrinks_fresher, shrinks_abort_xhr : fresh_db.
#[export] Hint Extern 1 (fresher ?w (hide _ _ ?w)) => apply shrinks_fresher, hide_shrinks : fresh_db.
#[export] Hint Extern 1 (fresher ?w (backdrop_hide (hide _) ?w)) =>
  apply shrinks_fresher, shrinks_backdrop_hide; intros; apply hide_shrinks : fresh_db.
#[export] Hint Extern 1 (fresher ?w (trigger _ _ ?w)) => apply fresher_trigger : fresh_db.
#[export] Hint Extern 1 (fresher ?w (push_log _ ?w)) => apply fresher_push_log : fresh_db.
#[export] Hint Extern 1 (fresher ?w (set_wrapper _ ?w)) => apply fresher_set_wrapper : fresh_db.
#[export] Hint Extern 1 (fresher ?w (set_overflow _ ?w)) => apply fresher_set_overflow : fresh_db.
#[export] Hint Extern 1 (fresher ?w (set_loading _ ?w)) => apply fresher_set_loading : fresh_db.
#[export] Hint Extern 1 (fresher ?w (set_backdrop _ ?w)) => apply fresher_set_backdrop : fresh_db.
#[export] Hint Extern 1 (fresher ?w (showLoading _ ?w)) => apply fresher_showLoading : fresh_db.
#[export] Hint Extern 1 (fresher ?w (upd_page _ ?w)) => apply fresher_upd_page : fresh_db.
#[export] Hint Extern 1 (fresher ?w (position_modal _ ?w)) => apply fresher_position_modal : fresh_db.

Ltac freshen := peel ltac:(eauto 4 with fresh_db).

Section Ops.
Context {B : Type} `{BackdropOps B} {hq : HtmlQuery} {env : PageEnv}.

(** [render] allocates the node [next_id], mounts it and makes it
    [self.$modal]. *)
Lemma render_fresher i (w : World B) : fresher w (render i w).
Proof.
  unfold render, default_render. cbv zeta. do 2 (case_match; [|freshen]).
  apply fresher_intro; simpl; [lia|auto| | |].
  - intros n [Hn|Hn%list_elem_of_singleton]%elem_of_app; [by left|]. right. lia.
  - intros n x Hx. apply lookup_insert_Some in Hx as [(<- & _)|(_ & Hx)]; [right; lia|left; eauto].
  - unfold modal_below. intros y [Hy|(z & Hz & ->)]%list_elem_of_alter;
      [|rename Hz into Hy]; apply list_elem_of_alter in Hy as [Hy|(z' & Hz' & ->)];
      first [left; by eauto | right; simpl; lia].
Qed.
#[local] Hint Extern 1 (fresher ?w (render _ ?w)) => apply render_fresher : fresh_db.

Lemma _show_fresher i (w : World B) : fresher w (_show i w).
Proof. unfold _show. cbv zeta. freshen. Qed.
#[local] Hint Extern 1 (fresher ?w (_show _ ?w)) => apply _show_fresher : fresh_db.

Lemma show_fresher i (w : World B) : fresher w (show i w).
Proof.
  unfold show, createAjaxModal, createTargetModal, createHtmlModal, createBasicModal.
  cbv zeta. freshen.
Qed.

Lemma ajax_done_fresher i r (w : World B) : fresher w (ajax_done i r w).
Proof. unfold ajax_done. cbv zeta. freshen. Qed.
#[local] Hint Extern 1 (fresher ?w (ajax_done _ _ ?w)) => apply ajax_done_fresher : fresh_db.

Lemma redraw_fresher i r (w : World B) : fresher w (redraw i r w).
Proof. unfold redraw. cbv zeta. freshen. Qed.
#[local] Hint Extern 1 (fresher ?w (redraw _ _ ?w)) => apply redraw_fresher : fresh_db.
#[local] Hint Extern 1 (fresher ?w (show _ ?w)) => apply show_fresher : fresh_db.

Lemma run_effects_fresher i ao es (w : World B) : fresher w (run_effects i ao es w).
Proof.
  revert w. induction es as [|e es IH]; intros w; simpl; [reflexivity|].
  destruct e; try (etransitivity; [|apply IH]); unfold run_effect; try reflexivity; freshen.
Qed.
#[local] Hint Extern 1 (fresher ?w (run_effects _ _ _ ?w)) => apply run_effects_fresher : fresh_db.

Lemma fold_fresher_after {A} (g : World B -> A -> World B) (l : list A) (w w1 : World B) :
  fresher w w1 -> (forall w a, fresher w (g w a)) -> fresher w (fold_left g l w1).
Proof.
  intros H1 Hg. revert w1 H1. induction l as [|a l IH]; intros w1 H1; simpl; [done|].
  apply IH. etransitivity; [exact H1|apply Hg].
Qed.

Lemma step_fresher e (w : World B) : fresher w (step e w).
Proof.
  destruct e; unfold step.
  - apply show_fresher.
  - apply shrinks_fresher, hide_shrinks.
  - unfold on_escape. cbv zeta. apply fold_fresher_after; [freshen|]. intros w' j. freshen.
  - unfold on_wrapper_click. freshen.
  - unfold on_action. freshen.
  - unfold on_response. cbv zeta. freshen.
  - unfold on_resize. cbv zeta. apply fold_fresher_after; [apply fold_fresher_after; [freshen|]|];
      intros; freshen.
  - unfold on_image_load. cbv zeta. apply fold_fresher_after; [freshen|]. intros w' [j m]. freshen.
  - unfold on_proxy_click, on_action. freshen.
  - unfold on_close_click. freshen.
  - unfold on_dialog_click. freshen.
Qed.

End Ops.

Section Reachable.
Context {B : Type} `{BackdropOps B} {hq : HtmlQuery} {env : PageEnv}.

(** The initial page has no request, dialog, node or [$modal]. *)
Lemma init_ids_fresh cs (b0 : B) : ids_fresh (init_world cs b0).
Proof.
  split_and!; [constructor|constructor|apply map_Forall_empty|].
  simpl. induction cs as [|c cs IH]; simpl; constructor; [exact I|exact IH].
Qed.


End Reachable.


End Fresh.
