(* ===== verification/WellFormed.v ===== *)
(** * Referential integrity of the page

    The model keeps the DOM as a store of nodes indexed by identifier
    ([nodes]); the wrapper's children ([mounted], [$wrapperInner]'s
    dialogs) and each instance's [self.$modal] are references into it.
    [wf] says that these references resolve and agree with the store:
    every mounted dialog is a node of the store, every node belongs to an
    instance of the page, and the node an instance's [$modal] refers to
    was rendered by that instance ([render], [modal.js] 296-403, builds
    the node from [self.$raw] and stores it in [self.$modal]).

    [kept] is the preorder "[fresher], and [wf] is kept"; the freshness of
    [next_id] is what makes [render]'s new node collide with nothing.  As
    in [Fresh], every operation is proved monotone by peeling its
    composition with the lemmas of [kept_db]. *)

From stdpp Require Import base list sets gmap strings.
From Stdlib Require Import String.
From S2P Require Import Prelude Config Actions Backdrop Lifecycle Invariants Fresh.

Local Open Scope list_scope.

Create HintDb kept_db.

Module WellFormed.
Import Config Actions Lifecycle Invariants Fresh.

Section WellFormed.
Context {B : Type} `{BackdropOps B}.

(** The owner of every node of the store. *)
Definition owners (w : World B) : gmap nat nat := node_owner <$> nodes w.

Definition wf (w : World B) : Prop :=
  Forall (fun n => is_Some (owners w !! n)) (mounted w) /\
  map_Forall (fun _ j => (j < List.length (insts w))%nat) (owners w) /\
  (forall j x n, insts w !! j = Some x -> modal x = Some n -> owners w !! n = Some j).

Definition kept (w w' : World B) : Prop :=
  fresher w w' /\ (ids_fresh w -> wf w -> wf w').

#[export] Instance kept_preorder : PreOrder kept.
Proof.
  split; [intros w; split; [reflexivity|auto]|].
  intros w1 w2 w3 [F12 H12] [F23 H23]. split; [by etransitivity|].
  intros Hf Hw. apply H23; [by apply F12|auto].
Qed.

Lemma Forall2_modal_refl (l : list Inst) : Forall2 (fun x y => modal y = modal x) l l.
Proof. induction l; by constructor. Qed.

(** A step that adds no reference, keeps the owners and keeps every
    [$modal]. *)
Lemma kept_intro (w w' : World B) :
  fresher w w' -> mounted w' ⊆ mounted w -> owners w' = owners w ->
  Forall2 (fun x y => modal y = modal x) (insts w) (insts w') -> kept w w'.
Proof.
  intros HF Hm Ho Hi. split; [done|]. intros _ (Wm & Wo & Wi). unfold wf. rewrite Ho.
  split_and!.
  - apply Forall_forall. intros n Hn%Hm. by eapply Forall_forall in Wm.
  - rewrite <- (Forall2_length _ _ _ Hi). exact Wo.
  - intros j x n Hx Hn. destruct (Forall2_lookup_r _ _ _ _ _ Hi Hx) as (y & Hy & Hyx).
    apply (Wi j y); congruence.
Qed.

Lemma shrinks_kept (w w' : World B) : shrinks w w' -> kept w w'.
Proof.
  intros Hs. pose proof Hs as (Hm & _ & Hd & _ & Hf). apply kept_intro;
    [by apply shrinks_fresher|done|unfold owners; by rewrite Hd|].
  eapply Forall2_impl; [exact Hf|]. by intros x y (? & _).
Qed.

Lemma kept_upd_inst i f (w : World B) : (forall x, modal (f x) = modal x) -> kept w (upd_inst i f w).
Proof.
  intros Hf. apply kept_intro; [by apply fresher_upd_inst|done|done|]. simpl.
  apply Forall2_lookup. intros j. destruct (decide (i = j)) as [<-|Hne];
    [rewrite list_lookup_alter_eq|rewrite list_lookup_alter_ne by done];
    destruct (insts w !! _); constructor; auto.
Qed.

(** [$node.addClass('active')] keeps the node's owner. *)
Lemma kept_activate n (w : World B) : kept w (activate n w).
Proof.
  apply kept_intro; [apply fresher_activate|done| |apply Forall2_modal_refl].
  unfold owners. simpl. rewrite (fmap_alter _ _ id), alter_id; done.
Qed.

Lemma kept_issue i k (w : World B) : kept w (issue i k w).
Proof. split; [apply fresher_issue|auto]. Qed.
Lemma kept_trigger i s (w : World B) : kept w (trigger i s w).
Proof. split; [apply fresher_trigger|auto]. Qed.
Lemma kept_push_log e (w : World B) : kept w (push_log e w).
Proof. split; [apply fresher_push_log|auto]. Qed.
Lemma kept_set_wrapper b (w : World B) : kept w (set_wrapper b w).
Proof. split; [apply fresher_set_wrapper|auto]. Qed.
Lemma kept_set_overflow b (w : World B) : kept w (set_overflow b w).
Proof. split; [apply fresher_set_overflow|auto]. Qed.
Lemma kept_set_loading b (w : World B) : kept w (set_loading b w).
Proof. split; [apply fresher_set_loading|auto]. Qed.
Lemma kept_set_backdrop b (w : World B) : kept w (set_backdrop b w).
Proof. split; [apply fresher_set_backdrop|auto]. Qed.
Lemma kept_showLoading c (w : World B) : kept w (showLoading c w).
Proof. split; [apply fresher_showLoading|auto]. Qed.
Lemma kept_upd_page f (w : World B) : kept w (upd_page f w).
Proof. split; [apply fresher_upd_page|auto]. Qed.

End WellFormed.

#[export] Hint Extern 1 (kept ?w (issue _ _ ?w)) => apply kept_issue : kept_db.
#[export] Hint Extern 1 (kept ?w (activate _ ?w)) => apply kept_activate : kept_db.
#[export] Hint Extern 1 (kept ?w (set_pending (filter _ (pending ?w)) ?w)) =>
  apply shrinks_kept; split_and!; try done; apply filter_subseteq : kept_db.
#[export] Hint Extern 1 (kept ?w (upd_inst _ _ ?w)) => apply kept_upd_inst; intros; reflexivity : kept_db.
#[export] Hint Extern 1 (kept ?w (unmount _ ?w)) => apply shrinks_kept, shrinks_unmount : kept_db.
#[export] Hint Extern 1 (kept ?w (abort_xhr _ ?w)) => apply shrinks_kept, shrinks_abort_xhr : kept_db.
#[export] Hint Extern 1 (kept ?w (hide _ _ ?w)) => apply shrinks_kept, hide_shrinks : kept_db.
#[export] Hint Extern 1 (kept ?w (backdrop_hide (hide _) ?w)) =>
  apply shrinks_kept, shrinks_backdrop_hide; intros; apply hide_shrinks : kept_db.
#[export] Hint Extern 1 (kept ?w (trigger _ _ ?w)) => apply kept_trigger : kept_db.
#[export] Hint Extern 1 (kept ?w (push_log _ ?w)) => apply kept_push_log : kept_db.
#[export] Hint Extern 1 (kept ?w (set_wrapper _ ?w)) => apply kept_set_wrapper : kept_db.
#[export] Hint Extern 1 (kept ?w (set_overflow _ ?w)) => apply kept_set_overflow : kept_db.
#[export] Hint Extern 1 (kept ?w (set_loading _ ?w)) => apply kept_set_loading : kept_db.
#[export] Hint Extern 1 (kept ?w (set_backdrop _ ?w)) => apply kept_set_backdrop : kept_db.
#[export] Hint Extern 1 (kept ?w (showLoading _ ?w)) => apply kept_showLoading : kept_db.
#[export] Hint Extern 1 (kept ?w (upd_page _ ?w)) => apply kept_upd_page : kept_db.
#[export] Hint Extern 1 (kept ?w (position_modal _ ?w)) =>
  apply (position_modal_preserved kept); intros; apply kept_upd_page : kept_db.

Ltac keep := peel ltac:(eauto 4 with kept_db).

Section Ops.
Context {B : Type} `{BackdropOps B} {hq : HtmlQuery} {env : PageEnv}.

(** [render] stores the node [next_id], owned by the instance, before it
    mounts it and makes it [self.$modal]; the node is fresh, so no other
    reference changes meaning. *)
Lemma render_kept i (w : World B) : kept w (render i w).
Proof.
  split; [apply render_fresher|]. intros (_ & _ & Hd & _) (Wm & Wo & Wi).
  unfold render, default_render. cbv zeta. case_match eqn:Hx; [|done]. case_match; [|done].
  unfold inst_at in Hx. cbn in Hx. unfold wf, owners. cbn -[insert]. rewrite fmap_insert. fold (owners w).
  assert (Hfresh : forall m j, owners w !! m = Some j -> m <> next_id w).
  { intros m j (nd & _ & Hm)%lookup_fmap_Some. specialize (Hd m nd Hm). simpl in Hd. lia. }
  split_and!.
  - apply Forall_app. split; [|constructor; [rewrite lookup_insert_eq; eauto|constructor]].
    eapply Forall_impl; [exact Wm|]. intros m Hm. rewrite lookup_insert_is_Some'. by right.
  - apply map_Forall_insert_2; rewrite !length_alter; [by eapply lookup_lt_Some|exact Wo].
  - intros j y m Hj Hy. destruct (decide (i = j)) as [<-|Hne].
    + rewrite !list_lookup_alter_eq, Hx in Hj. simpl in Hj. injection Hj as <-.
      simpl in Hy. injection Hy as <-. apply lookup_insert_eq.
    + rewrite !list_lookup_alter_ne in Hj by done. specialize (Wi j y m Hj Hy).
      rewrite lookup_insert_ne; [done|]. intros <-. by apply (Hfresh _ _ Wi).
Qed.
#[local] Hint Extern 1 (kept ?w (render _ ?w)) => apply render_kept : kept_db.

Lemma _show_kept i (w : World B) : kept w (_show i w).
Proof. unfold _show. cbv zeta. keep. Qed.
#[local] Hint Extern 1 (kept ?w (_show _ ?w)) => apply _show_kept : kept_db.

Lemma show_kept i (w : World B) : kept w (show i w).
Proof.
  unfold show, createAjaxModal, createTargetModal, createHtmlModal, createBasicModal.
  cbv zeta. keep.
Qed.
#[local] Hint Extern 1 (kept ?w (show _ ?w)) => apply show_kept : kept_db.

Lemma ajax_done_kept i r (w : World B) : kept w (ajax_done i r w).
Proof. unfold ajax_done. cbv zeta. keep. Qed.
#[local] Hint Extern 1 (kept ?w (ajax_done _ _ ?w)) => apply ajax_done_kept : kept_db.

Lemma redraw_kept i r (w : World B) : kept w (redraw i r w).
Proof. unfold redraw. cbv zeta. keep. Qed.
#[local] Hint Extern 1 (kept ?w (redraw _ _ ?w)) => apply redraw_kept : kept_db.

Lemma run_effects_kept i ao es (w : World B) : kept w (run_effects i ao es w).
Proof.
  revert w. induction es as [|e es IH]; intros w; simpl; [reflexivity|].
  destruct e; try (etransitivity; [|apply IH]); unfold run_effect; try reflexivity; keep.
Qed.
#[local] Hint Extern 1 (kept ?w (run_effects _ _ _ ?w)) => apply run_effects_kept : kept_db.

Lemma fold_kept_after {A} (g : World B -> A -> World B) (l : list A) (w w1 : World B) :
  kept w w1 -> (forall w a, kept w (g w a)) -> kept w (fold_left g l w1).
Proof.
  intros H1 Hg. revert w1 H1. induction l as [|a l IH]; intros w1 H1; simpl; [done|].
  apply IH. etransitivity; [exact H1|apply Hg].
Qed.

Lemma step_kept e (w : World B) : kept w (step e w).
Proof.
  destruct e; unfold step.
  - apply show_kept.
  - apply shrinks_kept, hide_shrinks.
  - unfold on_escape. cbv zeta. apply fold_kept_after; [keep|]. intros w' j. keep.
  - unfold on_wrapper_click. keep.
  - unfold on_action. keep.
  - unfold on_response. cbv zeta. keep.
  - unfold on_resize. cbv zeta. apply fold_kept_after; [apply fold_kept_after; [keep|]|];
      intros; keep.
  - unfold on_image_load. cbv zeta. apply fold_kept_after; [keep|]. intros w' [j m]. keep.
  - unfold on_proxy_click, on_action. keep.
  - unfold on_close_click. keep.
  - unfold on_dialog_click. keep.
Qed.

End Ops.

Section Reachable.
Context {B : Type} `{BackdropOps B} {hq : HtmlQuery} {env : PageEnv}.

Lemma init_wf cs (b0 : B) : wf (init_world cs b0).
Proof.
  split_and!; [apply Forall_nil_2| |].
  { intros m j Hm. unfold owners in Hm. simpl in Hm. by rewrite lookup_fmap, lookup_empty in Hm. }
  intros j x n Hx Hn. simpl in Hx.
  apply list_elem_of_lookup_2, list_elem_of_In, in_map_iff in Hx as (c & <- & _). discriminate Hn.
Qed.

Lemma reachable_ids_wf cs b0 (w : World B) : reachable cs b0 w -> ids_fresh w /\ wf w.
Proof.
  induction 1 as [|w e _ [Hf Hw]]; [split; [apply init_ids_fresh|apply init_wf]|].
  destruct (step_kept e w) as [[_ HF] HK]. auto.
Qed.


End Reachable.


End WellFormed.
