(* ===== verification/Trace.v ===== *)
(** * Trace: the pattern's events, callbacks and navigations in order

    The world's [log] records what the page can observe of the pattern:
    the events [self.trigger] emits ([before-render], [show], [hidden],
    ...), the user callbacks, the navigations and reloads, and the
    [modal-click] of the dialogs.  [log_grows] is the prefix order on
    logs: every operation only appends, proved as in the other files by
    peeling each operation with the hints of [log_db], so the log of a run
    is the concatenation of what its events emitted.  The events of a
    [hide] that hides the backdrop, whose ["hidden"] handlers call [hide]
    again, are stated in [hide_last_dialog_log]; the order of the events
    of one [show] in [show_direct_log]. *)

From stdpp Require Import base list sets gmap strings.
From Stdlib Require Import String.
From S2P Require Import Prelude Config Actions Backdrop Lifecycle.

Local Open Scope list_scope.
Local Open Scope string_scope.
Local Set Warnings "-clear-no-such-hyp".

Create HintDb log_db.

Module Trace.
Import Config Actions Lifecycle.

Section Grows.
Context {B : Type} `{BackdropOps B}.

Definition log_grows (w w' : World B) : Prop := log w `prefix_of` log w'.

#[export] Instance log_grows_preorder : PreOrder log_grows.
Proof. split; [intros w; unfold log_grows; reflexivity|intros w1 w2 w3; unfold log_grows; apply transitivity]. Qed.

Lemma log_grows_same (w : World B) (g : World B -> World B) : log (g w) = log w -> log_grows w (g w).
Proof. intros E. unfold log_grows. by rewrite E. Qed.

Lemma log_grows_push e (w : World B) : log_grows w (push_log e w).
Proof. apply prefix_app_r. reflexivity. Qed.

Lemma log_grows_abort_xhr i (w : World B) : log_grows w (abort_xhr i w).
Proof. unfold abort_xhr. case_match; [by apply log_grows_same|reflexivity]. Qed.

Lemma log_grows_position_modal `{PageEnv} i (w : World B) : log_grows w (position_modal i w).
Proof. apply (position_modal_preserved log_grows). intros. by apply log_grows_same. Qed.

(** The operations that leave the log alone, stated on a variable world
    so that applying them is unification only. *)
Lemma log_grows_set_nodes x (w : World B) : log_grows w (set_nodes x w).
Proof. by apply log_grows_same. Qed.
Lemma log_grows_set_mounted x (w : World B) : log_grows w (set_mounted x w).
Proof. by apply log_grows_same. Qed.
Lemma log_grows_set_wrapper x (w : World B) : log_grows w (set_wrapper x w).
Proof. by apply log_grows_same. Qed.
Lemma log_grows_set_loading x (w : World B) : log_grows w (set_loading x w).
Proof. by apply log_grows_same. Qed.
Lemma log_grows_set_overflow x (w : World B) : log_grows w (set_overflow x w).
Proof. by apply log_grows_same. Qed.
Lemma log_grows_set_backdrop x (w : World B) : log_grows w (set_backdrop x w).
Proof. by apply log_grows_same. Qed.
Lemma log_grows_set_pending x (w : World B) : log_grows w (set_pending x w).
Proof. by apply log_grows_same. Qed.
Lemma log_grows_set_next x (w : World B) : log_grows w (set_next x w).
Proof. by apply log_grows_same. Qed.
Lemma log_grows_upd_inst i f (w : World B) : log_grows w (upd_inst i f w).
Proof. by apply log_grows_same. Qed.
Lemma log_grows_upd_page f (w : World B) : log_grows w (upd_page f w).
Proof. by apply log_grows_same. Qed.
Lemma log_grows_unmount n (w : World B) : log_grows w (unmount n w).
Proof. by apply log_grows_same. Qed.
Lemma log_grows_activate n (w : World B) : log_grows w (activate n w).
Proof. by apply log_grows_same. Qed.
Lemma log_grows_issue i k (w : World B) : log_grows w (issue i k w).
Proof. by apply log_grows_same. Qed.
Lemma log_grows_showLoading c (w : World B) : log_grows w (showLoading c w).
Proof. by apply log_grows_same. Qed.

End Grows.

(** The primitive operations, told apart by their head symbol: a
    syntactic match, so that no hint unfolds a large world. *)
#[export] Hint Extern 1 (log_grows _ _) =>
  match goal with
  | |- log_grows _ (push_log _ _) => apply log_grows_push
  | |- log_grows _ (trigger _ _ _) => apply log_grows_push
  | |- log_grows _ (abort_xhr _ _) => apply log_grows_abort_xhr
  | |- log_grows _ (position_modal _ _) => apply log_grows_position_modal
  | |- log_grows _ (set_nodes _ _) => apply log_grows_set_nodes
  | |- log_grows _ (set_mounted _ _) => apply log_grows_set_mounted
  | |- log_grows _ (set_wrapper _ _) => apply log_grows_set_wrapper
  | |- log_grows _ (set_loading _ _) => apply log_grows_set_loading
  | |- log_grows _ (set_overflow _ _) => apply log_grows_set_overflow
  | |- log_grows _ (set_backdrop _ _) => apply log_grows_set_backdrop
  | |- log_grows _ (set_pending _ _) => apply log_grows_set_pending
  | |- log_grows _ (set_next _ _) => apply log_grows_set_next
  | |- log_grows _ (upd_inst _ _ _) => apply log_grows_upd_inst
  | |- log_grows _ (upd_page _ _) => apply log_grows_upd_page
  | |- log_grows _ (unmount _ _) => apply log_grows_unmount
  | |- log_grows _ (activate _ _) => apply log_grows_activate
  | |- log_grows _ (issue _ _ _) => apply log_grows_issue
  | |- log_grows _ (showLoading _ _) => apply log_grows_showLoading
  end : log_db.

Ltac grow := peel ltac:(eauto 4 with log_db).

Section Ops.
Context {B : Type} `{BackdropOps B} {hq : HtmlQuery} {env : PageEnv}.

Lemma log_grows_render i (w : World B) : log_grows w (render i w).
Proof. unfold render, default_render. cbv zeta. grow. Qed.
#[local] Hint Extern 1 (log_grows _ _) =>
  match goal with |- log_grows _ (render _ _) => apply log_grows_render end : log_db.

Lemma log_grows_show_ i (w : World B) : log_grows w (_show i w).
Proof. unfold _show. cbv zeta. grow. Qed.
#[local] Hint Extern 1 (log_grows _ _) =>
  match goal with |- log_grows _ (_show _ _) => apply log_grows_show_ end : log_db.

Lemma log_grows_backdrop_hide (h : nat -> World B -> World B) (w : World B) :
  (forall j w, log_grows w (h j w)) -> log_grows w (backdrop_hide h w).
Proof.
  intros Hh. unfold backdrop_hide. case_match. case_match; [|grow].
  apply (fold_left_rel log_grows); [grow|]. intros w' j. case_match; [apply Hh|reflexivity].
Qed.

Lemma log_grows_hide f i (w : World B) : log_grows w (hide f i w).
Proof.
  revert i w. induction f as [|f IH]; intros i w; [reflexivity|].
  cbn [hide]. unfold hide_body. cbv zeta.
  peel ltac:(first [apply log_grows_backdrop_hide; intros; apply IH | eauto 4 with log_db]).
Qed.
#[local] Hint Extern 1 (log_grows _ _) =>
  match goal with |- log_grows _ (hide _ _ _) => apply log_grows_hide end : log_db.
#[local] Hint Extern 1 (log_grows _ _) =>
  match goal with
  | |- log_grows _ (backdrop_hide (hide _) _) => apply log_grows_backdrop_hide; intros; apply log_grows_hide
  end : log_db.

Lemma log_grows_show i (w : World B) : log_grows w (show i w).
Proof.
  unfold show, createAjaxModal, createTargetModal, createHtmlModal, createBasicModal. cbv zeta. grow.
Qed.
#[local] Hint Extern 1 (log_grows _ _) =>
  match goal with |- log_grows _ (show _ _) => apply log_grows_show end : log_db.

Lemma log_grows_redraw i r (w : World B) : log_grows w (redraw i r w).
Proof. unfold redraw. cbv zeta. grow. Qed.
#[local] Hint Extern 1 (log_grows _ _) =>
  match goal with |- log_grows _ (redraw _ _ _) => apply log_grows_redraw end : log_db.

Lemma log_grows_run_effects i ao es (w : World B) : log_grows w (run_effects i ao es w).
Proof.
  revert w. induction es as [|e es IH]; intros w; simpl; [reflexivity|].
  destruct e; try (etransitivity; [|apply IH]); unfold run_effect; try reflexivity; grow.
Qed.
#[local] Hint Extern 1 (log_grows _ _) =>
  match goal with |- log_grows _ (run_effects _ _ _ _) => apply log_grows_run_effects end : log_db.

Lemma log_grows_ajax_done i r (w : World B) : log_grows w (ajax_done i r w).
Proof. unfold ajax_done. cbv zeta. grow. Qed.
#[local] Hint Extern 1 (log_grows _ _) =>
  match goal with |- log_grows _ (ajax_done _ _ _) => apply log_grows_ajax_done end : log_db.


(** The events [render] emits when [self.$raw] is set: the wrapper's
    ["render"] (712), then [before-render], [before-events-setup] and
    [after-render] of the default [render] (299, 358, 401), then
    ["rendered"] (714). *)
Definition render_events : list string :=
  ["render"; "before-render"; "before-events-setup"; "after-render"; "rendered"].

Lemma log_render i x r (w : World B) :
  inst_at w i = Some x -> raw x = Some r -> log (render i w) = (log w ++ (LEvent i <$> render_events))%list.
Proof.
  intros Hx Hr. unfold render, default_render. cbv zeta. unfold inst_at in Hx |- *. simpl. rewrite Hx. simpl. rewrite Hr.
  simpl. by rewrite <- !app_assoc.
Qed.

(** The end of [_show]: ["shown"] when [self.$modal] is set. *)
Lemma log_shown_tail i (U : World B) n :
  inst_at U i ≫= modal = Some n ->
  log (match inst_at U i ≫= modal with
       | None => U
       | Some n =>
           trigger i "shown" (upd_page (page_bind_resize i) (upd_page (page_bind_img i n)
             (position_modal i (upd_page (page_scan n) (activate n U)))))
       end) = (log U ++ [LEvent i "shown"])%list.
Proof. intros ->. elim_position_modal. reflexivity. Qed.

Lemma log_show_ i x r (w : World B) :
  inst_at w i = Some x -> raw x = Some r ->
  log (_show i w) = (log w ++ (LEvent i <$> (render_events ++ ["show"; "shown"])))%list.
Proof.
  intros Hx Hr. unfold _show. cbv zeta. pose proof (log_render i x r w Hx Hr) as HR.
  set (R := render i w) in *. set (U := upd_inst i (with_el_active true) _).
  assert (HU : log U = (log R ++ [LEvent i "show"])%list) by reflexivity.
  assert (EU : inst_at U i ≫= modal = Some (next_id w)).
  { unfold U, R, render, default_render. cbv zeta. unfold inst_at in Hx |- *. simpl. rewrite Hx. simpl. rewrite Hr. simpl.
    by rewrite !list_lookup_alter_eq, Hx. }
  clearbody U. rewrite (log_shown_tail i U (next_id w) EU), HU, HR.
  rewrite fmap_app, !app_assoc, <- (app_assoc _ [_] [_]). reflexivity.
Qed.

End Ops.

Section Order.
Context {B : Type} `{BackdropOps B} {hq : HtmlQuery} {env : PageEnv}.

(** C29. The order of the lifecycle events of a [show] that renders at
    once (a [target], [html] or basic strategy): it appends to the log
    exactly ["render"], ["before-render"], ["before-events-setup"],
    ["after-render"], ["rendered"], ["show"], ["shown"], in this order and
    nothing else: [_show] (720-740) runs [render] (710-715, 296-403)
    before its own ["show"], and ["shown"] comes last, after the dialog
    is placed and its handlers bound. *)
Theorem show_direct_log i x (w : World B) :
  inst_at w i = Some x -> createModal x <> CreateAjax ->
  log (show i w) = (log w ++ (LEvent i <$>
    ["render"; "before-render"; "before-events-setup"; "after-render"; "rendered"; "show"; "shown"]))%list.
Proof.
  intros Hx Hc. unfold show. rewrite Hx.
  destruct (createModal x); [done| | |];
    unfold createTargetModal, createHtmlModal, createBasicModal; rewrite Hx;
    (erewrite log_show_; [reflexivity|rewrite inst_at_upd_eq, Hx; reflexivity|reflexivity]).
Qed.

End Order.

Section Reenter.
Context {B : Type} `{BackdropLaws B} {hq : HtmlQuery} {env : PageEnv}.

(** The ["hidden"] handlers of the innermost [hide] call nothing. *)
Lemma hidden_handlers_hide0 (w : World B) : hidden_handlers (hide 0) w = w.
Proof.
  unfold hidden_handlers. match goal with |- fold_left _ ?l _ = _ => generalize l end.
  intros l. induction l as [|j l IH]; [done|]. simpl. by destruct (modal_active w j).
Qed.

(** The innermost [hide] emits ["hide"] and ["hidden"], nothing else. *)
Lemma log_hide1 i (w : World B) : log (hide 1 i w) = (log w ++ [LEvent i "hide"; LEvent i "hidden"])%list.
Proof.
  cbn [hide]. unfold hide_body, backdrop_hide, abort_xhr. cbv zeta.
  repeat (case_match; simpl; rewrite ?hidden_handlers_hide0); simpl; by rewrite <- app_assoc.
Qed.

(** [hide] keeps which instances' dialogs are [active]: it removes the
    class from [self.$el] and the node from the wrapper, not the class
    from the node. *)
Lemma modal_active_hide1 i j (w : World B) : modal_active (hide 1 i w) j = modal_active w j.
Proof.
  assert (E1 : nodes (hide 1 i w) = nodes w).
  { cbn [hide]. unfold hide_body, backdrop_hide, abort_xhr. cbv zeta.
    by repeat (case_match; simpl; rewrite ?hidden_handlers_hide0). }
  assert (E2 : inst_at (hide 1 i w) j ≫= modal = inst_at w j ≫= modal).
  { cbn [hide]. unfold hide_body, backdrop_hide, abort_xhr, inst_at. cbv zeta.
    repeat (case_match; simpl; rewrite ?hidden_handlers_hide0);
      (destruct (decide (i = j)) as [->|Hne];
        [rewrite !list_lookup_alter_eq; by destruct (insts w !! j)|by rewrite !list_lookup_alter_ne]). }
  unfold modal_active. by rewrite E1, E2.
Qed.

(** The nested ["hidden"] handlers emit the ["hide"] and ["hidden"] of
    every instance whose dialog is [active], in the order of the
    instances. *)
Lemma log_hidden_handlers1 l (w : World B) :
  log (fold_left (fun w j => if modal_active w j then hide 1 j w else w) l w) =
  (log w ++ flat_map (fun j => if modal_active w j then [LEvent j "hide"; LEvent j "hidden"] else []) l)%list.
Proof.
  revert w. induction l as [|j l IH]; intros w; cbn [fold_left flat_map]; [by rewrite app_nil_r|].
  destruct (modal_active w j); rewrite IH; [|done].
  rewrite log_hide1, <- app_assoc. do 2 f_equal.
  apply flat_map_ext. intros k. by rewrite modal_active_hide1.
Qed.

(** C28. [hide] of the last dialog re-enters itself: when at most one
    dialog is in the wrapper and the backdrop is shown, [hide()] (741-760)
    calls [backdrop.hide()] before it removes [self.$modal] or anything
    removes the class [active] from a dialog, and the backdrop's
    ["hidden"] handlers (448-452) call [hide()] of every instance whose
    [$modal] has that class, in the order of the instances.  So the log
    gets the outer ["hide"], then a ["hide"] and a ["hidden"] for every
    such instance, the one being hidden included, and instances hidden
    earlier whose removed dialog keeps the class, then the outer
    ["hidden"]. *)
Theorem hide_last_dialog_log i (w : World B) :
  (List.length (mounted w) < 2)%nat -> bd_visible (backdrop w) = true ->
  log (step (EvHide i) w) =
    (log w ++ [LEvent i "hide"] ++
     flat_map (fun j => if modal_active w j then [LEvent j "hide"; LEvent j "hidden"] else [])
       (seq 0 (List.length (insts w))) ++ [LEvent i "hidden"])%list.
Proof.
  intros Hm Hv. cbn [step]. change (hide hide_fuel i w) with (hide_body (hide 1) i w).
  unfold hide_body at 1. cbv zeta. set (W1 := trigger i "hide" (abort_xhr i w)).
  assert (E1 : mounted W1 = mounted w /\ backdrop W1 = backdrop w /\ insts W1 = insts w /\
               nodes W1 = nodes w /\ log W1 = (log w ++ [LEvent i "hide"])%list)
    by (unfold W1, abort_xhr; by case_match). destruct E1 as (M1 & B1 & I1 & N1 & L1).
  clearbody W1. rewrite M1, bool_decide_true by done.
  unfold backdrop_hide. pose proof (bd_hide_fires (backdrop W1)) as Hf.
  destruct (bd_hide (backdrop W1)) as [b fired]. simpl in Hf. rewrite B1, Hv in Hf. subst fired.
  set (H1 := hidden_handlers (hide 1) (set_backdrop b W1)).
  assert (LH : log H1 = (log W1 ++ flat_map (fun j => if modal_active w j
                 then [LEvent j "hide"; LEvent j "hidden"] else []) (seq 0 (List.length (insts w))))%list).
  { unfold H1, hidden_handlers. rewrite log_hidden_handlers1. simpl. rewrite I1.
    f_equal. apply flat_map_ext. intros j. unfold modal_active, inst_at. simpl. by rewrite I1, N1. }
  clearbody H1. case_match; simpl; rewrite LH, L1; by rewrite <- !app_assoc.
Qed.

End Reenter.

(** An in-page link's dialog on the sample page. *)
Lemma show_direct_log_witness :
  inst_at sample_world 1 <> None /\
  log (step (hq := literal_query) (env := sample_env) (EvShow 1) sample_world) =
    (log sample_world ++ (LEvent 1 <$>
      ["render"; "before-render"; "before-events-setup"; "after-render"; "rendered"; "show"; "shown"]))%list.
Proof.
  split; [discriminate|]. cbn [step].
  eapply (show_direct_log (hq := literal_query) (env := sample_env) 1); [reflexivity|discriminate].
Defined.

(** Hiding the one open dialog of the sample page: [hide] and [hidden]
    come twice. *)
Lemma hide_last_dialog_log_witness :
  let w := run [EvShow 1] sample_world in
  (List.length (mounted w) < 2)%nat /\ bd_visible (backdrop w) = true /\
  drop (List.length (log w)) (log (step (hq := literal_query) (env := sample_env) (EvHide 1) w)) =
    [LEvent 1 "hide"; LEvent 1 "hide"; LEvent 1 "hidden"; LEvent 1 "hidden"].
Proof.
  cbv zeta. split; [vm_compute; lia|]. split; [reflexivity|].
  rewrite (hide_last_dialog_log (hq := literal_query) (env := sample_env) 1); [|vm_compute; lia|reflexivity].
  rewrite drop_app_length. vm_compute. reflexivity.
Defined.

End Trace.
