(* ===== verification/Refinement.v ===== *)
(** * Refinement of the lifecycle state machine of the specification

    The specification (4.4) describes each instance as a state machine:
    [Idle -> Acquiring -> Rendering -> Shown -> Hidden], re-enterable, with
    [show] acquiring the content, the creation response rendering it, and
    [hide] closing the dialog from any state.  Rendering happens inside
    one event of the model, and a hidden instance behaves as an idle one,
    so the abstract machine has three phases; [spec_step] lists its
    transitions, each labelled by the lifecycle operation ([Op]) that
    takes it.

    The abstraction [phase] reads an instance's phase off the world:
    [Shown] when [self.$el] has the class [active] ([_show] sets it,
    [hide] clears it), [Acquiring] when it has an outstanding creation
    request, [Idle] otherwise.  [event_ops] says which operations an event
    may perform on an instance: a trigger shows it, a response completes
    its acquisition when it answers the instance's creation request, and
    every event but [show] may hide it (the backdrop's "hidden" handlers
    hide every active instance).

    [step_refines] is the simulation: every event moves every instance
    along a path of the abstract machine, provided every outstanding
    creation request is the one the instance records in [self.ajaxXHR]
    ([create_recorded], the "at most one creation request per instance"
    rule of spec 5).  [show_twice_hide_reacquires] shows that the
    proviso is needed: after two remote [show]s the second request
    survives [hide], and the instance goes from [Shown] to [Acquiring]. *)

From stdpp Require Import base list sets gmap strings relations.
From Stdlib Require Import String.
From S2P Require Import Prelude Config Actions Backdrop Lifecycle Invariants.

Local Open Scope list_scope.
Local Set Warnings "-clear-no-such-hyp".

Create HintDb view_db.
Create HintDb closes_db.

Module Refinement.
Import Config Actions Lifecycle Invariants.

(** ** The abstract machine *)

Inductive Phase := Idle | Acquiring | Shown.

#[export] Instance Phase_eq_dec : EqDecision Phase.
Proof. solve_decision. Defined.

Inductive Op := OShow | ORespond | OHide.

(** [show] acquires remote content, or renders direct content at once;
    the creation response renders the content, or, when the request
    fails, leaves the instance idle (the specification names no state for
    a failed acquisition); [hide] closes from any phase. *)
Inductive spec_step : Op -> Phase -> Phase -> Prop :=
| spec_acquire : spec_step OShow Idle Acquiring
| spec_direct : spec_step OShow Idle Shown
| spec_arrive : spec_step ORespond Acquiring Shown
| spec_fail : spec_step ORespond Acquiring Idle
| spec_hide p : spec_step OHide p Idle.

Section Abstraction.
Context {B : Type} `{BackdropOps B}.

Definition is_create (p : Pending) : bool :=
  match p_kind p with PCreate => true | PAction _ _ => false end.

(** Instance [j] has an outstanding creation request. *)
Definition acquiring (w : World B) (j : nat) : bool :=
  existsb (fun p => is_create p && Nat.eqb (p_inst p) j) (pending w).

Definition phase (w : World B) (j : nat) : Phase :=
  match inst_at w j with
  | None => Idle
  | Some x => if el_active x then Shown else if acquiring w j then Acquiring else Idle
  end.

(** Spec 5: every outstanding creation request is the one its instance
    records in [self.ajaxXHR], and that instance's strategy is the remote
    one. *)
Definition create_recorded (w : World B) : Prop :=
  forall p, p ∈ pending w -> is_create p = true ->
    exists x, inst_at w (p_inst p) = Some x /\ ajaxXHR x = Some (p_id p) /\ createModal x = CreateAjax.

(** [create_recorded] decided. *)
Definition create_recordedb (w : World B) : bool :=
  forallb (fun p => negb (is_create p) ||
    match inst_at w (p_inst p) with
    | Some x => bool_decide (ajaxXHR x = Some (p_id p)) && bool_decide (createModal x = CreateAjax)
    | None => false
    end) (pending w).

(** The operations event [e] may perform on instance [j]. *)
Definition event_ops (w : World B) (e : Event) (j : nat) (o : Op) : Prop :=
  match e with
  | EvShow i => o = OShow /\ i = j
  | EvAction i _ _ => o = OHide \/ (o = OShow /\ i = j)
  | EvRespond r _ => o = OHide \/
      (o = ORespond /\ exists p, p ∈ pending w /\ p_id p = r /\ p_inst p = j /\ is_create p = true)
  | EvHide _ | EvEscape | EvWrapperClick => o = OHide
  | EvProxyClick n _ => o = OHide \/ (o = OShow /\ node_owner <$> nodes w !! n = Some j)
  | EvCloseClick _ => o = OHide
  | EvResize _ | EvImageLoad _ | EvDialogClick _ => False
  end.

Definition abstract_step (w : World B) (e : Event) (j : nat) : relation Phase :=
  fun p p' => exists o, event_ops w e j o /\ spec_step o p p'.

(** ** Operations that keep the phases: the view *)

(** The fields of an instance the phase and [create_recorded] read. *)
Definition rec (x : Inst) : bool * option nat * Strategy := (el_active x, ajaxXHR x, createModal x).

Definition same_view (w w' : World B) : Prop :=
  rec <$> insts w' = rec <$> insts w /\ pending w' = pending w.

#[export] Instance same_view_preorder : PreOrder same_view.
Proof.
  split; [by intros w|]. intros w1 w2 w3 [A1 P1] [A2 P2]. split; congruence.
Qed.

Lemma create_recorded_reflect (w : World B) : create_recordedb w = true <-> create_recorded w.
Proof.
  unfold create_recordedb, create_recorded. rewrite forallb_forall. split.
  - intros Hf p Hp%list_elem_of_In Hk. specialize (Hf p Hp). rewrite Hk in Hf. simpl in Hf.
    destruct (inst_at w (p_inst p)) as [x|]; [|discriminate].
    apply andb_true_iff in Hf as [H1%bool_decide_eq_true_1 H2%bool_decide_eq_true_1]. eauto.
  - intros Hc p Hp%list_elem_of_In. destruct (is_create p) eqn:Hk; [|done].
    destruct (Hc p Hp Hk) as (x & -> & H1 & H2). simpl. by rewrite !bool_decide_eq_true_2.
Qed.

Lemma rec_lookup (w w' : World B) j x :
  rec <$> insts w' = rec <$> insts w -> inst_at w j = Some x ->
  exists x', inst_at w' j = Some x' /\ rec x' = rec x.
Proof.
  intros Hr Hx. assert (E : rec <$> inst_at w' j = rec <$> inst_at w j)
    by (unfold inst_at; by rewrite <- !list_lookup_fmap, Hr).
  rewrite Hx in E. apply fmap_Some in E as (x' & ? & ?). eauto.
Qed.

Lemma phase_inst (w : World B) j x :
  inst_at w j = Some x ->
  phase w j = if el_active x then Shown else if acquiring w j then Acquiring else Idle.
Proof. intros Hx. unfold phase. by rewrite Hx. Qed.

Lemma phase_upd_ne i j f (w : World B) : i <> j -> phase (upd_inst i f w) j = phase w j.
Proof. intros Hne. unfold phase. by rewrite inst_at_upd_ne. Qed.

Lemma acquiring_upd i j f (w : World B) : acquiring (upd_inst i f w) j = acquiring w j.
Proof. done. Qed.

Lemma same_view_phase (w w' : World B) j : same_view w w' -> phase w' j = phase w j.
Proof.
  intros [Hr Hp]. unfold phase, acquiring. rewrite Hp.
  destruct (inst_at w j) as [x|] eqn:Hx.
  - destruct (rec_lookup w w' j x Hr Hx) as (x' & -> & Hxx). by injection Hxx as -> _ _.
  - destruct (inst_at w' j) as [x'|] eqn:Hx'; [|done].
    destruct (rec_lookup w' w j x' (eq_sym Hr) Hx') as (? & ? & _). congruence.
Qed.

Lemma same_view_recorded (w w' : World B) : same_view w w' -> create_recorded w -> create_recorded w'.
Proof.
  intros [Hr Hp] Hc p Hin Hk. rewrite Hp in Hin. destruct (Hc p Hin Hk) as (x & Hx & Hxhr & Hcm).
  destruct (rec_lookup w w' _ x Hr Hx) as (x' & Hx' & Hxx). injection Hxx as _ E1 E2.
  exists x'. split_and!; congruence.
Qed.

Lemma view_upd_inst i f (w : World B) : (forall x, rec (f x) = rec x) -> same_view w (upd_inst i f w).
Proof.
  intros Hf. split; [|done]. simpl. rewrite (list_fmap_alter _ _ id); [by apply list_alter_id|].
  apply Forall_forall. intros x _. apply Hf.
Qed.

(** The operations that touch neither the instances nor the requests,
    stated on a variable world. *)
Lemma view_trigger i s (w : World B) : same_view w (trigger i s w).
Proof. done. Qed.
Lemma view_push_log e (w : World B) : same_view w (push_log e w).
Proof. done. Qed.
Lemma view_set_wrapper b (w : World B) : same_view w (set_wrapper b w).
Proof. done. Qed.
Lemma view_set_overflow b (w : World B) : same_view w (set_overflow b w).
Proof. done. Qed.
Lemma view_set_loading b (w : World B) : same_view w (set_loading b w).
Proof. done. Qed.
Lemma view_set_backdrop b (w : World B) : same_view w (set_backdrop b w).
Proof. done. Qed.
Lemma view_set_next n (w : World B) : same_view w (set_next n w).
Proof. done. Qed.
Lemma view_set_nodes n (w : World B) : same_view w (set_nodes n w).
Proof. done. Qed.
Lemma view_set_mounted m (w : World B) : same_view w (set_mounted m w).
Proof. done. Qed.
Lemma view_showLoading c (w : World B) : same_view w (showLoading c w).
Proof. done. Qed.
Lemma view_unmount n (w : World B) : same_view w (unmount n w).
Proof. done. Qed.
Lemma view_activate n (w : World B) : same_view w (activate n w).
Proof. done. Qed.
Lemma view_upd_page f (w : World B) : same_view w (upd_page f w).
Proof. done. Qed.
Lemma view_position_modal `{PageEnv} i (w : World B) : same_view w (position_modal i w).
Proof. apply (position_modal_preserved same_view). intros n pl. apply view_upd_page. Qed.

End Abstraction.

#[export] Hint Extern 1 (same_view ?w (trigger _ _ ?w)) => apply view_trigger : view_db.
#[export] Hint Extern 1 (same_view ?w (push_log _ ?w)) => apply view_push_log : view_db.
#[export] Hint Extern 1 (same_view ?w (set_wrapper _ ?w)) => apply view_set_wrapper : view_db.
#[export] Hint Extern 1 (same_view ?w (set_overflow _ ?w)) => apply view_set_overflow : view_db.
#[export] Hint Extern 1 (same_view ?w (set_loading _ ?w)) => apply view_set_loading : view_db.
#[export] Hint Extern 1 (same_view ?w (set_backdrop _ ?w)) => apply view_set_backdrop : view_db.
#[export] Hint Extern 1 (same_view ?w (set_next _ ?w)) => apply view_set_next : view_db.
#[export] Hint Extern 1 (same_view ?w (set_nodes _ ?w)) => apply view_set_nodes : view_db.
#[export] Hint Extern 1 (same_view ?w (set_mounted _ ?w)) => apply view_set_mounted : view_db.
#[export] Hint Extern 1 (same_view ?w (showLoading _ ?w)) => apply view_showLoading : view_db.
#[export] Hint Extern 1 (same_view ?w (unmount _ ?w)) => apply view_unmount : view_db.
#[export] Hint Extern 1 (same_view ?w (activate _ ?w)) => apply view_activate : view_db.
#[export] Hint Extern 1 (same_view ?w (upd_page _ ?w)) => apply view_upd_page : view_db.
#[export] Hint Extern 1 (same_view ?w (position_modal _ ?w)) => apply view_position_modal : view_db.
#[export] Hint Extern 1 (same_view ?w (upd_inst _ _ ?w)) => apply view_upd_inst; intros; reflexivity : view_db.

Ltac view := peel ltac:(eauto 4 with view_db).

(** ** Operations that can only close: [closes] *)

Section Closes.
Context {B : Type} `{BackdropOps B}.

(** No instance starts acquiring, and, while [create_recorded] holds, it
    keeps holding and every instance keeps its phase or becomes idle. *)
Definition closes (w w' : World B) : Prop :=
  (forall j, acquiring w' j = true -> acquiring w j = true) /\
  (create_recorded w -> create_recorded w' /\ forall j, phase w' j = phase w j \/ phase w' j = Idle).

#[export] Instance closes_preorder : PreOrder closes.
Proof.
  split; [intros w; split; [done|intros Hc; split; [done|intros j; by left]]|].
  intros w1 w2 w3 [A12 C12] [A23 C23]. split; [auto|]. intros Hc1.
  destruct (C12 Hc1) as [Hc2 P12]. destruct (C23 Hc2) as [Hc3 P23]. split; [done|].
  intros j. destruct (P23 j) as [->|]; [apply P12|by right].
Qed.

Lemma acquiring_elem (w : World B) j :
  acquiring w j = true <-> exists p, p ∈ pending w /\ is_create p = true /\ p_inst p = j.
Proof.
  unfold acquiring. rewrite existsb_exists. setoid_rewrite list_elem_of_In.
  setoid_rewrite andb_true_iff. setoid_rewrite Nat.eqb_eq. naive_solver.
Qed.

(** A step that keeps the recorded fields of every instance and adds no
    creation request. *)
Lemma closes_intro (w w' : World B) :
  rec <$> insts w' = rec <$> insts w ->
  (forall p, p ∈ pending w' -> p ∈ pending w \/ is_create p = false) -> closes w w'.
Proof.
  intros Hr Hp.
  assert (Ha : forall j, acquiring w' j = true -> acquiring w j = true).
  { intros j (p & Hin & Hk & Hj)%acquiring_elem. apply acquiring_elem.
    destruct (Hp p Hin) as [?|?]; [eauto|congruence]. }
  split; [done|]. intros Hc. split.
  - intros p Hin Hk. destruct (Hp p Hin) as [Hin'|]; [|congruence].
    destruct (Hc p Hin' Hk) as (x & Hx & Hxhr & Hcm).
    destruct (rec_lookup w w' _ x Hr Hx) as (x' & Hx' & Hxx). injection Hxx as _ E1 E2.
    exists x'. split_and!; congruence.
  - intros j. destruct (inst_at w j) as [x|] eqn:Hx.
    + destruct (rec_lookup w w' j x Hr Hx) as (x' & Hx' & Hxx). injection Hxx as E _ _.
      rewrite (phase_inst w' j x' Hx'), (phase_inst w j x Hx), E.
      destruct (el_active x); [by left|]. destruct (acquiring w' j) eqn:Ha'; [|by right].
      rewrite (Ha j Ha'). by left.
    + destruct (inst_at w' j) as [x'|] eqn:Hx'; [|left; unfold phase; by rewrite Hx, Hx'].
      destruct (rec_lookup w' w j x' (eq_sym Hr) Hx') as (? & ? & _). congruence.
Qed.

Lemma same_view_closes (w w' : World B) : same_view w w' -> closes w w'.
Proof. intros [Hr Hp]. apply closes_intro; [done|]. rewrite Hp. by left. Qed.

Lemma closes_filter_pending (P : Pending -> Prop) `{forall p, Decision (P p)} (w : World B) :
  closes w (set_pending (filter P (pending w)) w).
Proof. apply closes_intro; [done|]. intros p Hp%list_elem_of_filter. left. apply Hp. Qed.

Lemma closes_abort_xhr i (w : World B) : closes w (abort_xhr i w).
Proof. unfold abort_xhr. case_match; [apply closes_filter_pending|reflexivity]. Qed.

(** An action's request adds no creation request. *)
Lemma closes_issue_action i ao k (w : World B) : closes w (issue i (PAction ao k) w).
Proof.
  apply closes_intro; [done|]. intros p [Hp| ->%list_elem_of_singleton]%elem_of_app; [by left|by right].
Qed.

(** [hide] aborts the request [self.ajaxXHR] records, which is, under
    [create_recorded], every creation request of the instance. *)
Lemma abort_xhr_idle i (w : World B) : create_recorded w -> acquiring (abort_xhr i w) i = false.
Proof.
  intros Hc. apply not_true_iff_false. intros (p & Hin & Hk & <-)%acquiring_elem.
  unfold abort_xhr in Hin |- *. destruct (Hc p) as (x & Hx & Hxhr & _).
  { destruct (inst_at w (p_inst p) ≫= ajaxXHR); [|done]. by apply list_elem_of_filter in Hin as [_ ?]. }
  { done. }
  rewrite Hx in Hin. simpl in Hin. rewrite Hxhr in Hin. apply list_elem_of_filter in Hin as [Hn _]. done.
Qed.

(** An update of the instance [i] that may clear [active] and change its
    strategy, once [i] has no creation request. *)
Lemma closes_upd_idle i f (w0 w : World B) :
  closes w0 w -> (create_recorded w0 -> acquiring w i = false) ->
  (forall x, ajaxXHR (f x) = ajaxXHR x /\ (el_active (f x) = false \/ el_active (f x) = el_active x)) ->
  closes w0 (upd_inst i f w).
Proof.
  intros [A C] N Hf. split; [exact A|]. intros Hc0. destruct (C Hc0) as [Hc Hph]. specialize (N Hc0).
  split.
  - intros p Hin Hk. destruct (Hc p Hin Hk) as (x & Hx & Hxhr & Hcm).
    destruct (decide (i = p_inst p)) as [->|Hne].
    + exfalso. assert (acquiring w (p_inst p) = true) as Ha by (apply acquiring_elem; eauto). congruence.
    + exists x. by rewrite inst_at_upd_ne.
  - intros j. destruct (decide (i = j)) as [<-|Hne].
    + unfold phase at 1 3. rewrite inst_at_upd_eq. destruct (inst_at w i) as [x|] eqn:Hx; [|simpl; by right].
      cbn [fmap option_fmap option_map]. change (acquiring (upd_inst i f w) i) with (acquiring w i).
      destruct (Hf x) as [_ [->|E]]; [by rewrite N; right|]. rewrite E.
      rewrite <- (phase_inst w i x Hx). apply Hph.
    + rewrite phase_upd_ne by done. apply Hph.
Qed.

Lemma closes_fold {A} (g : World B -> A -> World B) (l : list A) (w w1 : World B) :
  closes w w1 -> (forall w a, closes w (g w a)) -> closes w (fold_left g l w1).
Proof.
  intros H1 Hg. revert w1 H1. induction l as [|a l IH]; intros w1 H1; simpl; [done|].
  apply IH. etransitivity; [exact H1|apply Hg].
Qed.

End Closes.

#[export] Hint Extern 1 (closes ?w (set_pending (filter _ (pending ?w)) ?w)) => apply closes_filter_pending : closes_db.
#[export] Hint Extern 1 (closes ?w (abort_xhr _ ?w)) => apply closes_abort_xhr : closes_db.
#[export] Hint Extern 1 (closes ?w (issue _ (PAction _ _) ?w)) => apply closes_issue_action : closes_db.
#[export] Hint Extern 2 (closes ?w _) => apply same_view_closes; solve [eauto 4 with view_db] : closes_db.

Ltac close := peel ltac:(eauto 4 with closes_db).

(** ** The lifecycle operations *)

Section Ops.
Context {B : Type} `{BackdropOps B} {hq : HtmlQuery} {env : PageEnv}.

(** [render] and [redraw] change no field the phases read. *)
Lemma render_view i (w : World B) : same_view w (render i w).
Proof. unfold render, default_render. cbv zeta. view. Qed.

#[local] Hint Extern 1 (same_view ?w (render _ ?w)) => apply render_view : view_db.

Lemma redraw_view i r (w : World B) : same_view w (redraw i r w).
Proof. unfold redraw. cbv zeta. view. Qed.
#[local] Hint Extern 1 (same_view ?w (redraw _ _ ?w)) => apply redraw_view : view_db.

Lemma closes_backdrop_hide (h : nat -> World B -> World B) (w : World B) :
  (forall j w, closes w (h j w)) -> closes w (backdrop_hide h w).
Proof.
  intros Hh. unfold backdrop_hide. case_match. case_match; [|close].
  apply closes_fold; [close|]. intros w' j. case_match; [apply Hh|reflexivity].
Qed.

(** One level of [hide] closes when the nested ones do: [abort_xhr]
    removes every creation request of the instance before its [active]
    class and its strategy are reset. *)
Lemma closes_hide_body (h : nat -> World B -> World B) i (w : World B) :
  (forall j w, closes w (h j w)) -> closes w (hide_body h i w).
Proof.
  intros Hh. unfold hide_body. cbv zeta.
  pose proof (closes_abort_xhr i w) as C1. pose proof (abort_xhr_idle i w) as N1.
  set (w1 := abort_xhr i w) in *. clearbody w1.
  set (w4 := set_loading false (if bool_decide _ then _ else _)).
  assert (C4 : closes w1 w4).
  { unfold w4. transitivity (trigger i "hide" w1); [close|].
    case_bool_decide; [|close]. transitivity (backdrop_hide h (trigger i "hide" w1)); [|close].
    by apply closes_backdrop_hide. }
  assert (N4 : create_recorded w -> acquiring w4 i = false).
  { intros Hc. apply not_true_iff_false. intros Ha%(proj1 C4). by rewrite N1 in Ha. }
  assert (C5 : closes w (upd_inst i (with_el_active false) w4)).
  { apply closes_upd_idle; [by etransitivity|done|]. intros x. split; [done|by left]. }
  clearbody w4. set (w5 := upd_inst i (with_el_active false) w4) in *.
  transitivity (match inst_at w5 i ≫= modal with
                | Some n => upd_inst i (fun x => with_create (initModal (options x)) x) (unmount n w5)
                | None => w5 end); [|close].
  case_match; [|done]. apply closes_upd_idle; [|exact N4|intros x; split; [done|by right]].
  etransitivity; [exact C5|close].
Qed.

Lemma closes_hide f i (w : World B) : closes w (hide f i w).
Proof.
  revert i w. induction f as [|f IH]; intros i w; [reflexivity|].
  apply closes_hide_body. intros j w'. apply IH.
Qed.
#[local] Hint Extern 1 (closes ?w (hide _ _ ?w)) => apply closes_hide : closes_db.
#[local] Hint Extern 1 (closes ?w (backdrop_hide (hide _) ?w)) =>
  apply closes_backdrop_hide; intros; apply closes_hide : closes_db.

(** The effects that do not call [show]. *)
Definition shows (e : Effect) : bool :=
  match e with ECallModalFunction f => String.eqb f "show" | _ => false end.

Lemma closes_run_effect i ao e (w : World B) : shows e = false -> closes w (run_effect i ao e w).
Proof.
  intros He. destruct e; simpl in He; unfold run_effect; try solve [close].
  case_match; [close|]. rewrite He. reflexivity.
Qed.

Lemma closes_run_effects i ao es (w : World B) :
  Forall (fun e => shows e = false) es -> closes w (run_effects i ao es w).
Proof.
  intros Hes. revert w. induction Hes as [|e es He _ IH]; intros w; simpl; [reflexivity|].
  destruct e; try (etransitivity; [apply (closes_run_effect i ao)|apply IH]); done.
Qed.

End Ops.

#[export] Hint Extern 1 (closes ?w (hide _ _ ?w)) => apply closes_hide : closes_db.
#[export] Hint Extern 1 (closes ?w (backdrop_hide (hide _) ?w)) =>
  apply closes_backdrop_hide; intros; apply closes_hide : closes_db.

#[export] Hint Extern 1 (same_view ?w (render _ ?w)) => apply render_view : view_db.
#[export] Hint Extern 1 (same_view ?w (redraw _ _ ?w)) => apply redraw_view : view_db.

(** ** The operations that open *)

Section Opens.
Context {B : Type} `{BackdropOps B} {hq : HtmlQuery} {env : PageEnv}.

Lemma view_shown i (u : World B) :
  same_view u (match inst_at u i ≫= modal with
               | None => u
               | Some n =>
                   trigger i "shown" (upd_page (page_bind_resize i) (upd_page (page_bind_img i n)
                     (position_modal i (upd_page (page_scan n) (activate n u)))))
               end).
Proof. case_match; view. Qed.

(** [_show] sets [active] on the instance and on no other one. *)
Lemma _show_phase i (v : World B) :
  (forall j, i <> j -> phase (_show i v) j = phase v j) /\
  (is_Some (inst_at v i) -> phase (_show i v) i = Shown).
Proof.
  unfold _show. cbv zeta. set (v5 := set_overflow true _).
  assert (V5 : same_view v v5) by (unfold v5; view). clearbody v5.
  split; [intros j Hne|intros [x Hx]]; rewrite (same_view_phase _ _ _ (view_shown i _)).
  - rewrite phase_upd_ne by done. apply (same_view_phase _ _ j V5).
  - destruct (rec_lookup v v5 i x (proj1 V5) Hx) as (x' & Hx' & _).
    unfold phase. by rewrite inst_at_upd_eq, Hx'.
Qed.

Lemma ajax_done_phase i r (w : World B) :
  (forall j, i <> j -> phase (ajax_done i r w) j = phase w j) /\
  (is_Some (inst_at w i) -> phase (ajax_done i r w) i = Shown).
Proof.
  unfold ajax_done. cbv zeta.
  destruct (_show_phase i (trigger i "after-ajax" (upd_inst i (with_raw (Some (parseBodyTag r)))
    (set_loading false (upd_inst i (with_xhr None) w))))) as [Hne Hi].
  split.
  - intros j Hj. rewrite (Hne j Hj).
    change (phase (upd_inst i (with_raw (Some (parseBodyTag r)))
      (set_loading false (upd_inst i (with_xhr None) w))) j = phase w j).
    rewrite phase_upd_ne by done. change (phase (upd_inst i (with_xhr None) w) j = phase w j).
    by rewrite phase_upd_ne.
  - intros [x Hx]. apply Hi. unfold inst_at. simpl. rewrite !list_lookup_alter_eq.
    unfold inst_at in Hx. by rewrite Hx.
Qed.

(** The creation request belongs to the instance that issued it. *)
Lemma acquiring_issue (w : World B) i j k :
  acquiring (issue i k w) j = acquiring w j || (is_create (Build_Pending (next_id w) i k) && Nat.eqb i j).
Proof.
  unfold acquiring, issue. cbn [pending set_next set_pending]. rewrite existsb_app.
  cbn [existsb p_inst]. by rewrite orb_false_r.
Qed.

(** A show that renders at once: from [Idle] to [Shown]; an instance
    with a strategy other than the remote one has no creation request. *)
Lemma direct_opens i f x (w : World B) :
  create_recorded w -> inst_at w i = Some x -> createModal x <> CreateAjax ->
  (forall j, i <> j -> phase (_show i (upd_inst i f w)) j = phase w j) /\
  (phase (_show i (upd_inst i f w)) i = phase w i \/
   phase w i = Idle /\ (phase (_show i (upd_inst i f w)) i = Acquiring \/
                        phase (_show i (upd_inst i f w)) i = Shown)).
Proof.
  intros Hc Hx Hcm. destruct (_show_phase i (upd_inst i f w)) as [Hne Hi].
  assert (Hs : phase (_show i (upd_inst i f w)) i = Shown)
    by (apply Hi; rewrite inst_at_upd_eq, Hx; by eexists).
  split; [intros j Hj; rewrite (Hne j Hj); by apply phase_upd_ne|]. rewrite Hs.
  rewrite (phase_inst w i x Hx). destruct (el_active x); [by left|right].
  destruct (acquiring w i) eqn:Ha; [|split; [done|by right]].
  apply acquiring_elem in Ha as (p & Hin & Hk & <-).
  destruct (Hc p Hin Hk) as (y & Hy & _ & Hcy). congruence.
Qed.

(** [show]: no other instance changes phase; the instance stays, or goes
    from [Idle] to [Acquiring] (remote content) or to [Shown]. *)
Lemma show_opens i (w : World B) :
  create_recorded w ->
  (forall j, i <> j -> phase (show i w) j = phase w j) /\
  (phase (show i w) i = phase w i \/
   phase w i = Idle /\ (phase (show i w) i = Acquiring \/ phase (show i w) i = Shown)).
Proof.
  intros Hc. unfold show. destruct (inst_at w i) as [x|] eqn:Hx; [|split; [done|by left]].
  destruct (createModal x) eqn:Hcm.
  2-4: unfold createTargetModal, createHtmlModal, createBasicModal; rewrite Hx;
    apply (direct_opens i _ x w Hc Hx); congruence.
  unfold createAjaxModal. cbv zeta. split.
  - intros j Hj. rewrite phase_upd_ne by done. unfold phase. rewrite acquiring_issue.
    rewrite (proj2 (Nat.eqb_neq i j) Hj), andb_false_r, orb_false_r. done.
  - match goal with |- context [phase (upd_inst ?a ?b ?c) i] =>
      assert (E : phase (upd_inst a b c) i = if el_active x then Shown else Acquiring) end.
    { unfold phase. rewrite inst_at_upd_eq, acquiring_upd, acquiring_issue. unfold inst_at at 1.
      simpl. unfold inst_at in Hx. rewrite Hx. simpl. by rewrite Nat.eqb_refl, orb_true_r. }
    rewrite E, (phase_inst w i x Hx). destruct (el_active x); [by left|].
    destruct (acquiring w i); [by left|by right; split; [|left]].
Qed.

End Opens.

(** ** The simulation *)

Section Simulation.
Context {B : Type} `{BackdropOps B} {hq : HtmlQuery} {env : PageEnv}.

Lemma stay_or_hide (w : World B) e j p p' :
  event_ops w e j OHide -> p' = p \/ p' = Idle -> rtc (abstract_step w e j) p p'.
Proof. intros Ho [->| ->]; [apply rtc_refl|apply rtc_once; exists OHide; split; [done|constructor]]. Qed.

Lemma closes_refines (w w' : World B) e j :
  closes w w' -> create_recorded w -> event_ops w e j OHide ->
  rtc (abstract_step w e j) (phase w j) (phase w' j).
Proof. intros [_ C] Hc Ho. apply stay_or_hide; [done|]. apply (proj2 (C Hc)). Qed.

(** An event that may show instance [i] and does what [show_opens] says. *)
Lemma opens_refines (w w' : World B) e i j :
  (event_ops w e j OShow <-> i = j) ->
  (forall j, i <> j -> phase w' j = phase w j) ->
  (phase w' i = phase w i \/ phase w i = Idle /\ (phase w' i = Acquiring \/ phase w' i = Shown)) ->
  rtc (abstract_step w e j) (phase w j) (phase w' j).
Proof.
  intros Ho Hne Hi. destruct (decide (i = j)) as [<-|Hj]; [|rewrite (Hne j Hj); apply rtc_refl].
  destruct Hi as [->|(-> & [->| ->])]; [apply rtc_refl| |]; apply rtc_once; exists OShow;
    (split; [by apply Ho|constructor]).
Qed.

Lemma form_redirect_no_show ao r l :
  form_redirect ao r = Some l -> Forall (fun e => shows e = false) l.
Proof.
  unfold form_redirect. repeat case_match; intros Hl; simplify_eq; try by repeat constructor.
  apply fmap_Some in Hl as (u & _ & ->). by repeat constructor.
Qed.

(** The completion callbacks never call [show]. *)
Lemma complete_no_show ao k o : Forall (fun e => shows e = false) (complete ao k o).
Proof.
  assert (He : forall t, Forall (fun e => shows e = false) (error_callbacks ao t))
    by (intros t; unfold error_callbacks; repeat case_match; by repeat constructor).
  destruct k, o as [t|r]; simpl; unfold form_complete, link_complete;
    repeat (apply Forall_app_2 || case_match); try apply He; try by repeat constructor.
  by eapply form_redirect_no_show.
Qed.

Lemma on_escape_closes (w : World B) : closes w (on_escape w).
Proof.
  unfold on_escape. cbv zeta. apply closes_fold; [close|]. intros w' j. close.
Qed.

Lemma on_wrapper_click_closes (w : World B) : closes w (on_wrapper_click w).
Proof. unfold on_wrapper_click. close. Qed.

End Simulation.

Section Events.
Context {B : Type} `{BackdropOps B} {hq : HtmlQuery} {env : PageEnv}.

Lemma show_refines (w v : World B) e i j :
  same_view w v -> create_recorded w -> (event_ops w e j OShow <-> i = j) ->
  rtc (abstract_step w e j) (phase w j) (phase (show i v) j).
Proof.
  intros V Hc Ho. destruct (show_opens i v (same_view_recorded _ _ V Hc)) as [Hne Hi].
  apply (opens_refines w _ e i j Ho).
  - intros k Hk. rewrite (Hne k Hk). by apply same_view_phase.
  - rewrite <- (same_view_phase w v i V). exact Hi.
Qed.

Lemma handler_no_show ao el :
  Forall (fun e => shows e = false) (handleFormAction ao el) /\
  Forall (fun e => shows e = false) (handleLinkAction ao el).
Proof. unfold handleFormAction, handleLinkAction. split; repeat case_match; by repeat constructor. Qed.

(** An action handler shows the loading indicator and then calls the
    modal function, submits a form or follows a link. *)
Lemma action_refines e i key el (w : World B) j :
  create_recorded w -> event_ops w e j OHide -> (event_ops w e j OShow <-> i = j) ->
  rtc (abstract_step w e j) (phase w j) (phase (on_action i key el w) j).
Proof.
  intros Hc Hh Hs. unfold on_action. repeat (case_match; [|apply rtc_refl]). cbv zeta.
  set (ao := merge_action_opts _ _). unfold action_handler.
  destruct (classify ao a el) eqn:Hcl.
  2-4: apply (closes_refines w); [apply closes_run_effects|done|done];
    destruct (handler_no_show ao el); by repeat (apply Forall_app_2 || constructor).
  cbn [app run_effects]. unfold run_effect at 1 2 3.
  destruct (String.eqb name "hide"); [apply (closes_refines w); [close|done|done]|].
  destruct (String.eqb name "show"); [|apply (closes_refines w); [close|done|done]].
  by apply show_refines; [apply view_showLoading|..].
Qed.

(** A response completes a request: a creation request's success shows its
    instance, anything else can only close. *)
Lemma respond_refines r o (w : World B) j :
  create_recorded w ->
  rtc (abstract_step w (EvRespond r o) j) (phase w j) (phase (on_response r o w) j).
Proof.
  intros Hc. assert (Hh : event_ops w (EvRespond r o) j OHide) by (by left).
  unfold on_response. destruct (list_find _ (pending w)) as [[k p]|] eqn:Hf; [|apply rtc_refl].
  apply list_find_Some in Hf as (Hk%list_elem_of_lookup_2 & Hpr & _).
  pose proof (closes_filter_pending (fun q => p_id q <> r) w) as C1.
  set (w1 := set_pending _ w) in *.
  destruct (p_kind p) eqn:Hkind; [destruct o as [t|resp]|].
  - by apply (closes_refines w w1).
  - destruct (ajax_done_phase (p_inst p) resp w1) as [Hne Hi].
    destruct (decide (p_inst p = j)) as [<-|Hj]; [|rewrite (Hne j Hj); by apply (closes_refines w w1)].
    assert (Hcr : is_create p = true) by (unfold is_create; by rewrite Hkind).
    destruct (Hc p Hk Hcr) as (x & Hx & _). rewrite Hi by (exists x; exact Hx).
    rewrite (phase_inst w _ x Hx). assert (Ha : acquiring w (p_inst p) = true) by (apply acquiring_elem; eauto).
    rewrite Ha. destruct (el_active x); [apply rtc_refl|]. apply rtc_once. exists ORespond.
    split; [right; split; [done|exists p; eauto]|constructor].
  - apply (closes_refines w); [|done|done]. etransitivity; [exact C1|].
    apply closes_run_effects, complete_no_show.
Qed.

End Events.

Section Refines.
Context {B : Type} `{BackdropOps B} {hq : HtmlQuery} {env : PageEnv}.

(** C38. Refinement of the lifecycle state machine: in a page where every
    outstanding creation request is the one its instance records in
    [self.ajaxXHR] (spec 5), every event moves every instance along a path
    of the specification's machine, using only the operations the event
    may perform on it: a trigger shows only its own instance, from idle to
    acquiring or shown; an action, or a click on a button proxy, shows
    only the instance that rendered the dialog; a response completes only
    the acquisition it answers; and every other change is a close to
    idle, a resize, an image load or a plain click on a dialog changing
    no phase. *)
Theorem step_refines e (w : World B) j :
  create_recorded w -> rtc (abstract_step w e j) (phase w j) (phase (step e w) j).
Proof.
  intros Hc. destruct e; cbn [step].
  - apply show_refines; [reflexivity|done|simpl; naive_solver].
  - apply closes_refines; [apply closes_hide|done|done].
  - apply closes_refines; [apply on_escape_closes|done|done].
  - apply closes_refines; [apply on_wrapper_click_closes|done|done].
  - apply action_refines; [done|by left|simpl; naive_solver].
  - by apply respond_refines.
  - rewrite (same_view_phase w (on_resize vp w)); [apply rtc_refl|]. unfold on_resize. cbv zeta.
    apply (fold_left_rel same_view); [apply (fold_left_rel same_view); [view|]|]; intros; view.
  - rewrite (same_view_phase w (on_image_load n w)); [apply rtc_refl|]. unfold on_image_load. cbv zeta.
    apply (fold_left_rel same_view); [view|]. intros w' [k m]. view.
  - unfold on_proxy_click. destruct (nodes w !! n) as [nd|] eqn:Hn; [|apply rtc_refl].
    case_bool_decide; [|apply rtc_refl]. repeat (case_match; try apply rtc_refl).
    apply action_refines; [done|by left|]. simpl. rewrite Hn. simpl. naive_solver.
  - unfold on_close_click. case_match; [case_match|]; try apply rtc_refl.
    apply closes_refines; [apply closes_hide|done|done].
  - rewrite (same_view_phase w (on_dialog_click n w)); [apply rtc_refl|]. unfold on_dialog_click.
    case_bool_decide; [apply view_push_log|reflexivity].
Qed.

(** Under an event that can only hide, the machine only closes. *)
Lemma hide_event_rtc (w : World B) e j p p' :
  (forall o, event_ops w e j o -> o = OHide) -> rtc (abstract_step w e j) p p' -> p' = p \/ p' = Idle.
Proof.
  intros Ho. induction 1 as [|p1 p2 p3 (o & Hop & Hs) _ IH]; [by left|right].
  apply Ho in Hop as ->. inversion Hs; subst. destruct IH as [->| ->]; [done|done].
Qed.

End Refines.

(** A remote dialog shown twice, after the answer to the first request. *)
Definition twice_shown : World SimpleBackdrop :=
  run [EvShow 0; EvShow 0; EvRespond (next_id sample_world) (Success "<p>hi</p>")] sample_world.

Lemma step_refines_witness :
  let w := run [EvShow 0] sample_world in
  let e := EvRespond (next_id sample_world) (Success "<p>hi</p>") in
  create_recorded w /\
  rtc (abstract_step w e 0) (phase w 0) (phase (step (hq := literal_query) (env := sample_env) e w) 0).
Proof.
  cbv zeta. assert (Hc : create_recorded (run [EvShow 0] sample_world))
    by (apply create_recorded_reflect; vm_compute; reflexivity).
  split; [exact Hc|]. exact (step_refines (hq := literal_query) (env := sample_env) _ _ 0 Hc).
Defined.


End Refinement.
