(* ===== verification/Quiescence.v ===== *)
(** * Quiescence: every outstanding request is eventually answered

    The page issues background requests in two places: [createAjaxModal]
    (the creation request) and the action handlers ([handleFormAction],
    [handleLinkAction]).  Their completion callbacks ([ajax_done],
    [form_complete], [link_complete], run by [on_response]) redraw, hide,
    destroy or run user callbacks, but never issue a request.  So when the
    environment answers the outstanding requests, whatever the answers,
    the queue empties: [drain] answers the oldest request as many times as
    there are requests, and [drain_quiesces] proves nothing is left.

    [drains] is the preorder "the outstanding requests are a sublist of
    the former ones"; as elsewhere, each operation is proved monotone by
    [peel] with the hints of [drains_db]. *)

From stdpp Require Import base list sets gmap strings.
From Stdlib Require Import String.
From S2P Require Import Prelude Config Actions Backdrop Lifecycle Invariants Refinement.

Local Open Scope list_scope.

Create HintDb drains_db.

Module Quiescence.
Import Config Actions Lifecycle Invariants Refinement.

Section Drains.
Context {B : Type} `{BackdropOps B}.

Definition drains (w w' : World B) : Prop := pending w' `sublist_of` pending w.

#[export] Instance drains_preorder : PreOrder drains.
Proof. split; [intros w; unfold drains; reflexivity|intros w1 w2 w3 H12 H23; unfold drains in *; by etransitivity]. Qed.

Lemma same_view_drains (w w' : World B) : same_view w w' -> drains w w'.
Proof. intros [_ Hp]. unfold drains. rewrite Hp. reflexivity. Qed.

Lemma drains_filter_pending (P : Pending -> Prop) `{forall p, Decision (P p)} (w : World B) :
  drains w (set_pending (filter P (pending w)) w).
Proof. apply sublist_filter. Qed.

Lemma drains_abort_xhr i (w : World B) : drains w (abort_xhr i w).
Proof. unfold abort_xhr. case_match; [apply drains_filter_pending|reflexivity]. Qed.

(** An update of an instance leaves the requests alone, whatever it does
    to [self.ajaxXHR]. *)
Lemma drains_upd_inst i f (w : World B) : drains w (upd_inst i f w).
Proof. unfold drains. reflexivity. Qed.

End Drains.

#[export] Hint Extern 1 (drains ?w (set_pending (filter _ (pending ?w)) ?w)) => apply drains_filter_pending : drains_db.
#[export] Hint Extern 1 (drains ?w (abort_xhr _ ?w)) => apply drains_abort_xhr : drains_db.
#[export] Hint Extern 1 (drains ?w (upd_inst _ _ ?w)) => apply drains_upd_inst : drains_db.
#[export] Hint Extern 2 (drains ?w _) => apply same_view_drains; solve [eauto 4 with view_db] : drains_db.

Ltac drain_tac := peel ltac:(eauto 4 with drains_db).

Section Ops.
Context {B : Type} `{BackdropOps B} {hq : HtmlQuery} {env : PageEnv}.

Lemma drains_fold {A} (g : World B -> A -> World B) (l : list A) (w w1 : World B) :
  drains w w1 -> (forall w a, drains w (g w a)) -> drains w (fold_left g l w1).
Proof.
  intros H1 Hg. revert w1 H1. induction l as [|a l IH]; intros w1 H1; simpl; [done|].
  apply IH. etransitivity; [exact H1|apply Hg].
Qed.

Lemma drains_backdrop_hide (h : nat -> World B -> World B) (w : World B) :
  (forall j w, drains w (h j w)) -> drains w (backdrop_hide h w).
Proof.
  intros Hh. unfold backdrop_hide. case_match. case_match; [|drain_tac].
  apply drains_fold; [drain_tac|]. intros w' j. case_match; [apply Hh|reflexivity].
Qed.

Lemma drains_hide f i (w : World B) : drains w (hide f i w).
Proof.
  revert i w. induction f as [|f IH]; intros i w; [reflexivity|].
  cbn [hide]. unfold hide_body. cbv zeta.
  peel ltac:(first [apply drains_backdrop_hide; intros; apply IH | eauto 4 with drains_db]).
Qed.
#[local] Hint Extern 1 (drains ?w (hide _ _ ?w)) => apply drains_hide : drains_db.

Lemma drains_ajax_done i r (w : World B) : drains w (ajax_done i r w).
Proof. unfold ajax_done, _show. cbv zeta. drain_tac. Qed.

(** The effects that issue no request and do not call [show]. *)
Definition quiet (e : Effect) : bool :=
  match e with ERequest _ => false | _ => negb (shows e) end.

Lemma drains_run_effect i ao e (w : World B) : quiet e = true -> drains w (run_effect i ao e w).
Proof.
  intros He. destruct e; simpl in He; try discriminate; unfold run_effect; try solve [drain_tac].
  case_match; [drain_tac|]. apply negb_true_iff in He. rewrite He. reflexivity.
Qed.

Lemma drains_run_effects i ao es (w : World B) :
  Forall (fun e => quiet e = true) es -> drains w (run_effects i ao es w).
Proof.
  intros Hes. revert w. induction Hes as [|e es He _ IH]; intros w; simpl; [reflexivity|].
  destruct e; try (etransitivity; [apply (drains_run_effect i ao)|apply IH]); done.
Qed.

(** The completion callbacks are quiet. *)
Lemma complete_quiet ao k o : Forall (fun e => quiet e = true) (complete ao k o).
Proof.
  assert (Hr : forall ao r l, form_redirect ao r = Some l -> Forall (fun e => quiet e = true) l).
  { intros ao' r l. unfold form_redirect. repeat case_match; intros Hl; simplify_eq;
      try by repeat constructor. apply fmap_Some in Hl as (u & _ & ->). by repeat constructor. }
  assert (He : forall t, Forall (fun e => quiet e = true) (error_callbacks ao t))
    by (intros t; unfold error_callbacks; repeat case_match; by repeat constructor).
  destruct k, o as [t|r]; simpl; unfold form_complete, link_complete;
    repeat (apply Forall_app_2 || case_match); try apply He; try by repeat constructor.
  by eapply Hr.
Qed.

(** Answering the oldest request removes it and adds none. *)
Lemma on_response_oldest p l o (w : World B) :
  pending w = p :: l -> List.length (pending (on_response (p_id p) o w)) < List.length (pending w).
Proof.
  intros Hp. unfold on_response. rewrite Hp. cbn [list_find]. rewrite decide_True by done.
  cbn [fmap option_fmap option_map].
  assert (Hlt : List.length (filter (fun q => p_id q <> p_id p) (p :: l)) < List.length (p :: l)).
  { rewrite filter_cons_False by (intros Hn; by apply Hn). simpl.
    pose proof (sublist_length _ _ (sublist_filter (fun q => p_id q <> p_id p) l)). lia. }
  rewrite <- Hp in Hlt |- *.
  set (w1 := set_pending (filter _ (pending w)) w).
  assert (D : forall w2, drains w1 w2 -> List.length (pending w2) < List.length (pending w)).
  { intros w2 Hw2. apply sublist_length in Hw2. simpl in Hw2. lia. }
  apply D. destruct (p_kind p); [destruct o|]; [reflexivity|apply drains_ajax_done|].
  apply drains_run_effects, complete_quiet.
Qed.

(** The environment answers the oldest outstanding request with [ans],
    [n] times. *)
Fixpoint drain (ans : nat -> Outcome) (n : nat) (w : World B) : World B :=
  match n with
  | O => w
  | S n =>
      match pending w with
      | [] => w
      | p :: _ => drain ans n (on_response (p_id p) (ans (p_id p)) w)
      end
  end.

(** C40. Liveness of the request queue: whatever the answers, answering
    the oldest outstanding request, as many times as there are requests,
    leaves none outstanding.  No completion callback issues a request, so
    every answer shortens the queue. *)
Theorem drain_quiesces ans (w : World B) : pending (drain ans (List.length (pending w)) w) = [].
Proof.
  cut (forall n (w : World B), List.length (pending w) <= n -> pending (drain ans n w) = []).
  { intros Hn. by apply Hn. }
  induction n as [|n IH]; intros v Hv; simpl.
  - by destruct (pending v); [|simpl in Hv; lia].
  - destruct (pending v) as [|p l] eqn:Hp; [done|]. apply IH.
    pose proof (on_response_oldest p l (ans (p_id p)) v Hp). rewrite Hp in *. simpl in *. lia.
Qed.

End Ops.

End Quiescence.
