(* ===== verification/Behaviour.v ===== *)
(** * Behaviour of the lifecycle: [hide], [show], [redraw] and the events

    The theorems here state what the handlers of [Lifecycle] do to the
    world: what [hide] resets and when it hides the shared wrapper and
    backdrop, what [show] issues and how a response makes the dialog
    visible, and the sequences of events under which the code departs from
    the spec (concurrent creation requests, a response after [hide], a
    redraw that loses the [active] class).  They are proved from the frame
    lemmas of [Invariants]. *)

From stdpp Require Import base list sets gmap strings.
From Stdlib Require Import String.
From S2P Require Import Prelude Position Config Actions Template Backdrop Lifecycle Invariants Fresh.

Local Open Scope list_scope.
Local Set Warnings "-clear-no-such-hyp".

Module Behaviour.
Import Config Actions Lifecycle Invariants Fresh.

Section Lemmas.
Context {B : Type} `{BackdropOps B}.

Lemma inst_at_trigger i j s (w : World B) : inst_at (trigger j s w) i = inst_at w i.
Proof. reflexivity. Qed.

Lemma inst_at_set_loading i b (w : World B) : inst_at (set_loading b w) i = inst_at w i.
Proof. reflexivity. Qed.

Lemma inst_at_unmount i n (w : World B) : inst_at (unmount n w) i = inst_at w i.
Proof. reflexivity. Qed.

Lemma inst_at_upd_page i f (w : World B) : inst_at (upd_page f w) i = inst_at w i.
Proof. reflexivity. Qed.

Lemma shrinks_inst_at (w w' : World B) i x :
  shrinks w w' -> inst_at w i = Some x -> exists y, inst_at w' i = Some y /\ inst_frame x y.
Proof. intros (_&_&_&_&Hf) Hx. by eapply Forall2_lookup_l in Hf as (y & ? & ?); eauto. Qed.

Lemma abort_xhr_pending i x r (w : World B) :
  inst_at w i = Some x -> ajaxXHR x = Some r ->
  forall p, p ∈ pending (abort_xhr i w) -> p_id p <> r.
Proof.
  intros Hx Hr p. unfold abort_xhr. rewrite Hx. simpl. rewrite Hr. simpl.
  rewrite list_elem_of_filter. naive_solver.
Qed.

Lemma shrinks_if_hide (h : nat -> World B -> World B) (w : World B) :
  (forall j w, shrinks w (h j w)) ->
  shrinks w (if bool_decide (List.length (mounted w) < 2)%nat
             then set_overflow false (set_wrapper false (backdrop_hide h w)) else w).
Proof.
  intros Hh. case_bool_decide; [|reflexivity].
  transitivity (backdrop_hide h w); [by apply shrinks_backdrop_hide|].
  by apply (shrinks_same (backdrop_hide h w) (fun v => set_overflow false (set_wrapper false v))).
Qed.

(** What one level of [hide] does to the instance it hides, whatever the
    [hide]s the backdrop triggers do (they only shrink the world). *)
Lemma hide_body_spec (h : nat -> World B -> World B) i x (w : World B) :
  (forall j w, shrinks w (h j w)) -> inst_at w i = Some x ->
  exists x', inst_at (hide_body h i w) i = Some x' /\
    el_active x' = false /\ loading_shown (hide_body h i w) = false /\
    modal x' = modal x /\ ajaxXHR x' = ajaxXHR x /\ options x' = options x /\
    (forall n, modal x = Some n -> (n ∉ mounted (hide_body h i w)) /\ createModal x' = initModal (options x)) /\
    (forall r, ajaxXHR x = Some r -> forall p, p ∈ pending (hide_body h i w) -> p_id p <> r).
Proof.
  intros Hh Hx. unfold hide_body. cbv zeta.
  set (w1 := trigger i "hide" (abort_xhr i w)).
  assert (Hx1 : inst_at w1 i = Some x) by (unfold w1, inst_at; simpl; by rewrite insts_abort_xhr).
  assert (Hp1 : forall r, ajaxXHR x = Some r -> forall p, p ∈ pending w1 -> p_id p <> r)
    by (intros r Hr; exact (abort_xhr_pending i x r w Hx Hr)).
  pose proof (shrinks_if_hide h w1 Hh) as Hs.
  set (w2 := if bool_decide _ then _ else _) in *.
  destruct (shrinks_inst_at _ _ _ _ Hs Hx1) as (y & Hy & Hm & Hxhr & Hraw & Hopt).
  destruct Hs as (Hmnt & Hpen & _).
  set (w3 := upd_inst i (with_el_active false) (set_loading false w2)).
  assert (Hy3 : inst_at w3 i = Some (with_el_active false y)) by (unfold w3; rewrite inst_at_upd_eq; unfold inst_at in *; simpl; by rewrite Hy).
  rewrite Hy3. cbn [mbind option_bind modal with_el_active].
  destruct (modal y) as [n|] eqn:Hn.
  - eexists. split; [by rewrite inst_at_trigger, inst_at_upd_page, inst_at_upd_eq, inst_at_unmount, Hy3|]. simpl.
    split_and!; try done; [congruence| |].
    + intros n' Hn'. assert (n' = n) as -> by congruence. split; [|by rewrite Hopt].
      rewrite list_elem_of_filter. naive_solver.
    + intros r Hr p Hp%Hpen. by apply Hp1.
  - eexists. split; [by rewrite inst_at_trigger, inst_at_upd_page|]. simpl. split_and!; try done; [congruence| |].
    + intros n' Hn'. congruence.
    + intros r Hr p Hp%Hpen. by apply Hp1.
Qed.

(** The first request with identifier [r] after requests with smaller
    identifiers. *)
Lemma list_find_fresh (l l' : list Pending) q r :
  Forall (fun p => p_id p < r)%nat l -> p_id q = r ->
  list_find (fun p => p_id p = r) (l ++ q :: l') = Some (List.length l, q).
Proof.
  intros Hl Hq. rewrite list_find_app_r; [simpl; rewrite decide_True by done; simpl; f_equal; f_equal; lia|].
  apply list_find_None. eapply Forall_impl; [done|]. simpl. lia.
Qed.

Lemma filter_fresh (l l' : list Pending) q r :
  Forall (fun p => p_id p < r)%nat l -> p_id q = r -> Forall (fun p => p_id p <> r) l' ->
  filter (fun p => p_id p <> r) (l ++ q :: l') = l ++ l'.
Proof.
  intros Hl Hq Hl'. rewrite filter_app, filter_cons_False by (intros Hn; by apply Hn).
  rewrite !filter_Forall_id; [done|done|]. eapply Forall_impl; [done|]. simpl. lia.
Qed.

End Lemmas.

Section Hide.
Context {B : Type} `{BackdropOps B}.

(** C7. [hide] resets the instance it hides: its trigger loses the class
    [active], the loading indicator is hidden, its dialog node leaves the
    wrapper, its content strategy is chosen again by [initModal], and its
    creation request, if one is recorded in [ajaxXHR], is no longer
    outstanding.  [self.$modal] still refers to the removed node. *)
Theorem hide_resets i x (w : World B) :
  inst_at w i = Some x ->
  exists x', inst_at (hide hide_fuel i w) i = Some x' /\
    el_active x' = false /\ loading_shown (hide hide_fuel i w) = false /\ modal x' = modal x /\
    (forall n, modal x = Some n ->
       (n ∉ mounted (hide hide_fuel i w)) /\ createModal x' = initModal (options x')) /\
    (forall r, ajaxXHR x = Some r -> forall p, p ∈ pending (hide hide_fuel i w) -> p_id p <> r).
Proof.
  intros Hx. destruct (hide_body_spec (hide 1) i x w) as (x' & Hx' & He & Hl & Hm & _ & Ho & Hn & Hp);
    [intros; apply hide_shrinks|done|].
  exists x'. split_and!; try done. intros n Hmn. rewrite Ho. by apply Hn.
Qed.

End Hide.

Section Wrapper.
Context {B : Type} `{BackdropLaws B}.

(** After [backdrop.hide()] and the [hide]s it triggers, the backdrop is
    hidden. *)
Lemma backdrop_hide_invisible f (w : World B) :
  bd_visible (backdrop (backdrop_hide (hide (S f)) w)) = false.
Proof.
  unfold backdrop_hide. pose proof (bd_hide_invisible (backdrop w)) as Hi.
  destruct (bd_hide _) as [b fired]. simpl in Hi. destruct fired; [|done].
  apply (hidden_handlers_fold (hide (S f)) (hide (S f))); [|done].
  intros j w' Hv. split; [done|]. by apply (hide_quiet f f).
Qed.

Lemma wrapper_abort_xhr i (w : World B) : wrapper_shown (abort_xhr i w) = wrapper_shown w.
Proof. unfold abort_xhr. by case_match. Qed.

Lemma overflow_abort_xhr i (w : World B) : overflow_hidden (abort_xhr i w) = overflow_hidden w.
Proof. unfold abort_xhr. by case_match. Qed.

Lemma mounted_abort_xhr i (w : World B) : mounted (abort_xhr i w) = mounted w.
Proof. unfold abort_xhr. by case_match. Qed.

(** One level of [hide] with fewer than two dialogs in the wrapper: the
    wrapper and [overflow] are reset and the backdrop is what
    [backdrop.hide()] and its handlers leave. *)
Lemma hide_body_few h i (w : World B) :
  (List.length (mounted w) < 2)%nat ->
  wrapper_shown (hide_body h i w) = false /\ overflow_hidden (hide_body h i w) = false /\
  backdrop (hide_body h i w) = backdrop (backdrop_hide h (trigger i "hide" (abort_xhr i w))).
Proof.
  intros Hl. unfold hide_body. cbv zeta.
  rewrite bool_decide_true by (simpl; by rewrite mounted_abort_xhr).
  by case_match.
Qed.

(** With two dialogs or more, [hide] leaves them untouched. *)
Lemma hide_body_many h i (w : World B) :
  (2 <= List.length (mounted w))%nat ->
  wrapper_shown (hide_body h i w) = wrapper_shown w /\ overflow_hidden (hide_body h i w) = overflow_hidden w /\
  backdrop (hide_body h i w) = backdrop w.
Proof.
  intros Hl. unfold hide_body. cbv zeta.
  rewrite bool_decide_false by (simpl; rewrite mounted_abort_xhr; lia).
  case_match; simpl; by rewrite ?abort_xhr_backdrop, ?wrapper_abort_xhr, ?overflow_abort_xhr.
Qed.

End Wrapper.

Section HideWrapper.
Context {B : Type} `{BackdropLaws B}.

(** C8. With fewer than two dialogs in the wrapper, [hide] hides the
    wrapper and the backdrop and removes the class [plone-modal-open]
    (741-760).  The test counts the dialogs in the wrapper, whether or not
    the one being hidden is among them: hiding an instance whose dialog is
    not open while another instance's dialog is open hides the wrapper
    around that other dialog. *)
Theorem hide_few_dialogs i (w : World B) :
  (List.length (mounted w) < 2)%nat ->
  wrapper_shown (hide hide_fuel i w) = false /\ overflow_hidden (hide hide_fuel i w) = false /\
  bd_visible (backdrop (hide hide_fuel i w)) = false.
Proof.
  intros Hl. change (hide hide_fuel i w) with (hide_body (hide 1) i w).
  destruct (hide_body_few (hide 1) i w Hl) as (-> & -> & ->).
  split_and!; try done. apply backdrop_hide_invisible.
Qed.

(** With two dialogs or more in the wrapper, [hide] leaves the
    wrapper, the backdrop and the class [plone-modal-open] as they are. *)
Theorem hide_many_dialogs i (w : World B) :
  (2 <= List.length (mounted w))%nat ->
  wrapper_shown (hide hide_fuel i w) = wrapper_shown w /\
  overflow_hidden (hide hide_fuel i w) = overflow_hidden w /\ backdrop (hide hide_fuel i w) = backdrop w.
Proof. intros Hl. exact (hide_body_many (hide 1) i w Hl). Qed.

End HideWrapper.

Section Show.
Context {B : Type} `{BackdropLaws B} {hq : HtmlQuery} {env : PageEnv}.

(** The dialog of instance [i] is shown: [self.$modal] is in the wrapper
    with the class [active], the trigger has the class [active], the
    wrapper and the backdrop are visible and the loading indicator hidden
    (the end state of [_show], 720-740). *)
Definition is_open (w : World B) (i : nat) : Prop :=
  exists x n, inst_at w i = Some x /\ modal x = Some n /\ n ∈ mounted w /\ modal_active w i = true /\
    el_active x = true /\ wrapper_shown w = true /\ loading_shown w = false /\
    bd_visible (backdrop w) = true.

(** [render] with content: the node [next_id] is created from [self.$raw]
    and appended to the wrapper, and becomes [self.$modal]. *)
Lemma render_mounts i x r (w : World B) :
  inst_at w i = Some x -> raw x = Some r ->
  inst_at (render i w) i = Some (with_options (set_actions (options x) (form_actions (options x)))
                                   (with_modal (Some (next_id w)) x)) /\
  mounted (render i w) = mounted w ++ [next_id w] /\
  nodes (render i w) = <[next_id w := new_node i (options x) r (form_actions (options x))]> (nodes w) /\
  next_id (render i w) = S (next_id w) /\ pending (render i w) = pending w /\
  (forall j, j <> i -> inst_at (render i w) j = inst_at w j) /\ wrapper_shown (render i w) = wrapper_shown w.
Proof.
  intros Hx Hr. unfold render, default_render. cbv zeta. rewrite !inst_at_trigger, Hx, Hr.
  unfold inst_at in *. simpl. rewrite !list_lookup_alter_eq, Hx. split_and!; try done.
  intros j Hj. by rewrite !list_lookup_alter_ne.
Qed.

(** [_show] with content opens the dialog on a new node. *)
Lemma _show_opens i x r (w : World B) :
  inst_at w i = Some x -> raw x = Some r ->
  is_open (_show i w) i /\ mounted (_show i w) = mounted w ++ [next_id w] /\
  pending (_show i w) = pending w /\ next_id (_show i w) = S (next_id w).
Proof.
  intros Hx Hr. destruct (render_mounts i x r w Hx Hr) as (Hx' & Hm & Hn & Hid & Hp & _ & _).
  unfold _show. cbv zeta. set (W := render i w) in *. clearbody W.
  match goal with |- context [match inst_at ?u i ≫= modal with None => _ | Some _ => _ end] =>
    assert (E : inst_at u i ≫= modal = Some (next_id w)) by
      (unfold inst_at in *; simpl; by rewrite list_lookup_alter_eq, Hx'); rewrite E end.
  elim_position_modal. unfold is_open, modal_active, inst_at in *. simpl.
  rewrite !list_lookup_alter_eq, Hx'. simpl. rewrite Hm, Hp, Hn.
  split_and!; [|done|done|done]. eexists _, _. split_and!; try done.
  - set_solver.
  - by rewrite lookup_alter_eq, lookup_insert_eq.
  - by rewrite bd_show_visible.
Qed.

(** [_show] after [self.$raw] is set, as the three direct strategies do. *)
Lemma _show_with_raw_opens i x r (w : World B) :
  inst_at w i = Some x ->
  is_open (_show i (upd_inst i (with_raw (Some r)) w)) i /\
  pending (_show i (upd_inst i (with_raw (Some r)) w)) = pending w.
Proof.
  intros Hx. destruct (_show_opens i (with_raw (Some r) x) r (upd_inst i (with_raw (Some r)) w))
    as (Ho & _ & Hp & _); [by rewrite inst_at_upd_eq, Hx|done|done].
Qed.

(** The [done] callback of the creation request opens the dialog on the
    node [next_id]. *)
Lemma ajax_done_opens i x resp (w : World B) :
  inst_at w i = Some x ->
  is_open (ajax_done i resp w) i /\ pending (ajax_done i resp w) = pending w /\
  mounted (ajax_done i resp w) = mounted w ++ [next_id w] /\ next_id (ajax_done i resp w) = S (next_id w).
Proof.
  intros Hx. unfold ajax_done. cbv zeta.
  edestruct (_show_opens i (with_raw (Some (parseBodyTag resp)) (with_xhr None x)) (parseBodyTag resp))
    as (Ho & Hm & Hp & Hn);
    [by rewrite inst_at_trigger, inst_at_upd_eq, inst_at_set_loading, inst_at_upd_eq, Hx|reflexivity|done].
Qed.

(** [createAjaxModal]: the request [next_id] is issued and recorded in
    [self.ajaxXHR], the loading indicator is shown. *)
Lemma show_ajax_issues i x (w : World B) :
  inst_at w i = Some x -> createModal x = CreateAjax ->
  inst_at (show i w) i = Some (with_xhr (Some (next_id w)) x) /\
  pending (show i w) = pending w ++ [Build_Pending (next_id w) i PCreate] /\
  next_id (show i w) = S (next_id w) /\ mounted (show i w) = mounted w /\ loading_shown (show i w) = true.
Proof.
  intros Hx Hc. unfold show. rewrite Hx, Hc. unfold createAjaxModal, inst_at in *. cbv zeta. simpl.
  by rewrite list_lookup_alter_eq, Hx.
Qed.

(** The success of a creation request [r], found after the requests with
    smaller identifiers, opens the dialog and removes the request. *)
Lemma response_create_opens r i x resp l l' (w : World B) :
  Forall (fun p => p_id p < r)%nat l -> pending w = l ++ Build_Pending r i PCreate :: l' ->
  Forall (fun p => p_id p <> r) l' -> inst_at w i = Some x ->
  is_open (on_response r (Success resp) w) i /\ pending (on_response r (Success resp) w) = l ++ l' /\
  mounted (on_response r (Success resp) w) = mounted w ++ [next_id w] /\
  next_id (on_response r (Success resp) w) = S (next_id w).
Proof.
  intros Hl Hp Hl' Hx. unfold on_response. rewrite Hp, list_find_fresh by done. cbn [p_kind p_inst].
  rewrite filter_fresh by done. exact (ajax_done_opens i x resp (set_pending (l ++ l') w) Hx).
Qed.

(** C6. [show] on an instance whose content is in the page (a [target]
    selector, [html], or the element itself) opens its dialog at once on a
    new node, and issues no request (716-719, 552-567). *)
Theorem show_direct_opens i x (w : World B) :
  inst_at w i = Some x -> createModal x <> CreateAjax ->
  is_open (show i w) i /\ pending (show i w) = pending w.
Proof.
  intros Hx Hc. unfold show, createTargetModal, createHtmlModal, createBasicModal. rewrite Hx.
  destruct (createModal x); [done|..]; by apply (_show_with_raw_opens i x).
Qed.

(** C5. [show] on an instance whose content is remote shows the loading
    indicator and issues one creation request, with the identifier
    [next_id]; when that request succeeds the dialog opens on the
    response, and no request is left outstanding (537-551).  On a page
    reached by events the identifier is fresh ([reachable_ids_fresh]). *)
Theorem show_ajax_response i x resp (w : World B) :
  ids_fresh w -> inst_at w i = Some x -> createModal x = CreateAjax ->
  loading_shown (step (EvShow i) w) = true /\
  pending (step (EvShow i) w) = pending w ++ [Build_Pending (next_id w) i PCreate] /\
  is_open (step (EvRespond (next_id w) (Success resp)) (step (EvShow i) w)) i /\
  pending (step (EvRespond (next_id w) (Success resp)) (step (EvShow i) w)) = pending w.
Proof.
  intros (Hf & _ & _) Hx Hc. unfold step at 2 3 4.
  destruct (show_ajax_issues i x w Hx Hc) as (Hx1 & Hp1 & _ & _ & Hl1).
  destruct (response_create_opens (next_id w) i _ resp (pending w) [] _ Hf Hp1 (Forall_nil_2 _) Hx1)
    as (Ho & Hp & _). rewrite app_nil_r in Hp. by split_and!.
Qed.

(** C13. [createAjaxModal] does not check for a creation request already
    outstanding (537-551): showing a remote dialog twice before the
    response issues two requests, [self.ajaxXHR] keeps only the second,
    and when both succeed both responses are rendered, so that one
    instance has two dialogs in the wrapper. *)
Theorem show_twice_two_dialogs i x r1 r2 (w : World B) :
  ids_fresh w -> inst_at w i = Some x -> createModal x = CreateAjax ->
  pending (step (EvShow i) (step (EvShow i) w)) =
    pending w ++ [Build_Pending (next_id w) i PCreate; Build_Pending (S (next_id w)) i PCreate] /\
  mounted (step (EvRespond (S (next_id w)) (Success r2))
             (step (EvRespond (next_id w) (Success r1)) (step (EvShow i) (step (EvShow i) w)))) =
    mounted w ++ [S (S (next_id w)); S (S (S (next_id w)))].
Proof.
  intros (Hf & _ & _) Hx Hc. unfold step.
  destruct (show_ajax_issues i x w Hx Hc) as (Hx1 & Hp1 & Hn1 & Hm1 & _).
  destruct (show_ajax_issues i _ (show i w) Hx1 Hc) as (Hx2 & Hp2 & Hn2 & Hm2 & _).
  rewrite Hp1, Hn1, <- app_assoc in Hp2. split; [done|].
  assert (Hf' : Forall (fun p => p_id p < S (next_id w))%nat (pending w)) by (eapply Forall_impl; [done|simpl; lia]).
  destruct (response_create_opens (next_id w) i _ r1 _ _ _ Hf Hp2 ltac:(repeat constructor; simpl; lia) Hx2)
    as ((x3 & n3 & Hx3 & _) & Hp3 & Hm3 & Hn3).
  destruct (response_create_opens (S (next_id w)) i x3 r2 _ [] _ Hf' Hp3 (Forall_nil_2 _) Hx3)
    as (_ & _ & Hm4 & _).
  by rewrite Hm4, Hn3, Hm3, Hn2, Hm2, Hm1, Hn1, <- app_assoc.
Qed.

(** C17. A creation request that fails has no callback (only [done] is
    registered, 537-551): the request is gone, but the loading indicator
    stays shown, [self.ajaxXHR] keeps the finished request, no dialog is
    mounted, and [show] is not retried. *)
Theorem show_ajax_failure i x st (w : World B) :
  ids_fresh w -> inst_at w i = Some x -> createModal x = CreateAjax ->
  loading_shown (step (EvRespond (next_id w) (Failure st)) (step (EvShow i) w)) = true /\
  pending (step (EvRespond (next_id w) (Failure st)) (step (EvShow i) w)) = pending w /\
  mounted (step (EvRespond (next_id w) (Failure st)) (step (EvShow i) w)) = mounted w /\
  inst_at (step (EvRespond (next_id w) (Failure st)) (step (EvShow i) w)) i =
    Some (with_xhr (Some (next_id w)) x).
Proof.
  intros (Hf & _) Hx Hc.
  destruct (show_ajax_issues i x w Hx Hc) as (Hx1 & Hp1 & _ & Hm1 & Hl1).
  unfold step, on_response. rewrite Hp1, list_find_fresh by done. cbn [p_kind].
  rewrite filter_fresh, app_nil_r by done. split_and!; [exact Hl1|reflexivity|exact Hm1|exact Hx1].
Qed.

(** [self.backdrop.hide()] and the [hide]s of Escape leave the backdrop
    hidden. *)
Lemma on_escape_fold_invisible (l : list nat) (w : World B) :
  bd_visible (backdrop w) = false ->
  bd_visible (backdrop (fold_left (fun w j =>
      match inst_at w j with
      | Some x => if closeOnEsc (options x) && el_active x then hide hide_fuel j w else w
      | None => w
      end) l w)) = false.
Proof.
  revert w. induction l as [|j l IH]; intros w Hv; simpl; [done|].
  apply IH. repeat case_match; try done. by apply (hide_quiet 1 1).
Qed.

(** C18. [showLoading()] sets the backdrop's [closeOnClick] and
    [closeOnEsc] to [true] (520-536), whatever the instance's
    [backdropOptions] say: after [show] of a remote dialog, Escape hides
    the backdrop, while the request is still outstanding. *)
Theorem show_ajax_closable i x (w : World B) :
  inst_at w i = Some x -> createModal x = CreateAjax ->
  bd_closeOnEsc (backdrop (step (EvShow i) w)) = true /\
  bd_visible (backdrop (step EvEscape (step (EvShow i) w))) = false.
Proof.
  intros Hx Hc. assert (Hesc : bd_closeOnEsc (backdrop (step (EvShow i) w)) = true).
  { unfold step, show. rewrite Hx, Hc. unfold createAjaxModal, showLoading. cbv zeta.
    cbn [backdrop upd_inst set_insts issue set_next set_pending set_backdrop set_overflow set_wrapper
         set_loading trigger push_log].
    by rewrite bd_show_esc, bd_set_closable_esc. }
  split; [done|]. revert Hesc. generalize (step (EvShow i) w). intros w' Hesc.
  unfold step, on_escape. cbv zeta. rewrite Hesc. apply on_escape_fold_invisible, (backdrop_hide_invisible 1).
Qed.

End Show.

Section Redraw.
Context {B : Type} `{BackdropOps B} {hq : HtmlQuery} {env : PageEnv}.

(** [redraw] on an instance with a dialog [n]: [n] leaves the wrapper and
    [render] mounts the node [next_id] built from the response. *)
Lemma redraw_renders i x n resp (w : World B) :
  inst_at w i = Some x -> modal x = Some n ->
  exists y, inst_at (redraw i resp w) i = Some y /\ modal y = Some (next_id w) /\
    mounted (redraw i resp w) = filter (fun m => m <> n) (mounted w) ++ [next_id w] /\
    nodes (redraw i resp w) =
      <[next_id w := new_node i (options x) (parseBodyTag resp) (form_actions (options x))]> (nodes w) /\
    (forall j, j <> i -> inst_at (redraw i resp w) j = inst_at w j) /\
    wrapper_shown (redraw i resp w) = wrapper_shown w.
Proof.
  intros Hx Hn. unfold redraw. rewrite inst_at_trigger, Hx. cbn [mbind option_bind]. rewrite Hn.
  set (w0 := upd_inst i (with_raw (Some (parseBodyTag resp))) (unmount n (trigger i "beforeDraw" w))).
  assert (Hx0 : inst_at w0 i = Some (with_raw (Some (parseBodyTag resp)) x))
    by (unfold w0; by rewrite inst_at_upd_eq, inst_at_unmount, inst_at_trigger, Hx).
  destruct (render_mounts i _ _ w0 Hx0 eq_refl) as (Hx1 & Hm1 & Hn1 & _ & _ & Hj1 & Hw1).
  set (R := render i w0) in *. elim_position_modal.
  rewrite ?inst_at_upd_page, ?Hx1. cbn [mbind option_bind modal with_options with_modal].
  eexists. rewrite inst_at_trigger, ?inst_at_upd_page, Hx1. split_and!; try done.
  intros j Hj. rewrite inst_at_trigger, !inst_at_upd_page, Hj1 by done. unfold w0.
  by rewrite inst_at_upd_ne, inst_at_unmount, inst_at_trigger.
Qed.

(** After [redraw], the instance's dialog is not [active], and whether
    another instance's dialog is [active] is unchanged. *)
Lemma redraw_modal_active i x n resp (w : World B) j :
  ids_fresh w -> inst_at w i = Some x -> modal x = Some n ->
  modal_active (redraw i resp w) j = if decide (j = i) then false else modal_active w j.
Proof.
  intros Hf Hx Hn. destruct (redraw_renders i x n resp w Hx Hn) as (y & Hy & Hmy & _ & Hd & Hj & _).
  unfold modal_active. case_decide as Hji.
  - subst j. rewrite Hy. cbn [mbind option_bind]. by rewrite Hmy, Hd, lookup_insert_eq.
  - rewrite Hj by done. destruct (inst_at w j) as [z|] eqn:Hz; cbn [mbind option_bind]; [|done].
    destruct (modal z) as [m|] eqn:Hm; [|done].
    rewrite Hd, lookup_insert_ne; [done|]. pose proof (ids_fresh_modal w j z m Hf Hz Hm). lia.
Qed.

(** C14. [redraw] removes the dialog and mounts the new one without the
    class [active] (761-770 call [render] but not [addClass]), so that
    the backdrop's ["hidden"] handler, which tests that class (448-452),
    no longer treats the dialog as shown. *)
Theorem redraw_inactive i x n resp (w : World B) :
  ids_fresh w -> inst_at w i = Some x -> modal x = Some n ->
  exists y, inst_at (redraw i resp w) i = Some y /\ modal y = Some (next_id w) /\
    next_id w ∈ mounted (redraw i resp w) /\ (n ∉ mounted (redraw i resp w)) /\
    modal_active (redraw i resp w) i = false.
Proof.
  intros Hf Hx Hn. pose proof (ids_fresh_modal w i x n Hf Hx Hn) as Hlt.
  destruct (redraw_renders i x n resp w Hx Hn) as (y & Hy & Hmy & Hm & Hd & _).
  exists y. rewrite Hm. split_and!; [done|done|set_solver| |].
  - rewrite elem_of_app, list_elem_of_filter, list_elem_of_singleton. lia.
  - rewrite (redraw_modal_active i x n resp w i Hf Hx Hn). by case_decide.
Qed.

(** Without an [active] dialog, the backdrop's ["hidden"] handlers do
    nothing. *)
Lemma hidden_handlers_inactive (h : nat -> World B -> World B) (w : World B) :
  (forall j, modal_active w j = false) -> hidden_handlers h w = w.
Proof.
  intros Hall. unfold hidden_handlers. generalize (seq 0 (List.length (insts w))).
  intros l. induction l as [|j l IH]; simpl; [done|]. by rewrite Hall.
Qed.

Lemma backdrop_hide_inactive (h : nat -> World B -> World B) (w : World B) :
  (forall j, modal_active w j = false) ->
  mounted (backdrop_hide h w) = mounted w /\ wrapper_shown (backdrop_hide h w) = wrapper_shown w /\
  insts (backdrop_hide h w) = insts w.
Proof.
  intros Hall. unfold backdrop_hide. destruct (bd_hide (backdrop w)) as [b []]; [|done].
  by rewrite hidden_handlers_inactive.
Qed.

(** C15. A click on the wrapper after a [redraw] (the way a form's answer
    is shown, 761-770) does not close the dialog, although the spec lists
    a backdrop click among the ways a shown dialog is hidden: when no
    other instance's dialog is shown, the redrawn dialog stays in the
    wrapper, the wrapper stays visible and the instance is unchanged,
    whether or not [closeOnClick] hides the backdrop. *)
Theorem wrapper_click_after_redraw i x n resp (w : World B) :
  ids_fresh w -> inst_at w i = Some x -> modal x = Some n ->
  (forall j, j <> i -> modal_active w j = false) ->
  next_id w ∈ mounted (step EvWrapperClick (redraw i resp w)) /\
  wrapper_shown (step EvWrapperClick (redraw i resp w)) = wrapper_shown w /\
  inst_at (step EvWrapperClick (redraw i resp w)) i = inst_at (redraw i resp w) i.
Proof.
  intros Hf Hx Hn Hoth. destruct (redraw_renders i x n resp w Hx Hn) as (y & _ & _ & Hm & _ & _ & Hw).
  assert (Hall : forall j, modal_active (redraw i resp w) j = false)
    by (intros j; rewrite (redraw_modal_active i x n resp w j Hf Hx Hn); case_decide; auto).
  unfold step, on_wrapper_click. destruct (insts (redraw i resp w)) eqn:Hi; [rewrite Hm, Hw; set_solver|].
  case_match; [|rewrite Hm, Hw; set_solver].
  destruct (backdrop_hide_inactive (hide hide_fuel) _ Hall) as (Hm' & Hw' & Hi').
  unfold inst_at. rewrite Hm', Hw', Hi', Hm, Hw. set_solver.
Qed.

(** C16. [hide] removes the dialog but keeps [self.$modal] (741-760), and
    aborts only the creation request: a [redraw] that runs afterwards, as
    the answer to an action request still in flight does, finds
    [self.$modal] and puts a new dialog in the wrapper although the
    instance is hidden; when the hidden dialog was the only one, the
    wrapper it lands in is hidden. *)
Theorem redraw_after_hide i x n resp (w : World B) :
  inst_at w i = Some x -> modal x = Some n ->
  exists y, inst_at (hide hide_fuel i w) i = Some y /\ modal y = Some n /\ el_active y = false /\
    next_id (hide hide_fuel i w) ∈ mounted (redraw i resp (hide hide_fuel i w)) /\
    ((List.length (mounted w) < 2)%nat -> wrapper_shown (redraw i resp (hide hide_fuel i w)) = false).
Proof.
  intros Hx Hn. change (hide hide_fuel i w) with (hide_body (hide 1) i w).
  destruct (hide_body_spec (hide 1) i x w) as (y & Hy & He & _ & Hm & _);
    [intros; apply hide_shrinks|done|].
  rewrite Hn in Hm. destruct (redraw_renders i y n resp _ Hy Hm) as (z & _ & _ & Hmz & _ & _ & Hw).
  exists y. rewrite Hmz, Hw. split_and!; [done|done|done|by apply elem_of_app; right; left|].
  intros Hl. by destruct (hide_body_few (hide 1) i w Hl) as (-> & _).
Qed.

End Redraw.

(** ** Runs on the sample page *)

(** The in-page dialog of the second instance is open. *)
Definition inline_open : World SimpleBackdrop := run [EvShow 1] sample_world.

(** The second instance was shown twice: two dialogs are in the wrapper. *)
Definition inline_twice : World SimpleBackdrop := run [EvShow 1; EvShow 1] sample_world.

Lemma hide_resets_witness :
  exists x, inst_at inline_open 1 = Some x /\
  exists x', inst_at (hide hide_fuel 1 inline_open) 1 = Some x' /\
    el_active x' = false /\ loading_shown (hide hide_fuel 1 inline_open) = false /\ modal x' = modal x /\
    (forall n, modal x = Some n ->
       (n ∉ mounted (hide hide_fuel 1 inline_open)) /\ createModal x' = initModal (options x')) /\
    (forall r, ajaxXHR x = Some r -> forall p, p ∈ pending (hide hide_fuel 1 inline_open) -> p_id p <> r).
Proof. eexists. split; [vm_compute; reflexivity|]. apply hide_resets. vm_compute. reflexivity. Defined.

(** Hiding the first instance, which has no open dialog, hides the wrapper
    of the second instance's dialog. *)
Lemma hide_few_dialogs_witness :
  (List.length (mounted inline_open) < 2)%nat /\ mounted inline_open <> [] /\
  wrapper_shown (hide hide_fuel 0 inline_open) = false /\
  overflow_hidden (hide hide_fuel 0 inline_open) = false /\
  bd_visible (backdrop (hide hide_fuel 0 inline_open)) = false.
Proof.
  split; [vm_compute; lia|]. split; [vm_compute; congruence|].
  apply hide_few_dialogs. vm_compute. lia.
Defined.

Lemma hide_many_dialogs_witness :
  (2 <= List.length (mounted inline_twice))%nat /\
  wrapper_shown (hide hide_fuel 1 inline_twice) = wrapper_shown inline_twice /\
  overflow_hidden (hide hide_fuel 1 inline_twice) = overflow_hidden inline_twice /\
  backdrop (hide hide_fuel 1 inline_twice) = backdrop inline_twice.
Proof. split; [vm_compute; lia|]. apply hide_many_dialogs. vm_compute. lia. Defined.

Lemma show_direct_opens_witness :
  exists x, inst_at sample_world 1 = Some x /\ createModal x <> CreateAjax /\
  is_open (show (hq := literal_query) (env := sample_env) 1 sample_world) 1 /\
  pending (show (hq := literal_query) (env := sample_env) 1 sample_world) = pending sample_world.
Proof.
  eexists. split; [reflexivity|]. split; [vm_compute; discriminate|].
  eapply (show_direct_opens (hq := literal_query) (env := sample_env) 1 _ sample_world); [reflexivity|vm_compute; discriminate].
Defined.

(** The remote dialog of the first instance, shown and answered. *)
Lemma show_ajax_response_witness :
  exists x, ids_fresh sample_world /\ inst_at sample_world 0 = Some x /\ createModal x = CreateAjax /\
  loading_shown (step (hq := literal_query) (env := sample_env) (EvShow 0) sample_world) = true /\
  pending (step (hq := literal_query) (env := sample_env) (EvShow 0) sample_world) =
    pending sample_world ++ [Build_Pending (next_id sample_world) 0 PCreate] /\
  is_open (step (hq := literal_query) (env := sample_env) (EvRespond (next_id sample_world) (Success "<p>ok</p>"))
             (step (hq := literal_query) (env := sample_env) (EvShow 0) sample_world)) 0 /\
  pending (step (hq := literal_query) (env := sample_env) (EvRespond (next_id sample_world) (Success "<p>ok</p>"))
             (step (hq := literal_query) (env := sample_env) (EvShow 0) sample_world)) = pending sample_world.
Proof.
  eexists. split; [apply init_ids_fresh|].
  split; [reflexivity|]. split; [reflexivity|].
  eapply (show_ajax_response (hq := literal_query) (env := sample_env) 0 _ "<p>ok</p>" sample_world);
    [apply init_ids_fresh|reflexivity|reflexivity].
Defined.

(** The first instance's remote dialog shown twice, both requests answered. *)
Lemma show_twice_two_dialogs_witness :
  exists x, ids_fresh sample_world /\ inst_at sample_world 0 = Some x /\ createModal x = CreateAjax /\
  pending (step (hq := literal_query) (env := sample_env) (EvShow 0)
             (step (hq := literal_query) (env := sample_env) (EvShow 0) sample_world)) =
    pending sample_world ++ [Build_Pending (next_id sample_world) 0 PCreate;
                             Build_Pending (S (next_id sample_world)) 0 PCreate] /\
  mounted (step (hq := literal_query) (env := sample_env) (EvRespond (S (next_id sample_world)) (Success "<p>b</p>"))
             (step (hq := literal_query) (env := sample_env) (EvRespond (next_id sample_world) (Success "<p>a</p>"))
                (step (hq := literal_query) (env := sample_env) (EvShow 0)
                   (step (hq := literal_query) (env := sample_env) (EvShow 0) sample_world)))) =
    mounted sample_world ++ [S (S (next_id sample_world)); S (S (S (next_id sample_world)))].
Proof.
  eexists. split; [apply init_ids_fresh|]. split; [reflexivity|]. split; [reflexivity|].
  eapply (show_twice_two_dialogs (hq := literal_query) (env := sample_env) 0 _ "<p>a</p>" "<p>b</p>" sample_world);
    [apply init_ids_fresh|reflexivity|reflexivity].
Defined.

Lemma inline_open_fresh : ids_fresh inline_open.
Proof.
  unfold inline_open, run. cbn [fold_left].
  exact (proj2 (step_fresher (hq := literal_query) (env := sample_env) (EvShow 1) sample_world)
           (init_ids_fresh _ _)).
Qed.

(** The in-page dialog redrawn with a new answer. *)
Lemma redraw_inactive_witness :
  exists x n, ids_fresh inline_open /\ inst_at inline_open 1 = Some x /\ modal x = Some n /\
  exists y, inst_at (redraw (hq := literal_query) (env := sample_env) 1 "<p>new</p>" inline_open) 1 = Some y /\
    modal y = Some (next_id inline_open) /\
    next_id inline_open ∈ mounted (redraw (hq := literal_query) (env := sample_env) 1 "<p>new</p>" inline_open) /\
    (n ∉ mounted (redraw (hq := literal_query) (env := sample_env) 1 "<p>new</p>" inline_open)) /\
    modal_active (redraw (hq := literal_query) (env := sample_env) 1 "<p>new</p>" inline_open) 1 = false.
Proof.
  do 2 eexists. split; [apply inline_open_fresh|]. split; [vm_compute; reflexivity|]. split; [vm_compute; reflexivity|].
  eapply (redraw_inactive (hq := literal_query) (env := sample_env) 1 _ _ "<p>new</p>" inline_open);
    [apply inline_open_fresh|vm_compute; reflexivity|vm_compute; reflexivity].
Defined.

(** A click on the wrapper after the redraw leaves the dialog open. *)
Lemma wrapper_click_after_redraw_witness :
  exists x n, ids_fresh inline_open /\ inst_at inline_open 1 = Some x /\ modal x = Some n /\
  (forall j, j <> 1 -> modal_active inline_open j = false) /\
  next_id inline_open ∈ mounted (step (hq := literal_query) (env := sample_env) EvWrapperClick
                                   (redraw (hq := literal_query) (env := sample_env) 1 "<p>new</p>" inline_open)) /\
  wrapper_shown (step (hq := literal_query) (env := sample_env) EvWrapperClick
                   (redraw (hq := literal_query) (env := sample_env) 1 "<p>new</p>" inline_open)) = wrapper_shown inline_open /\
  inst_at (step (hq := literal_query) (env := sample_env) EvWrapperClick
             (redraw (hq := literal_query) (env := sample_env) 1 "<p>new</p>" inline_open)) 1 =
    inst_at (redraw (hq := literal_query) (env := sample_env) 1 "<p>new</p>" inline_open) 1.
Proof.
  assert (Hoth : forall j, j <> 1 -> modal_active inline_open j = false)
    by (intros [|[|j]] Hj; [vm_compute; reflexivity|lia|vm_compute; reflexivity]).
  do 2 eexists. split; [apply inline_open_fresh|]. split; [vm_compute; reflexivity|]. split; [vm_compute; reflexivity|].
  split; [exact Hoth|].
  eapply (wrapper_click_after_redraw (hq := literal_query) (env := sample_env) 1 _ _ "<p>new</p>" inline_open);
    [apply inline_open_fresh|vm_compute; reflexivity|vm_compute; reflexivity|exact Hoth].
Defined.

Lemma show_ajax_failure_witness :
  exists x, ids_fresh sample_world /\ inst_at sample_world 0 = Some x /\ createModal x = CreateAjax /\
  loading_shown (step (hq := literal_query) (env := sample_env) (EvRespond (next_id sample_world) (Failure "error"))
                   (step (hq := literal_query) (env := sample_env) (EvShow 0) sample_world)) = true /\
  pending (step (hq := literal_query) (env := sample_env) (EvRespond (next_id sample_world) (Failure "error"))
             (step (hq := literal_query) (env := sample_env) (EvShow 0) sample_world)) = pending sample_world /\
  mounted (step (hq := literal_query) (env := sample_env) (EvRespond (next_id sample_world) (Failure "error"))
             (step (hq := literal_query) (env := sample_env) (EvShow 0) sample_world)) = mounted sample_world /\
  inst_at (step (hq := literal_query) (env := sample_env) (EvRespond (next_id sample_world) (Failure "error"))
             (step (hq := literal_query) (env := sample_env) (EvShow 0) sample_world)) 0 =
    Some (with_xhr (Some (next_id sample_world)) x).
Proof.
  eexists. split; [apply init_ids_fresh|]. split; [reflexivity|]. split; [reflexivity|].
  eapply (show_ajax_failure (hq := literal_query) (env := sample_env) 0 _ "error" sample_world);
    [apply init_ids_fresh|reflexivity|reflexivity].
Defined.

(** The sample page with a backdrop configured not to close on Escape or
    on a click. *)
Definition strict_world : World SimpleBackdrop :=
  init_world (env := sample_env) [remote_link; inline_link]
    {| sb_visible := false; sb_closeOnEsc := false; sb_closeOnClick := false |}.

Lemma show_ajax_closable_witness :
  exists x, bd_closeOnEsc (backdrop strict_world) = false /\
  inst_at strict_world 0 = Some x /\ createModal x = CreateAjax /\
  bd_closeOnEsc (backdrop (step (hq := literal_query) (env := sample_env) (EvShow 0) strict_world)) = true /\
  bd_visible (backdrop (step (hq := literal_query) (env := sample_env) EvEscape
                          (step (hq := literal_query) (env := sample_env) (EvShow 0) strict_world))) = false.
Proof.
  eexists. split; [reflexivity|]. split; [reflexivity|]. split; [reflexivity|].
  eapply (show_ajax_closable (hq := literal_query) (env := sample_env) 0 _ strict_world);
    reflexivity.
Defined.

(** The in-page dialog hidden, then redrawn by a late answer. *)
Lemma redraw_after_hide_witness :
  exists x n, inst_at inline_open 1 = Some x /\ modal x = Some n /\
  exists y, inst_at (hide hide_fuel 1 inline_open) 1 = Some y /\ modal y = Some n /\ el_active y = false /\
    next_id (hide hide_fuel 1 inline_open) ∈
      mounted (redraw (hq := literal_query) (env := sample_env) 1 "<p>late</p>" (hide hide_fuel 1 inline_open)) /\
    ((List.length (mounted inline_open) < 2)%nat ->
     wrapper_shown (redraw (hq := literal_query) (env := sample_env) 1 "<p>late</p>" (hide hide_fuel 1 inline_open)) = false).
Proof.
  do 2 eexists. split; [vm_compute; reflexivity|]. split; [vm_compute; reflexivity|].
  eapply (redraw_after_hide (hq := literal_query) (env := sample_env) 1 _ _ "<p>late</p>" inline_open);
    vm_compute; reflexivity.
Defined.

End Behaviour.
