(* ===== verification/Layout.v ===== *)
(** * Layout: [registry.scan], [positionModal] and its handlers

    [_show] (720-740) passes the new dialog to [registry.scan], places it
    with [positionModal] and binds two handlers that place it again: one
    on the [load] of its images, one on the [resize] of [window.parent];
    [init] (485-487) binds a [resize] handler of its own for every
    instance, and [redraw] (761-770) places and scans the new dialog but
    binds nothing.  [Lifecycle] keeps what these calls leave in the page
    ([Page]); this file proves what the page promises:
    - [layout_inv]: every dialog in the wrapper has been scanned, and every
      image handler is bound on a node that existed when it was bound;
      [lay_ok] is the preorder "[fresher], and [layout_inv] is kept",
      proved of every operation by peeling with [lay_db];
    - after a resize, every instance's dialog carries the placement
      [positionModal] computes for the new window, the init handlers
      reaching the dialogs whose [resize.modal.patterns] handler [hide]
      removed;
    - the image handlers miss a redrawn dialog. *)

From stdpp Require Import base list sets gmap strings.
From Stdlib Require Import String.
From Stdlib Require QArith.
From S2P Require Import Prelude Position Config Actions Backdrop Lifecycle Invariants Fresh WellFormed Behaviour.

Local Open Scope list_scope.
Local Set Warnings "-clear-no-such-hyp".

Create HintDb lay_db.

Module Layout.
Import Config Actions Lifecycle Invariants Fresh WellFormed Behaviour.

Section Inv.
Context {B : Type} `{BackdropOps B}.

(** Every dialog in the wrapper went through [registry.scan]. *)
Definition all_scanned (w : World B) : Prop :=
  Forall (fun n => n ∈ scanned (page w)) (mounted w).

(** Every image handler names a node below the counter. *)
Definition img_fresh (w : World B) : Prop :=
  Forall (fun jm : nat * nat => (jm.2 < next_id w)%nat) (img_bound (page w)).

Definition layout_inv (w : World B) : Prop := all_scanned w /\ img_fresh w.

Definition lay_ok (w w' : World B) : Prop :=
  fresher w w' /\ (ids_fresh w -> layout_inv w -> layout_inv w').

#[export] Instance lay_ok_preorder : PreOrder lay_ok.
Proof.
  split; [intros w; split; [reflexivity|auto]|].
  intros w1 w2 w3 [F12 H12] [F23 H23]. split; [by etransitivity|].
  intros Hf Hl. apply H23; [by apply F12|auto].
Qed.

(** A step that mounts nothing, forgets no scan and binds no image
    handler. *)
Lemma lay_intro (w w' : World B) :
  fresher w w' -> mounted w' ⊆ mounted w -> scanned (page w) ⊆ scanned (page w') ->
  img_bound (page w') ⊆ img_bound (page w) -> lay_ok w w'.
Proof.
  intros HF Hm Hs Hi. split; [done|]. intros _ [Ws Wi]. split.
  - apply Forall_forall. intros n Hn%Hm. apply Hs. by eapply Forall_forall in Ws.
  - apply Forall_forall. intros jm Hjm%Hi. eapply Forall_forall in Wi; [|done].
    destruct HF as [Hle _]. lia.
Qed.

Lemma lay_same (w : World B) (g : World B -> World B) :
  mounted (g w) = mounted w -> page (g w) = page w -> fresher w (g w) -> lay_ok w (g w).
Proof. intros Hm Hp HF. apply lay_intro; [done|by rewrite Hm|by rewrite Hp|by rewrite Hp]. Qed.

Lemma lay_unmount n (w : World B) : lay_ok w (unmount n w).
Proof. apply lay_intro; [apply shrinks_fresher, shrinks_unmount|apply filter_subseteq|done|done]. Qed.

Lemma lay_abort_xhr i (w : World B) : lay_ok w (abort_xhr i w).
Proof.
  apply lay_intro; [apply shrinks_fresher, shrinks_abort_xhr| | |]; unfold abort_xhr; by case_match.
Qed.

Lemma lay_upd_page f (w : World B) :
  (forall p, scanned p ⊆ scanned (f p)) -> (forall p, img_bound (f p) ⊆ img_bound p) ->
  lay_ok w (upd_page f w).
Proof. intros Hs Hi. apply lay_intro; [apply fresher_upd_page|done|apply Hs|apply Hi]. Qed.

Lemma lay_position_modal `{PageEnv} i (w : World B) : lay_ok w (position_modal i w).
Proof. apply (position_modal_preserved lay_ok). intros n pl. by apply lay_upd_page. Qed.

End Inv.

#[export] Hint Extern 1 (lay_ok ?w (unmount _ ?w)) => apply lay_unmount : lay_db.
#[export] Hint Extern 1 (lay_ok ?w (abort_xhr _ ?w)) => apply lay_abort_xhr : lay_db.
#[export] Hint Extern 1 (lay_ok ?w (position_modal _ ?w)) => apply lay_position_modal : lay_db.
#[export] Hint Extern 1 (lay_ok ?w (upd_page _ ?w)) =>
  apply lay_upd_page; intros; simpl; set_solver : lay_db.
#[export] Hint Extern 2 (lay_ok ?w (_ ?w)) =>
  apply lay_same; [reflexivity|reflexivity|solve [eauto 4 with fresh_db]] : lay_db.

Ltac lay := peel ltac:(eauto 4 with lay_db).

Section Render.
Context {B : Type} `{BackdropOps B} {hq : HtmlQuery} {env : PageEnv}.

(** [render] leaves the page alone and mounts at most the node it makes
    [self.$modal]. *)
Lemma render_layout i (w : World B) :
  page (render i w) = page w /\
  forall n, n ∈ mounted (render i w) -> n ∈ mounted w \/ inst_at (render i w) i ≫= modal = Some n.
Proof.
  unfold render, default_render. cbv zeta. case_match eqn:Hx; [|split; [done|by left]].
  case_match; [|split; [done|by left]]. split; [done|]. intros n Hn. simpl in Hn.
  apply elem_of_app in Hn as [Hn|Hn%list_elem_of_singleton]; [by left|right]. subst n.
  unfold inst_at in *. simpl in *. by rewrite !list_lookup_alter_eq, Hx.
Qed.

(** What [_show] does after [$modal.addClass]: the dialog [n] is scanned
    and placed, and the handlers are bound on it. *)
Lemma lay_shown_tail i n (V : World B) :
  layout_inv V -> n < next_id V ->
  layout_inv (trigger i "shown" (upd_page (page_bind_resize i) (upd_page (page_bind_img i n)
    (position_modal i V)))).
Proof.
  intros [Ws Wi] Hn. unfold layout_inv, all_scanned, img_fresh in *.
  destruct (position_modal_cases i V) as [->|(y & m & pl & _ & _ & ->)]; simpl;
    (split; [done|apply Forall_app; split; [done|by repeat constructor]]).
Qed.

(** The end of [_show], from [self.$modal.addClass]: when every mounted
    dialog but [self.$modal] is scanned, all are. *)
Lemma lay_show_tail i (U : World B) :
  ids_fresh U -> img_fresh U ->
  (forall m, m ∈ mounted U -> m ∈ scanned (page U) \/ inst_at U i ≫= modal = Some m) ->
  layout_inv (match inst_at U i ≫= modal with
              | None => U
              | Some n =>
                  trigger i "shown" (upd_page (page_bind_resize i) (upd_page (page_bind_img i n)
                    (position_modal i (upd_page (page_scan n) (activate n U)))))
              end).
Proof.
  intros FU Wi Hm. destruct (inst_at U i ≫= modal) as [n|] eqn:En.
  - apply lay_shown_tail; [split; [|exact Wi]|].
    + apply Forall_forall. intros m Hm'. simpl in *. apply elem_of_app.
      destruct (Hm m Hm') as [Hw|Hw]; [by left|right]. rewrite ?En in Hw. injection Hw as ->. set_solver.
    + simpl. destruct (inst_at U i) as [x|] eqn:Hx; [|discriminate].
      exact (ids_fresh_modal U i x n FU Hx En).
  - split; [|exact Wi]. apply Forall_forall. intros m Hm'.
    destruct (Hm m Hm') as [Hw|Hw]; [done|congruence].
Qed.

Lemma _show_lay i (w : World B) : lay_ok w (_show i w).
Proof.
  split; [apply _show_fresher|]. intros Hf [Ws Wi].
  destruct (render_fresher i w) as [HleR HfR]. specialize (HfR Hf).
  destruct (render_layout i w) as [Hp Hm].
  unfold _show. cbv zeta. set (R := render i w) in *. clearbody R.
  set (U := upd_inst i (with_el_active true) _).
  assert (FU : fresher R U) by (unfold U; freshen).
  destruct FU as [HleU FU]. specialize (FU HfR).
  assert (EU : inst_at U i ≫= modal = inst_at R i ≫= modal)
    by (unfold U, inst_at; simpl; rewrite list_lookup_alter_eq; by destruct (insts R !! i)).
  assert (HmU : mounted U = mounted R) by reflexivity.
  assert (HpU : page U = page R) by reflexivity.
  clearbody U. apply lay_show_tail; [done| |].
  - unfold img_fresh in *. rewrite HpU, Hp. eapply Forall_impl; [exact Wi|]. simpl. lia.
  - rewrite HmU, HpU, Hp, EU. intros m Hm'. destruct (Hm m Hm') as [Hw|Hw]; [|by right].
    left. by eapply Forall_forall in Ws.
Qed.

Lemma layout_inv_trigger i s (w : World B) : layout_inv w -> layout_inv (trigger i s w).
Proof. done. Qed.

(** The end of [redraw]: the dialog [self.$modal] refers to is scanned,
    the other mounted dialogs were scanned before. *)
Lemma layout_scan_modal i (w V : World B) :
  layout_inv w -> next_id w <= next_id V ->
  scanned (page V) = scanned (page w) -> img_bound (page V) = img_bound (page w) ->
  (forall m, m ∈ mounted V -> m ∈ mounted w \/ inst_at V i ≫= modal = Some m) ->
  layout_inv (match inst_at V i ≫= modal with Some m => upd_page (page_scan m) V | None => V end).
Proof.
  intros [Ws Wi] Hle Hs Hi Hm. unfold layout_inv, all_scanned, img_fresh in *.
  case_match eqn:E; simpl; rewrite Hs, Hi; (split; [apply Forall_forall; intros m Hm'|]).
  - destruct (Hm m Hm') as [Hw|Hw]; [apply elem_of_app; left; by eapply Forall_forall in Ws|].
    rewrite ?E in Hw. injection Hw as ->. set_solver.
  - eapply Forall_impl; [exact Wi|]. simpl. lia.
  - destruct (Hm m Hm') as [Hw|Hw]; [by eapply Forall_forall in Ws|congruence].
  - eapply Forall_impl; [exact Wi|]. simpl. lia.
Qed.

Lemma redraw_lay i r (w : World B) : lay_ok w (redraw i r w).
Proof.
  split; [apply redraw_fresher|]. intros Hf HL. unfold redraw. cbv zeta. case_match; [|exact HL].
  set (W0 := upd_inst i _ (unmount _ (trigger i "beforeDraw" w))).
  assert (L0 : lay_ok w W0) by (unfold W0; lay). destruct L0 as [[Hle0 F0] L0].
  specialize (F0 Hf). specialize (L0 Hf HL).
  destruct (render_fresher i W0) as [HleR _]. destruct (render_layout i W0) as [Hp Hm].
  set (R := render i W0) in *. clearbody R. apply layout_inv_trigger.
  destruct (position_modal_cases i R) as [->|(y & m & pl & _ & _ & ->)];
    (apply (layout_scan_modal i W0); [done|done|simpl; by rewrite Hp|simpl; by rewrite Hp|exact Hm]).
Qed.

End Render.

#[export] Hint Extern 1 (lay_ok ?w (_show _ ?w)) => apply _show_lay : lay_db.
#[export] Hint Extern 1 (lay_ok ?w (redraw _ _ ?w)) => apply redraw_lay : lay_db.

Section Ops.
Context {B : Type} `{BackdropOps B} {hq : HtmlQuery} {env : PageEnv}.

Lemma lay_backdrop_hide (h : nat -> World B -> World B) (w : World B) :
  (forall j w, lay_ok w (h j w)) -> lay_ok w (backdrop_hide h w).
Proof.
  intros Hh. unfold backdrop_hide. case_match. case_match; [|lay].
  apply (fold_left_rel lay_ok); [lay|]. intros w' j. case_match; [apply Hh|reflexivity].
Qed.

Lemma lay_hide f i (w : World B) : lay_ok w (hide f i w).
Proof.
  revert i w. induction f as [|f IH]; intros i w; [reflexivity|].
  cbn [hide]. unfold hide_body. cbv zeta.
  peel ltac:(first [apply lay_backdrop_hide; intros; apply IH | eauto 4 with lay_db]).
Qed.
#[local] Hint Extern 1 (lay_ok ?w (hide _ _ ?w)) => apply lay_hide : lay_db.
#[local] Hint Extern 1 (lay_ok ?w (backdrop_hide (hide _) ?w)) =>
  apply lay_backdrop_hide; intros; apply lay_hide : lay_db.

Lemma lay_show i (w : World B) : lay_ok w (show i w).
Proof.
  unfold show, createAjaxModal, createTargetModal, createHtmlModal, createBasicModal. cbv zeta. lay.
Qed.
#[local] Hint Extern 1 (lay_ok ?w (show _ ?w)) => apply lay_show : lay_db.

Lemma lay_run_effects i ao es (w : World B) : lay_ok w (run_effects i ao es w).
Proof.
  revert w. induction es as [|e es IH]; intros w; simpl; [reflexivity|].
  destruct e; try (etransitivity; [|apply IH]); unfold run_effect; try reflexivity; lay.
Qed.
#[local] Hint Extern 1 (lay_ok ?w (run_effects _ _ _ ?w)) => apply lay_run_effects : lay_db.

Lemma lay_ajax_done i r (w : World B) : lay_ok w (ajax_done i r w).
Proof. unfold ajax_done. cbv zeta. lay. Qed.
#[local] Hint Extern 1 (lay_ok ?w (ajax_done _ _ ?w)) => apply lay_ajax_done : lay_db.

Lemma lay_step e (w : World B) : lay_ok w (step e w).
Proof.
  destruct e; unfold step.
  - apply lay_show.
  - apply lay_hide.
  - unfold on_escape. cbv zeta. apply (fold_left_rel lay_ok); [lay|]. intros w' j. lay.
  - unfold on_wrapper_click. lay.
  - unfold on_action. lay.
  - unfold on_response. cbv zeta. lay.
  - unfold on_resize. cbv zeta.
    apply (fold_left_rel lay_ok); [apply (fold_left_rel lay_ok); [lay|]|]; intros; lay.
  - unfold on_image_load. cbv zeta. apply (fold_left_rel lay_ok); [lay|]. intros w' [j m]. lay.
  - unfold on_proxy_click, on_action. lay.
  - unfold on_close_click. lay.
  - unfold on_dialog_click. lay.
Qed.

End Ops.

(** ** Placement *)

Section Placement.
Context {B : Type} `{BackdropOps B} {env : PageEnv}.

(** What [positionModal] of instance [x] writes on its dialog [n]. *)
Definition placement_of (w : World B) (x : Inst) (n : nat) (nd : Node) : option Position.Placement :=
  Position.positionModal true (posOptions (options x))
    (measure (viewport (page w)) (node_raw nd) (bool_decide (n ∈ loaded (page w)))).

(** The dialog of instance [j] carries its current placement. *)
Definition placed (w : World B) (j : nat) : Prop :=
  forall x n nd, inst_at w j = Some x -> modal x = Some n -> nodes w !! n = Some nd ->
    placements (page w) !! n = placement_of w x n nd.

(** What [positionModal] reads and does not write. *)
Definition lframe (w w' : World B) : Prop :=
  insts w' = insts w /\ nodes w' = nodes w /\ mounted w' = mounted w /\
  viewport (page w') = viewport (page w) /\ loaded (page w') = loaded (page w).

#[export] Instance lframe_preorder : PreOrder lframe.
Proof.
  split; [intros w; by split_and!|]. intros w1 w2 w3 (?&?&?&?&?) (?&?&?&?&?). split_and!; congruence.
Qed.

Lemma lframe_position_modal j (w : World B) : lframe w (position_modal j w).
Proof. apply (position_modal_preserved lframe). intros. by split_and!. Qed.

Lemma lframe_reposition l (w : World B) : lframe w (fold_left (fun w j => position_modal j w) l w).
Proof. apply (fold_left_rel lframe); [reflexivity|]. intros. apply lframe_position_modal. Qed.

Lemma lframe_wf (w w' : World B) : lframe w w' -> wf w -> wf w'.
Proof. intros (Hi & Hn & Hm & _) Hw. unfold wf, owners in *. by rewrite Hi, Hn, Hm. Qed.

Lemma lframe_placement_of (w w' : World B) x n nd :
  lframe w w' -> placement_of w' x n nd = placement_of w x n nd.
Proof. intros (_ & _ & _ & Hv & Hl). unfold placement_of. by rewrite Hv, Hl. Qed.

(** [positionModal] places the dialog of its instance... *)
Lemma position_modal_placed j (w : World B) : placed (position_modal j w) j.
Proof.
  pose proof (lframe_position_modal j w) as F. intros x n nd Hx Hn Hnd.
  rewrite (lframe_placement_of w) by done. destruct F as (Hi & Hd & _).
  unfold inst_at in Hx. rewrite Hi in Hx. rewrite Hd in Hnd.
  unfold position_modal. unfold inst_at. rewrite Hx, Hn, Hnd. unfold placement_of.
  destruct (Position.positionModal_true_Some (posOptions (options x))
    (measure (viewport (page w)) (node_raw nd) (bool_decide (n ∈ loaded (page w))))) as [pl ->].
  simpl. apply lookup_insert_eq.
Qed.

(** ... and, in a well-formed page, no other instance's: two instances
    never share a dialog. *)
Lemma position_modal_other j k (w : World B) :
  wf w -> j <> k -> placed w k -> placed (position_modal j w) k.
Proof.
  intros (_ & _ & Wi) Hjk Hk x n nd Hx Hn Hnd.
  pose proof (lframe_position_modal j w) as F. rewrite (lframe_placement_of w) by done.
  destruct F as (Hi & Hd & _). unfold inst_at in Hx. rewrite Hi in Hx. rewrite Hd in Hnd.
  specialize (Hk x n nd Hx Hn Hnd).
  destruct (position_modal_cases j w) as [->|(y & m & pl & Hy & Hm & ->)]; [done|]. simpl.
  rewrite lookup_insert_ne; [done|]. intros <-.
  pose proof (Wi j y m Hy Hm). pose proof (Wi k x m Hx Hn). congruence.
Qed.

(** The handlers run in turn: every instance they reach is placed, and
    every instance placed before stays placed. *)
Lemma reposition_placed l (w : World B) k :
  wf w -> placed w k \/ k ∈ l -> placed (fold_left (fun w j => position_modal j w) l w) k.
Proof.
  revert w. induction l as [|a l IH]; intros w Hw Hk; simpl.
  - destruct Hk as [Hk|Hk]; [done|by apply elem_of_nil in Hk].
  - apply IH; [exact (lframe_wf _ _ (lframe_position_modal a w) Hw)|].
    destruct (decide (a = k)) as [<-|Hne]; [left; apply position_modal_placed|].
    destruct Hk as [Hk|Hk%elem_of_cons]; [left; by apply position_modal_other|].
    destruct Hk as [->|Hk]; [done|by right].
Qed.

End Placement.

(** ** Repositioning twice *)

(** Several [positionModal] calls, as the writes they make on the page. *)
Definition page_places (ws : list (nat * Position.Placement)) (p : Page) : Page :=
  fold_left (fun p '(n, pl) => page_place n pl p) ws p.

Definition place_key (k : nat) (a : nat * Position.Placement) : option Position.Placement :=
  if decide (a.1 = k) then Some a.2 else None.

Definition place_height (a : nat * Position.Placement) : option QArith_base.Q := Position.wrapper_height a.2.

Lemma page_places_placements ws p k :
  placements (page_places ws p) !! k = fold_left (reg_step (place_key k)) ws (placements p !! k).
Proof.
  revert p. induction ws as [|[n pl] ws IH]; intros p; [done|]. simpl. rewrite IH. f_equal.
  unfold reg_step, place_key. simpl. case_decide as E; [subst; apply lookup_insert_eq|].
  by apply lookup_insert_ne.
Qed.

Lemma page_places_height ws p :
  page_wrapper_height (page_places ws p) = fold_left (reg_step place_height) ws (page_wrapper_height p).
Proof. revert p. induction ws as [|[n pl] ws IH]; intros p; [done|]. simpl. by rewrite IH. Qed.

Lemma page_places_frame ws p :
  viewport (page_places ws p) = viewport p /\ resize_bound (page_places ws p) = resize_bound p /\
  img_bound (page_places ws p) = img_bound p /\ scanned (page_places ws p) = scanned p /\
  loaded (page_places ws p) = loaded p.
Proof.
  revert p. induction ws as [|[n pl] ws IH]; intros p; [done|].
  destruct (IH (page_place n pl p)) as (? & ? & ? & ? & ?). simpl in *. by split_and!.
Qed.

Lemma page_eq (p q : Page) :
  viewport p = viewport q -> placements p = placements q -> page_wrapper_height p = page_wrapper_height q ->
  resize_bound p = resize_bound q -> img_bound p = img_bound q -> scanned p = scanned q ->
  loaded p = loaded q -> p = q.
Proof. destruct p, q. simpl. intros. by subst. Qed.

(** A write that the sequence makes again is lost. *)
Lemma page_places_absorb ws a p : a ∈ ws -> page_places ws (page_place a.1 a.2 p) = page_places ws p.
Proof.
  intros Ha. destruct (page_places_frame ws (page_place a.1 a.2 p)) as (V1 & R1 & I1 & S1 & L1).
  destruct (page_places_frame ws p) as (V2 & R2 & I2 & S2 & L2). simpl in V1, R1, I1, S1, L1.
  apply page_eq; try congruence.
  - apply map_eq. intros k. rewrite !page_places_placements. simpl.
    destruct (decide (a.1 = k)) as [<-|Hne]; [|by rewrite lookup_insert_ne].
    apply fold_reg_indep. exists a. split; [done|]. unfold place_key. rewrite decide_True; eauto.
  - rewrite !page_places_height. simpl. destruct (Position.wrapper_height a.2) eqn:Eh; [|done].
    apply fold_reg_indep. exists a. split; [done|]. unfold place_height. rewrite Eh. eauto.
Qed.

Lemma page_places_idem ws p : page_places ws (page_places ws p) = page_places ws p.
Proof.
  cut (forall pre, pre ⊆ ws -> forall p, page_places ws (page_places pre p) = page_places ws p);
    [intros H; by apply H|].
  induction pre as [|a pre IH]; intros Hpre q; [done|]. simpl.
  rewrite (IH ltac:(set_solver)). destruct a as [n pl].
  apply (page_places_absorb ws (n, pl)). set_solver.
Qed.

Section Writes.
Context {B : Type} `{BackdropOps B} {env : PageEnv}.

(** The write [positionModal] of instance [j] makes. *)
Definition write_of (w : World B) (j : nat) : option (nat * Position.Placement) :=
  x ← inst_at w j; n ← modal x; nd ← nodes w !! n;
  pl ← Position.positionModal true (posOptions (options x))
         (measure (viewport (page w)) (node_raw nd) (bool_decide (n ∈ loaded (page w))));
  Some (n, pl).

Lemma write_of_lframe (w w' : World B) j : lframe w w' -> write_of w' j = write_of w j.
Proof. intros (Hi & Hn & _ & Hv & Hl). unfold write_of, inst_at. by rewrite Hi, Hn, Hv, Hl. Qed.

Lemma position_modal_write j (w : World B) :
  position_modal j w = upd_page (page_places (option_list (write_of w j))) w.
Proof.
  unfold position_modal, write_of. destruct (inst_at w j) as [x|]; [|by destruct w]. simpl.
  destruct (modal x) as [n|]; [|by destruct w]. simpl.
  destruct (nodes w !! n) as [nd|]; [|by destruct w]. simpl. by case_match; [|destruct w].
Qed.

Lemma write_of_position_modal j k (w : World B) : write_of (position_modal j w) k = write_of w k.
Proof. apply write_of_lframe, lframe_position_modal. Qed.

(** The handlers, as the writes they make. *)
Lemma reposition_writes l (w : World B) :
  fold_left (fun w j => position_modal j w) l w =
  upd_page (page_places (mjoin (option_list <$> (write_of w <$> l)))) w.
Proof.
  revert w. induction l as [|j l IH]; intros w; [by destruct w|]. simpl. rewrite IH.
  assert (E : write_of (position_modal j w) <$> l = write_of w <$> l)
    by (apply list_fmap_ext; intros; apply write_of_position_modal).
  rewrite E, position_modal_write. unfold upd_page. simpl. f_equal. unfold page_places.
  by rewrite fold_left_app.
Qed.

(** The writes of the [resize] handlers, [init]'s then [_show]'s. *)
Definition resize_writes (vp : Viewport) (w : World B) : list (nat * Position.Placement) :=
  mjoin (option_list <$> (write_of (upd_page (page_resize vp) w) <$>
    (seq 0 (List.length (insts w)) ++ resize_bound (page w)))).

Lemma lframe_page_places ws (w : World B) : lframe w (upd_page (page_places ws) w).
Proof. destruct (page_places_frame ws (page w)) as (? & _ & _ & _ & ?). by split_and!. Qed.

Lemma on_resize_places vp (w : World B) :
  on_resize vp w = upd_page (page_places (resize_writes vp w)) (upd_page (page_resize vp) w).
Proof.
  unfold on_resize, resize_writes. cbv zeta. rewrite reposition_writes.
  set (w1 := upd_page (page_resize vp) w). rewrite reposition_writes.
  set (ws1 := mjoin (option_list <$> (write_of w1 <$> seq 0 (List.length (insts w1))))).
  destruct (page_places_frame ws1 (page w1)) as (_ & Hr & _).
  change (resize_bound (page (upd_page (page_places ws1) w1)) = resize_bound (page w)) in Hr.
  rewrite Hr.
  assert (E : write_of (upd_page (page_places ws1) w1) <$> resize_bound (page w) = write_of w1 <$> resize_bound (page w))
    by (apply list_fmap_ext; intros; apply write_of_lframe, lframe_page_places).
  rewrite E. unfold ws1. change (List.length (insts w1)) with (List.length (insts w)).
  unfold upd_page. simpl. f_equal. unfold page_places. by rewrite fmap_app, fmap_app, join_app, fold_left_app.
Qed.

Lemma page_resize_same vp p : viewport p = vp -> page_resize vp p = p.
Proof. intros <-. by destruct p. Qed.

End Writes.

Section Idempotent.
Context {B : Type} `{BackdropOps B} {hq : HtmlQuery} {env : PageEnv}.


End Idempotent.

Section Reachable.
Context {B : Type} `{BackdropOps B} {hq : HtmlQuery} {env : PageEnv}.

Lemma reachable_layout cs b0 (w : World B) : reachable cs b0 w -> ids_fresh w /\ layout_inv w.
Proof.
  induction 1 as [|w e _ [Hf Hl]]; [split; [apply init_ids_fresh|split; constructor]|].
  destruct (lay_step e w) as [[_ HF] HL]. auto.
Qed.

(** C12. In every page reachable from the initial one, every dialog in
    the wrapper has been passed to [registry.scan]: [_show] (731) and
    [redraw] (768) scan the dialog [render] has just mounted, and nothing
    else mounts one.  The markup a response injects gains its behaviours
    (spec 4.4, [Redrawing]). *)
Theorem reachable_all_scanned cs b0 (w : World B) :
  reachable cs b0 w -> Forall (fun n => n ∈ scanned (page w)) (mounted w).
Proof. intros Hr. apply (reachable_layout cs b0 w Hr). Qed.

(** C25. A resize of the window places every dialog again: in a page
    reachable from the initial one, after [window.parent] is resized to
    [vp], the dialog of every instance carries the style [positionModal]
    computes from the instance's options and the dialog's measurement in
    the new window.  The handlers [init] binds (485-487) reach every
    instance, also those whose [resize.modal.patterns] handler a [hide]
    of any instance removed (758); an instance's handlers place only its
    own dialog, because no two instances share one ([wf]). *)
Theorem resize_places_all cs b0 (w : World B) vp j x n nd :
  reachable cs b0 w ->
  inst_at (step (EvResize vp) w) j = Some x -> modal x = Some n ->
  nodes (step (EvResize vp) w) !! n = Some nd ->
  placements (page (step (EvResize vp) w)) !! n =
    Position.positionModal true (posOptions (options x))
      (measure vp (node_raw nd) (bool_decide (n ∈ loaded (page w)))).
Proof.
  intros Hr Hx Hn Hnd. destruct (reachable_ids_wf cs b0 w Hr) as [_ Hwf].
  cbn [step] in *. unfold on_resize in *. cbv zeta in *.
  set (w1 := upd_page (page_resize vp) w) in *.
  set (w2 := fold_left _ (seq 0 _) w1) in *.
  set (w3 := fold_left _ (resize_bound (page w2)) w2) in *.
  pose proof (lframe_reposition (seq 0 (List.length (insts w1))) w1) as F1.
  pose proof (lframe_reposition (resize_bound (page w2)) w2) as F2. fold w2 in F1. fold w3 in F2.
  assert (P : placed w3 j).
  { apply reposition_placed; [exact (lframe_wf w1 w2 F1 Hwf)|left].
    apply reposition_placed; [exact Hwf|right]. apply elem_of_seq. split; [lia|].
    unfold inst_at in Hx. destruct F2 as [E2 _]. destruct F1 as [E1 _]. rewrite E2, E1 in Hx.
    apply lookup_lt_Some in Hx. lia. }
  rewrite (P x n nd Hx Hn Hnd). unfold placement_of.
  destruct F2 as (_ & _ & _ & V2 & L2). destruct F1 as (_ & _ & _ & V1 & L1).
  by rewrite V2, V1, L2, L1.
Qed.

(** [redraw] binds no image handler. *)
Lemma redraw_img_bound i r (w : World B) : img_bound (page (redraw i r w)) = img_bound (page w).
Proof.
  unfold redraw. cbv zeta. case_match; [|done].
  match goal with |- context [position_modal i (render i ?u)] =>
    destruct (render_layout i u) as [Hp _]; set (R := render i u) in *; clearbody R end.
  destruct (position_modal_cases i R) as [->|(y & m & pl & _ & _ & ->)]; case_match; simpl; by rewrite Hp.
Qed.

(** The [load] handlers of node [m], when none names it, do nothing. *)
Lemma image_handlers_none (l : list (nat * nat)) m (w : World B) :
  Forall (fun jk : nat * nat => jk.2 <> m) l ->
  fold_left (fun w '(j, k) => if decide (k = m) then position_modal j w else w) l w = w.
Proof.
  intros Hl. revert w. induction Hl as [|[j k] l Hk _ IH]; intros w; [done|]. simpl in *.
  rewrite decide_False by done. apply IH.
Qed.

(** C26. The images of a redrawn dialog have no [load] handler: in a page
    reachable from the initial one, [redraw] (761-770) puts the response
    in the new dialog [next_id], places it and scans it, but binds no
    handler on its images, and every handler [_show] bound names an older
    node; so when the images of the new dialog finish loading, no
    placement changes, and the dialog keeps the placement computed before
    they had a size.  The spec (4.4) says an image load inside the
    content re-invokes the PositionEngine. *)
Theorem redraw_image_load_stale cs b0 (w : World B) i x n resp :
  reachable cs b0 w -> inst_at w i = Some x -> modal x = Some n ->
  inst_at (redraw i resp w) i ≫= modal = Some (next_id w) /\
  placements (page (step (EvImageLoad (next_id w)) (redraw i resp w))) =
    placements (page (redraw i resp w)).
Proof.
  intros Hr Hx Hn. destruct (reachable_layout cs b0 w Hr) as [_ [_ Wi]].
  destruct (redraw_renders i x n resp w Hx Hn) as (y & Hy & Hmy & _). split; [by rewrite Hy|].
  cbn [step]. unfold on_image_load. cbv zeta. rewrite image_handlers_none; [done|].
  simpl. rewrite redraw_img_bound. eapply Forall_impl; [exact Wi|]. intros jk Hjk. simpl in Hjk. lia.
Qed.

End Reachable.

(** ** The theorems on the sample page *)

Definition sample_vp : Viewport := {| vp_width := QArith_base.inject_Z 1280; vp_height := QArith_base.inject_Z 720 |}.

Lemma reachable_all_scanned_witness :
  let w := run [EvShow 1; EvShow 0] sample_world in
  reachable (hq := literal_query) (env := sample_env) [remote_link; inline_link] sample_backdrop w /\
  Forall (fun n => n ∈ scanned (page w)) (mounted w).
Proof.
  cbv zeta. split; [|apply (reachable_all_scanned (hq := literal_query) (env := sample_env)
    [remote_link; inline_link] sample_backdrop)]; repeat constructor.
Defined.

Lemma resize_places_all_witness :
  let w := run [EvShow 1] sample_world in
  let W := step (hq := literal_query) (env := sample_env) (EvResize sample_vp) w in
  exists x n nd,
    reachable (hq := literal_query) (env := sample_env) [remote_link; inline_link] sample_backdrop w /\
    inst_at W 1 = Some x /\ modal x = Some n /\ nodes W !! n = Some nd /\
    placements (page W) !! n = Position.positionModal true (posOptions (options x))
      (measure (PageEnv := sample_env) sample_vp (node_raw nd) (bool_decide (n ∈ loaded (page w)))).
Proof.
  cbv zeta. assert (Hr : reachable (hq := literal_query) (env := sample_env) [remote_link; inline_link]
    sample_backdrop (run [EvShow 1] sample_world)) by repeat constructor.
  eexists _, _, _. split_and!; [exact Hr|reflexivity|reflexivity|reflexivity|].
  eapply (resize_places_all (hq := literal_query) (env := sample_env) [remote_link; inline_link]
    sample_backdrop _ sample_vp 1); [exact Hr|reflexivity..].
Defined.

Lemma redraw_image_load_stale_witness :
  let w := run [EvShow 1] sample_world in
  exists x n,
    reachable (hq := literal_query) (env := sample_env) [remote_link; inline_link] sample_backdrop w /\
    inst_at w 1 = Some x /\ modal x = Some n /\
    inst_at (redraw (hq := literal_query) (env := sample_env) 1 "<p>form</p>" w) 1 ≫= modal = Some (next_id w) /\
    placements (page (step (hq := literal_query) (env := sample_env) (EvImageLoad (next_id w))
      (redraw (hq := literal_query) (env := sample_env) 1 "<p>form</p>" w))) =
    placements (page (redraw (hq := literal_query) (env := sample_env) 1 "<p>form</p>" w)).
Proof.
  cbv zeta. assert (Hr : reachable (hq := literal_query) (env := sample_env) [remote_link; inline_link]
    sample_backdrop (run [EvShow 1] sample_world)) by repeat constructor.
  eexists _, _. split; [exact Hr|]. split; [reflexivity|]. split; [reflexivity|].
    eapply (redraw_image_load_stale (hq := literal_query) (env := sample_env) [remote_link; inline_link]
      sample_backdrop _ 1); [exact Hr|reflexivity..].
Defined.

End Layout.
