(* ===== verification/Flows.v ===== *)
(** * Action flows: an action of an open dialog, its request and its answer

    The handlers of [Actions] are lists of effects; [Lifecycle.on_action]
    runs them on the world and [Lifecycle.on_response] runs the completion
    callbacks when the request they issued comes back.  The theorems here
    follow one action from the click to the answer: a form action and a
    link action of an open dialog, each answered with a success that
    redraws the dialog. *)

From stdpp Require Import base list sets gmap strings.
From Stdlib Require Import String.
From S2P Require Import Prelude Config Actions Backdrop Lifecycle Invariants Fresh Behaviour.

Local Open Scope list_scope.
Local Set Warnings "-clear-no-such-hyp".

Module Flows.
Import Config Actions Lifecycle Invariants Fresh Behaviour.

Section Flows.
Context {B : Type} `{BackdropLaws B} {hq : HtmlQuery} {env : PageEnv}.

(** [redraw] touches neither the loading indicator nor the requests. *)
Lemma redraw_frame i resp (w : World B) :
  loading_shown (redraw i resp w) = loading_shown w /\ pending (redraw i resp w) = pending w.
Proof. unfold redraw, render, default_render. cbv zeta. repeat case_match; elim_position_modal; by repeat case_match. Qed.

(** The handler bound on an action element of a mounted dialog runs. *)
Lemma on_action_runs i x n key el u (w : World B) :
  inst_at w i = Some x -> modal x = Some n -> n ∈ mounted w ->
  nodes w !! n ≫= (fun nd => js_obj_get key (node_actions nd)) = Some u ->
  on_action i key el w =
    run_effects i (merge_action_opts (actionOptions (options x)) u)
      (action_handler (merge_action_opts (actionOptions (options x)) u) u el) w.
Proof.
  intros Hx Hn Hm Hu. unfold on_action. rewrite Hx, Hn, bool_decide_true by done. by rewrite Hu.
Qed.

(** The answer to the action request [r], found after older requests. *)
Lemma action_response_runs r i ao k o l (w : World B) :
  Forall (fun p => p_id p < r)%nat l -> pending w = l ++ [Build_Pending r i (PAction ao k)] ->
  on_response r o w = run_effects i ao (complete ao k o) (set_pending l w).
Proof.
  intros Hl Hp. unfold on_response. rewrite Hp, list_find_fresh by done. cbn [p_kind p_inst].
  rewrite filter_fresh, app_nil_r by (done || constructor). done.
Qed.

(** What an action issuing a request leaves: the request is outstanding
    and the loading indicator is shown without its close handlers. *)
Lemma action_issue_frame i ao k (w : World B) :
  let w' := issue i (PAction ao k) (showLoading false w) in
  pending w' = pending w ++ [Build_Pending (next_id w) i (PAction ao k)] /\
  next_id w' = S (next_id w) /\ mounted w' = mounted w /\ nodes w' = nodes w /\
  inst_at w' i = inst_at w i /\ loading_shown w' = true /\ bd_closeOnEsc (backdrop w') = false.
Proof. simpl. split_and!; try done. by rewrite bd_show_esc, bd_set_closable_esc. Qed.

Lemma ids_fresh_mounted (w : World B) n : ids_fresh w -> n ∈ mounted w -> (n < next_id w)%nat.
Proof. intros (_ & Fm & _) Hm. by eapply Forall_forall in Fm. Qed.

(** The redraw that answers an action, on the world of the action. *)
Lemma action_redraw i x n resp (w : World B) :
  inst_at w i = Some x -> modal x = Some n -> (n < next_id w)%nat ->
  next_id w ∈ mounted (redraw i resp w) /\ (n ∉ mounted (redraw i resp w)) /\
  loading_shown (redraw i resp w) = loading_shown w /\ pending (redraw i resp w) = pending w.
Proof.
  intros Hx Hn Hlt. destruct (redraw_renders i x n resp w Hx Hn) as (y & _ & _ & Hmr & _).
  destruct (redraw_frame i resp w) as [Hl Hp]. rewrite Hmr, Hl, Hp.
  split_and!; [set_solver| |done|done].
  rewrite elem_of_app, list_elem_of_filter, list_elem_of_singleton. intros [[? _]|?]; [done|lia].
Qed.

(** The success callback's log entry for [onSuccess]. *)
Definition success_log i (ao : ActionOpts) (w : World B) : World B :=
  if onSuccess ao then push_log (LCallback i CbSuccess) w else w.

Lemma success_log_frame i ao (w : World B) :
  inst_at (success_log i ao w) i = inst_at w i /\ mounted (success_log i ao w) = mounted w /\
  loading_shown (success_log i ao w) = loading_shown w /\ pending (success_log i ao w) = pending w /\
  next_id (success_log i ao w) = next_id w.
Proof. unfold success_log. by case_match. Qed.

(** A successful link answer: [redraw], the success callback, then the
    loading indicator is hidden. *)
Lemma link_success_runs i ao resp (w : World B) :
  run_effects i ao (link_complete ao (Success resp)) w =
    trigger i "linkActionSuccess" (set_loading false (success_log i ao (redraw i resp w))).
Proof. unfold link_complete, success_log. by destruct (onSuccess ao). Qed.

(** A successful form answer without markers nor redirect, shown in the
    dialog: the success callback, then [redraw], then the event. *)
Lemma form_success_runs i ao resp (w : World B) :
  has_error_marker ao resp = false -> redirectOnResponse ao = false -> displayInModal ao = true ->
  run_effects i ao (form_complete ao (Success resp)) w =
    trigger i "formActionSuccess" (redraw i resp (success_log i ao w)).
Proof.
  intros Hmk Hr Hd. unfold form_complete. rewrite Hmk. unfold form_redirect. rewrite Hr, Hd.
  unfold success_log. by destruct (onSuccess ao).
Qed.

(** C33. A form action of an open dialog (an input or button inside a
    form) issues its request and shows the loading indicator without the
    backdrop's close handlers (148, 165-199); when the answer succeeds
    without error markers and [displayInModal] is set, the dialog is
    redrawn on a new node, but the success callback never hides the
    loading indicator (211-244), which stays shown over the new dialog. *)
Theorem form_action_keeps_loading i x n key el u ao resp (w : World B) :
  ids_fresh w -> inst_at w i = Some x -> modal x = Some n -> n ∈ mounted w ->
  nodes w !! n ≫= (fun nd => js_obj_get key (node_actions nd)) = Some u ->
  ao = merge_action_opts (actionOptions (options x)) u ->
  classify ao u el = HForm -> submit_forms el <> [] ->
  has_error_marker ao resp = false -> redirectOnResponse ao = false -> displayInModal ao = true ->
  pending (step (EvAction i key el) w) = pending w ++ [Build_Pending (next_id w) i (PAction ao FormReq)] /\
  loading_shown (step (EvAction i key el) w) = true /\
  bd_closeOnEsc (backdrop (step (EvAction i key el) w)) = false /\
  S (next_id w) ∈ mounted (step (EvRespond (next_id w) (Success resp)) (step (EvAction i key el) w)) /\
  (n ∉ mounted (step (EvRespond (next_id w) (Success resp)) (step (EvAction i key el) w))) /\
  loading_shown (step (EvRespond (next_id w) (Success resp)) (step (EvAction i key el) w)) = true /\
  pending (step (EvRespond (next_id w) (Success resp)) (step (EvAction i key el) w)) = pending w.
Proof.
  intros Hf Hx Hn Hm Hu -> Hc Hs Hmk Hr Hd. pose proof (ids_fresh_mounted w n Hf Hm) as Hlt.
  set (ao := merge_action_opts (actionOptions (options x)) u) in *.
  assert (Hact : step (EvAction i key el) w = issue i (PAction ao FormReq) (showLoading false w)).
  { unfold step. rewrite (on_action_runs i x n key el u w Hx Hn Hm Hu). fold ao. unfold action_handler.
    rewrite Hc. unfold handleFormAction. by destruct (submit_forms el). }
  rewrite Hact. destruct (action_issue_frame i ao FormReq w) as (Hp1 & Hn1 & Hm1 & _ & Hx1 & Hl1 & He1).
  set (W := issue i (PAction ao FormReq) (showLoading false w)) in *.
  unfold step. rewrite (action_response_runs _ _ _ _ _ (pending w) _ (proj1 Hf) Hp1). cbn [complete].
  rewrite (form_success_runs i ao resp (set_pending (pending w) W)) by done.
  set (V := success_log i ao (set_pending (pending w) W)).
  destruct (success_log_frame i ao (set_pending (pending w) W)) as (HxV & _ & HlV & HpV & HnV).
  fold V in HxV, HlV, HpV, HnV.
  assert (HxV' : inst_at V i = Some x) by (rewrite HxV, <- Hx; exact Hx1).
  assert (HnV' : next_id V = S (next_id w)) by (rewrite HnV; exact Hn1).
  clearbody V.
  destruct (action_redraw i x n resp V HxV' Hn) as (Hin & Hout & Hl & Hp); [lia|].
  rewrite HnV' in Hin. cbn [mounted loading_shown pending trigger push_log]. rewrite Hl, Hp, HlV, HpV.
  by split_and!.
Qed.


End Flows.

(** ** Runs on the sample page *)

(** The submit button of a form inside the in-page dialog, and a link. *)
Definition submit_button : Elem := {|
  tag := "input"; attr_name := Some "form.submitted"; attr_value := Some "Save";
  attr_href := None; attr_action := None;
  form_parents := [{| form_action := Some "/save"; form_disableAutoSubmit := false |}] |}.

Definition next_link : Elem := {|
  tag := "a"; attr_name := None; attr_value := None;
  attr_href := Some "/next"; attr_action := None; form_parents := [] |}.

(** The key under which [form] binds the submit buttons. *)
Definition buttons_key : string := buttons (default_options (fun _ => None)).

Lemma form_action_keeps_loading_witness :
  exists x n u, ids_fresh inline_open /\ inst_at inline_open 1 = Some x /\ modal x = Some n /\
  n ∈ mounted inline_open /\
  nodes inline_open !! n ≫= (fun nd => js_obj_get buttons_key (node_actions nd)) = Some u /\
  pending (step (hq := literal_query) (env := sample_env) (EvAction 1 buttons_key submit_button) inline_open) =
    pending inline_open ++
      [Build_Pending (next_id inline_open) 1 (PAction (default_actionOptions (fun _ => None)) FormReq)] /\
  loading_shown (step (hq := literal_query) (env := sample_env) (EvAction 1 buttons_key submit_button) inline_open) = true /\
  bd_closeOnEsc (backdrop (step (hq := literal_query) (env := sample_env)
                             (EvAction 1 buttons_key submit_button) inline_open)) = false /\
  S (next_id inline_open) ∈ mounted (step (hq := literal_query) (env := sample_env)
      (EvRespond (next_id inline_open) (Success "<p>saved</p>"))
      (step (hq := literal_query) (env := sample_env) (EvAction 1 buttons_key submit_button) inline_open)) /\
  (n ∉ mounted (step (hq := literal_query) (env := sample_env)
      (EvRespond (next_id inline_open) (Success "<p>saved</p>"))
      (step (hq := literal_query) (env := sample_env) (EvAction 1 buttons_key submit_button) inline_open))) /\
  loading_shown (step (hq := literal_query) (env := sample_env)
      (EvRespond (next_id inline_open) (Success "<p>saved</p>"))
      (step (hq := literal_query) (env := sample_env) (EvAction 1 buttons_key submit_button) inline_open)) = true /\
  pending (step (hq := literal_query) (env := sample_env)
      (EvRespond (next_id inline_open) (Success "<p>saved</p>"))
      (step (hq := literal_query) (env := sample_env) (EvAction 1 buttons_key submit_button) inline_open)) =
    pending inline_open.
Proof.
  do 3 eexists. split; [apply inline_open_fresh|].
  split; [vm_compute; reflexivity|]. split; [vm_compute; reflexivity|].
  split; [vm_compute; left|]. split; [vm_compute; reflexivity|].
  eapply (form_action_keeps_loading (hq := literal_query) (env := sample_env) 1 _ _ buttons_key submit_button _
            (default_actionOptions (fun _ => None)) "<p>saved</p>" inline_open);
    first [apply inline_open_fresh | vm_compute; first [reflexivity | left | discriminate]].
Defined.


End Flows.
